(** * Wind loading on signage: the calculators of [wind_calculator.py],
      [post_mounted_calculator.py] and [projecting_sign_calculator.py]

    The three Python calculators are embedded as Rocq functions.  Python
    numbers ([int] and [float]) are read as real numbers: [np.log] is [ln]
    (in every call the calculators make it sits behind a guard that makes
    its argument positive), [x ** 0.2] is [Rpower], [np.sqrt] is [sqrt],
    [np.pi] is [PI].
    A division whose divisor may be zero is fallible and yields
    [ZeroDivisionError]; numpy scalars would return [inf] with a warning
    where a Python [float] raises, and the statements below about such
    divisions speak about the outcomes that carry a value.

    Each calculator object owns one attribute that changes, [self.warnings],
    a reference to a Python list.  The lists live in a store, so that
    rebinding ([self.warnings = []]) and mutation ([.append]) are told
    apart.

    Of the request handler of [api.py] the range checks, the choice of the
    calculator and the inputs of the wall-mounted branch are embedded. *)

From Stdlib Require Import Reals Lra Lia ZArith Psatz.
From Stdlib Require Import Ascii String.
From stdpp Require Import base option list gmap strings.

Local Open Scope string_scope.
Local Open Scope list_scope.
Local Open Scope R_scope.

(** ** Decidable comparisons on the reals *)

#[global] Instance Rle_decision : RelDecision Rle := Rle_dec.
#[global] Instance Rlt_decision : RelDecision Rlt := Rlt_dec.
#[global] Instance Rge_decision : RelDecision Rge := Rge_dec.
#[global] Instance Rgt_decision : RelDecision Rgt := Rgt_dec.
#[global] Instance Req_decision : EqDecision R := Req_dec_T.

(** ** Outcomes of a Python call *)

Inductive exn : Type :=
  | ZeroDivisionError
  | KeyError (key : string).

Inductive outcome (A : Type) : Type :=
  | Ok (a : A)
  | Raise (x : exn).
Arguments Ok {A} a.
Arguments Raise {A} x.

Definition outcome_map {A B} (f : A → B) (o : outcome A) : outcome B :=
  match o with
  | Ok a => Ok (f a)
  | Raise x => Raise x
  end.

Definition outcome_bind {A B} (o : outcome A) (f : A → outcome B) : outcome B :=
  match o with
  | Ok a => f a
  | Raise x => Raise x
  end.

(** Python's [/] on floats. *)
Definition py_div (x y : R) : outcome R :=
  if decide (y = 0) then Raise ZeroDivisionError else Ok (x / y).

(** ** Messages

    An f-string is kept as its pieces: literal text and numbers with the
    precision they are printed with ([{x:.2f}] is [Num 2 x]). *)

Inductive piece : Type :=
  | Lit (s : string)
  | Num (digits : nat) (x : R).

Definition message := list piece.

Definition text (s : string) : message := [Lit s].

(** ** The calculator object and its warning lists *)

Definition loc := positive.

Record calculator := Calculator {
  heap : gmap loc (list message);   (* the list objects *)
  self_warnings : loc               (* self.warnings *)
}.

(** What a call does to the warning lists, in order. *)
Inductive event : Type :=
  | Reset                           (* self.warnings = [] *)
  | Append (w : message).           (* self.warnings.append(w) *)

Definition step (ev : event) (c : calculator) : calculator :=
  match ev with
  | Reset =>
      let l := fresh (dom (heap c)) in
      Calculator (<[l := []]> (heap c)) l
  | Append w =>
      Calculator (alter (λ ws, ws ++ [w]) (self_warnings c) (heap c))
                 (self_warnings c)
  end.

Definition exec (evs : list event) (c : calculator) : calculator :=
  fold_left (λ c ev, step ev c) evs c.

(** The list [self.warnings] refers to. *)
Definition current (c : calculator) : list message :=
  default [] (heap c !! self_warnings c).

(** A freshly constructed calculator: [__init__] binds one empty list. *)
Definition init : calculator := Calculator {[ 1%positive := [] ]} 1%positive.

(** ** Methods: state passing with exceptions *)

Definition M (A : Type) : Type := calculator → outcome A * calculator.

Definition ret {A} (a : A) : M A := λ c, (Ok a, c).
Definition raise {A} (x : exn) : M A := λ c, (Raise x, c).
Definition bind {A B} (m : M A) (f : A → M B) : M B :=
  λ c, match m c with
       | (Ok a, c') => f a c'
       | (Raise x, c') => (Raise x, c')
       end.
Definition lift {A} (o : outcome A) : M A := λ c, (o, c).

Notation "x <- m ;; k" := (bind m (λ x, k))
  (at level 100, m at next level, right associativity, only parsing).
Notation "m ;;; k" := (bind m (λ _, k))
  (at level 100, right associativity, only parsing).

Definition new_warnings : M unit := λ c, (Ok tt, step Reset c).
Definition warn (w : message) : M unit := λ c, (Ok tt, step (Append w) c).
Definition the_warnings : M loc := λ c, (Ok (self_warnings c), c).

(** ** String helpers for the postcode lookup (ASCII postcodes) *)

Definition is_py_space (a : ascii) : bool :=
  let n := Ascii.nat_of_ascii a in
  (n =? 32)%nat || ((9 <=? n)%nat && (n <=? 13)%nat) || ((28 <=? n)%nat && (n <=? 31)%nat).

Definition ascii_upper (a : ascii) : ascii :=
  let n := Ascii.nat_of_ascii a in
  if ((97 <=? n)%nat && (n <=? 122)%nat)%bool then Ascii.ascii_of_nat (n - 32) else a.

Definition ascii_isalpha (a : ascii) : bool :=
  let n := Ascii.nat_of_ascii a in
  ((65 <=? n)%nat && (n <=? 90)%nat) || ((97 <=? n)%nat && (n <=? 122)%nat).

Definition str_upper (s : string) : string :=
  string_of_list_ascii (map ascii_upper (list_ascii_of_string s)).

Fixpoint lstrip (l : list ascii) : list ascii :=
  match l with
  | a :: l' => if is_py_space a then lstrip l' else l
  | [] => []
  end.

Definition str_strip (s : string) : string :=
  string_of_list_ascii (rev (lstrip (rev (lstrip (list_ascii_of_string s))))).

(** [''.join([c for c in s[:2] if c.isalpha()])] *)
Definition alpha_prefix2 (s : string) : string :=
  string_of_list_ascii (filter (λ a, ascii_isalpha a = true) (take 2 (list_ascii_of_string s))).

Definition str_contains (a : ascii) (s : string) : bool :=
  existsb (Ascii.eqb a) (list_ascii_of_string s).

(** * The wall-mounted calculator, [WindLoadCalculator] *)

Module WindLoadCalculator.

Definition VERSION : string := "1.0.0".
Definition STANDARD : string := "BS EN 1991-1-4:2005+A1:2010".

(** A value found under ['distance_to_shore']: a number, or a string
    together with what Python's [float()] makes of it ([None] when it
    raises [ValueError]). *)
Inductive dist_value : Type :=
  | DNum (x : R)
  | DStr (s : string) (as_float : option R).

(** The input dictionary.  The keys read with [inputs[...]] are fields, the
    keys read with [inputs.get] or tested with [in] are optional. *)
Record inputs := Inputs {
  in_sign_width : R;
  in_sign_height : R;
  in_sign_depth : R;
  in_building_height : R;
  in_site_altitude : R;
  in_v_map : option R;
  in_postcode : option string;
  in_distance_to_shore : option dist_value;
  in_terrain_type : option string;
  in_distance_into_town : option R
}.

Inductive zone : Type := ZoneA | ZoneB | ZoneC.

(** One entry of [assessment['checks']]. *)
Record check := Check {
  check_name : string;
  check_status : string;
  check_value : message;
  check_limit : string;
  check_message : string
}.

Record assessment := Assessment {
  checks : list check;
  overall_status : string;
  recommendations : list string;
  summary : string
}.

(** The result dictionary; [W] is what the ['warnings'] entry holds (a
    reference to a list in the store, or the list read from it).  The
    [stage_*_ref] entries, literal citations that are the same in every
    result, are left out. *)
Record results (W : Type) := Results {
  v_map : R;
  c_alt : R;
  c_season : R;
  c_dir : R;
  h_dis : R;
  distance_to_shore : R;
  c_e : R;
  zone_ : zone;
  c_e_T : R;
  size_factor_zone : zone;
  q_p : R;
  c_o : R;
  c_s : R;
  z_eff : R;
  c_d : R;
  A_ref : R;
  c_f : R;
  force_N : R;
  force_kN : R;
  moment_kNm : R;
  lever_arm : R;
  design_wind_speed : R;
  warnings : W;
  methodology : string;
  reference : string;
  version : string;
  assessment_ : option assessment
}.
Arguments Results {W}.
Arguments v_map {W}. Arguments c_alt {W}. Arguments c_season {W}.
Arguments c_dir {W}. Arguments h_dis {W}. Arguments distance_to_shore {W}.
Arguments c_e {W}. Arguments zone_ {W}. Arguments c_e_T {W}.
Arguments size_factor_zone {W}. Arguments q_p {W}. Arguments c_o {W}.
Arguments c_s {W}. Arguments z_eff {W}. Arguments c_d {W}. Arguments A_ref {W}.
Arguments c_f {W}. Arguments force_N {W}. Arguments force_kN {W}.
Arguments moment_kNm {W}. Arguments lever_arm {W}.
Arguments design_wind_speed {W}. Arguments warnings {W}.
Arguments methodology {W}. Arguments reference {W}. Arguments version {W}.
Arguments assessment_ {W}.

(** Replace what the ['warnings'] entry holds. *)
Definition map_warnings {W W'} (f : W → W') (r : results W) : results W' :=
  Results (v_map r) (c_alt r) (c_season r) (c_dir r) (h_dis r)
    (distance_to_shore r) (c_e r) (zone_ r) (c_e_T r) (size_factor_zone r)
    (q_p r) (c_o r) (c_s r) (z_eff r) (c_d r) (A_ref r) (c_f r) (force_N r)
    (force_kN r) (moment_kNm r) (lever_arm r) (design_wind_speed r)
    (f (warnings r)) (methodology r) (reference r) (version r) (assessment_ r).

(** *** [_parse_distance] *)
Definition _parse_distance (d : dist_value) : R :=
  match d with
  | DNum x => x
  | DStr s as_float =>
      if str_contains "+"%char s then 100
      else match as_float with
           | Some x => x
           | None => 100
           end
  end.

(** *** [lookup_wind_speed] *)
Definition wind_speed_map : gmap string R :=
  list_to_map
    [ ("AB", 24.0); ("DD", 24.0); ("DG", 23.5); ("EH", 24.0); ("FK", 23.5);
      ("G", 23.5); ("HS", 26.0); ("IV", 25.0); ("KA", 23.5); ("KW", 26.0);
      ("KY", 24.0); ("ML", 23.5); ("PA", 24.0); ("PH", 24.5); ("TD", 23.5);
      ("ZE", 27.0);
      ("CA", 23.0); ("DH", 22.5); ("DL", 22.5); ("NE", 23.0); ("SR", 22.5);
      ("TS", 22.5);
      ("CF", 23.0); ("LL", 23.5); ("SA", 23.5); ("SY", 22.5); ("LD", 22.5);
      ("NP", 22.5);
      ("EX", 22.5); ("PL", 23.5); ("TQ", 22.5); ("TR", 24.0);
      ("BN", 22.5); ("CT", 23.0); ("TN", 22.0); ("ME", 22.5); ("RH", 22.0);
      ("E", 22.0); ("EC", 22.0); ("N", 22.0); ("NW", 22.0); ("SE", 22.0);
      ("SW", 22.0); ("W", 22.0); ("WC", 22.0);
      ("B", 21.5); ("CV", 21.5); ("DE", 21.5); ("LE", 21.5); ("NG", 21.5);
      ("NN", 21.5); ("WS", 21.5); ("WV", 21.5) ].

Definition lookup_wind_speed (postcode : string) : M R :=
  if decide (postcode = "") then
    warn (text "No postcode provided, using default v_map = 22.0 m/s") ;;;
    ret 22.0
  else
    let postcode_upper := str_strip (str_upper postcode) in
    let area := alpha_prefix2 postcode_upper in
    let v_map := default 22.0 (wind_speed_map !! area) in
    match wind_speed_map !! area with
    | None =>
        warn (text ("Postcode area '" +:+ area +:+
                    "' not in database, using default v_map = 22.0 m/s")) ;;;
        ret v_map
    | Some _ => ret v_map
    end.

(** *** [calculate_altitude_factor] *)
Definition calculate_altitude_factor (altitude height : R) : R :=
  let z_s := 0.6 * height in
  if decide (z_s >= 10) then 1 + 0.001 * altitude * Rpower (10 / z_s) 0.2
  else 1 + 0.001 * altitude.

(** *** [calculate_exposure_factor] *)
Definition calculate_exposure_factor
    (height displacement distance_to_shore : R) (terrain_type : string)
    : R * zone :=
  let z_eff := Rmax (height - displacement) 2.0 in
  let zone :=
    if decide (terrain_type = "sea" ∨ distance_to_shore <= 0.1) then ZoneA
    else if decide (terrain_type = "town") then ZoneC
    else ZoneB in
  let c_e :=
    match zone with
    | ZoneA => if decide (z_eff <= 10) then 2.5 else 2.5 + 0.20 * ln (z_eff / 10)
    | ZoneC => if decide (z_eff <= 10) then 2.5 else 2.5 + 0.28 * ln (z_eff / 10)
    | ZoneB => if decide (z_eff <= 10) then 2.1 else 2.1 + 0.22 * ln (z_eff / 10)
    end in
  let c_e :=
    match zone with
    | ZoneB =>
        if decide (distance_to_shore < 100) then
          let c_e_A := if decide (z_eff <= 10) then 2.5
                       else 2.5 + 0.20 * ln (z_eff / 10) in
          let c_e_B := if decide (z_eff <= 10) then 2.1
                       else 2.1 + 0.22 * ln (z_eff / 10) in
          let factor := Rmin (distance_to_shore / 100) 1.0 in
          c_e_A + factor * (c_e_B - c_e_A)
        else c_e
    | _ => c_e
    end in
  (c_e, zone).

(** *** [calculate_town_correction] *)
Definition calculate_town_correction (distance_into_town height : R) : R :=
  if decide (distance_into_town <= 0) then 1.0
  else if decide (distance_into_town >= 4) then 1.08
  else 1.0 + 0.02 * distance_into_town.

(** *** [calculate_peak_velocity_pressure] *)
Definition calculate_peak_velocity_pressure (v_map c_alt c_dir c_e c_e_T : R) : R :=
  let velocity := v_map * c_alt * c_dir in
  0.613 * (velocity ^ 2) * c_e * c_e_T.

(** *** [calculate_size_factor]

    The three zone branches of the source are the same text with two
    constants changed: the table values at [b+h = 300] for [z = 6] and for
    [z = 200]. *)
Definition size_factor_branch (lo hi b_plus_h z_eff : R) : R :=
  if decide (b_plus_h <= 5) then 1.0
  else if decide (b_plus_h >= 300) then
    if decide (z_eff <= 6) then lo
    else if decide (z_eff >= 200) then hi
    else lo + (hi - lo) * ln (z_eff / 6) / ln (200 / 6)
  else
    let c_s_5 := 1.0 in
    let c_s_300 :=
      if decide (z_eff <= 6) then lo
      else lo + (hi - lo) * ln (z_eff / 6) / ln (200 / 6) in
    c_s_5 + (c_s_300 - c_s_5) * ln (b_plus_h / 5) / ln (300 / 5).

Definition calculate_size_factor (width height z_eff : R) (zone : zone) : R :=
  let b_plus_h := width + height in
  match zone with
  | ZoneA => size_factor_branch 0.81 0.88 b_plus_h z_eff
  | ZoneC => size_factor_branch 0.75 0.85 b_plus_h z_eff
  | ZoneB => size_factor_branch 0.78 0.87 b_plus_h z_eff
  end.

(** *** [calculate_dynamic_factor] *)
Definition table_0_08 : list (R * R) :=
  [ (0.25, 1.02); (0.5, 1.03); (1.0, 1.06); (2.0, 1.10); (4.0, 1.17); (10.0, 1.24) ].

(** The [for] loop over consecutive table rows. *)
Fixpoint interpolate (rows : list (R * R)) (x : R) : option R :=
  match rows with
  | (x0, y0) :: (((x1, y1) :: _) as rest) =>
      if decide (x0 <= x <= x1) then Some (y0 + (y1 - y0) * (x - x0) / (x1 - x0))
      else interpolate rest x
  | _ => None
  end.

Definition calculate_dynamic_factor (height width : R) : outcome R :=
  if decide (height <= 15) then Ok 1.0
  else
    outcome_bind (py_div height width) (λ h_over_b,
      if decide (h_over_b <= 0.25) then Ok 1.02
      else if decide (h_over_b >= 10.0) then Ok 1.24
      else Ok (default 1.1 (interpolate table_0_08 h_over_b))).

(** *** [calculate_force_coefficient] *)
Definition calculate_force_coefficient (height depth : R) : M R :=
  h_over_d <- lift (py_div height depth) ;;
  h_over_d <-
    (if decide (h_over_d > 5) then
       warn [Lit "h/d = "; Num 2 h_over_d;
             Lit " > 5. Using c_f for h/d=5 (conservative)."] ;;;
       ret 5.0
     else ret h_over_d) ;;
  ret (if decide (0.25 <= h_over_d <= 1) then 0.935 + 0.1839 * ln h_over_d
       else if decide (1 < h_over_d <= 5) then
         (0.8125 + 0.0375 * h_over_d) * (1.1 + 0.1243 * ln h_over_d)
       else if decide (h_over_d < 0.25) then 0.68
       else 1.0).

(** *** [calculate_wind_force] *)
Definition calculate_wind_force (q_p c_s c_d c_f area : R) : R :=
  q_p * c_s * c_d * c_f * area.

(** *** [assess_adequacy] *)
Definition assess_adequacy {W} (results : results W) (inputs : inputs) : assessment :=
  let wind_force_kN := force_kN results in
  let peak_pressure_Pa := q_p results in
  let sign_area := in_sign_width inputs * in_sign_height inputs in
  let pressure_value := [Num 0 peak_pressure_Pa; Lit " Pa"] in
  let pressure_limit := "1200 Pa (typical ACM panel)" in
  (* Check 1: peak pressure *)
  let '(checks, overall, recs) :=
    if decide (peak_pressure_Pa <= 1200) then
      ([Check "Peak Pressure" "PASS" pressure_value pressure_limit
          "Within typical aluminum composite panel capacity"],
       "PASS", [])
    else if decide (peak_pressure_Pa <= 1500) then
      ([Check "Peak Pressure" "CAUTION" pressure_value pressure_limit
          "Approaching typical panel limits - verify panel specification"],
       "CAUTION",
       ["Verify sign panel material specification can handle this pressure"])
    else
      ([Check "Peak Pressure" "FAIL" pressure_value pressure_limit
          "Exceeds typical aluminum composite panel capacity"],
       "FAIL",
       ["High-specification panels or structural backing required"]) in
  (* Check 2: wind force per square metre *)
  let force_per_sqm := if decide (sign_area > 0) then wind_force_kN / sign_area else 0 in
  let intensity_value := [Num 2 force_per_sqm; Lit " kN/m²"] in
  let intensity_limit := "1.5 kN/m² (typical framework)" in
  let '(checks, overall, recs) :=
    if decide (force_per_sqm <= 1.5) then
      (checks ++ [Check "Wind Force Intensity" "PASS" intensity_value intensity_limit
                    "Within typical sign framework capacity"],
       overall, recs)
    else if decide (force_per_sqm <= 2.0) then
      (checks ++ [Check "Wind Force Intensity" "CAUTION" intensity_value intensity_limit
                    "Requires robust framework design"],
       (if decide (overall = "PASS") then "CAUTION" else overall),
       recs ++ ["Use heavy-duty framework with adequate bracing"])
    else
      (checks ++ [Check "Wind Force Intensity" "FAIL" intensity_value intensity_limit
                    "Exceeds typical framework capacity"],
       "FAIL",
       recs ++ ["Engineered steel framework required"]) in
  (* Check 3: sign size category *)
  let '(size_category, size_message, overall, recs) :=
    if decide (sign_area <= 6) then
      ("Small", "Standard construction methods typically adequate", overall, recs)
    else if decide (sign_area <= 15) then
      ("Medium", "Professional installation recommended", overall, recs)
    else if decide (sign_area <= 30) then
      ("Large", "Engineered framework and certified installation required", overall, recs)
    else
      ("Extra Large", "Full structural engineering design mandatory",
       (if decide (overall ≠ "FAIL") then "CAUTION" else overall),
       recs ++ ["Full structural engineering assessment required for this size"]) in
  let checks :=
    checks ++ [Check "Sign Size Category" "INFO"
                 [Num 1 sign_area; Lit " m² ("; Lit size_category; Lit ")"]
                 "N/A" size_message] in
  (* Check 4: height category *)
  let height := in_building_height inputs in
  let '(height_category, height_message, overall, recs) :=
    if decide (height <= 5) then
      ("Low Level", "Standard fixings typically adequate", overall, recs)
    else if decide (height <= 10) then
      ("Medium Height", "Chemical anchors or through-bolts recommended", overall, recs)
    else if decide (height <= 20) then
      ("High Level", "Engineered fixings and access equipment required", overall, recs)
    else
      ("Very High", "Specialist high-level installation required",
       (if decide (overall ≠ "FAIL") then "CAUTION" else overall),
       recs ++ ["High-level work requires specialist contractors and equipment"]) in
  let checks :=
    checks ++ [Check "Installation Height" "INFO"
                 [Num 1 height; Lit " m ("; Lit height_category; Lit ")"]
                 "N/A" height_message] in
  let summary :=
    if decide (overall = "PASS") then
      "Wind loading is within typical signage construction limits. Standard professional installation should be adequate."
    else if decide (overall = "CAUTION") then
      "Wind loading requires careful attention. Enhanced construction methods and/or professional structural assessment recommended."
    else
      "Wind loading exceeds typical signage construction limits. Full structural engineering design and certification required." in
  let recs :=
    if decide (height > 3 ∨ sign_area > 10) then
      recs ++ ["Building control approval may be required - check with local authority"]
    else recs in
  let recs :=
    recs ++ ["This assessment is indicative only - professional structural verification required for installation"] in
  Assessment checks overall recs summary.

(** *** [calculate_wind_loading] *)
Definition calculate_wind_loading (inputs : inputs) : M (results loc) :=
  new_warnings ;;;
  let sign_width := in_sign_width inputs in
  let sign_height := in_sign_height inputs in
  let sign_depth := in_sign_depth inputs in
  let building_height := in_building_height inputs in
  let altitude := in_site_altitude inputs in
  let distance_to_shore :=
    _parse_distance (default (DNum 100) (in_distance_to_shore inputs)) in
  let terrain_type := default "country" (in_terrain_type inputs) in
  let distance_into_town := default 0 (in_distance_into_town inputs) in
  (* Stage 1 *)
  v_map <-
    (match in_v_map inputs with
     | Some v => if decide (v = 0) then lookup_wind_speed (default "" (in_postcode inputs))
                 else ret v
     | None => lookup_wind_speed (default "" (in_postcode inputs))
     end) ;;
  (* Stage 2 *)
  let c_alt := calculate_altitude_factor altitude building_height in
  (* Stage 3 *)
  let c_season := 1.0 in
  (* Stage 4 *)
  let c_dir := 1.0 in
  warn (text "Non-directional approach used (c_dir = 1.0, conservative)") ;;;
  (* Stage 5 *)
  let h_dis := 0.0 in
  (* Stage 7 *)
  let '(c_e, zone) :=
    calculate_exposure_factor building_height h_dis distance_to_shore terrain_type in
  (* Stage 8-9 *)
  let c_e_T :=
    if decide (terrain_type = "town" ∧ distance_into_town > 0)
    then calculate_town_correction distance_into_town building_height
    else 1.0 in
  (* Stage 11 *)
  let q_p := calculate_peak_velocity_pressure v_map c_alt c_dir c_e c_e_T in
  (* Stage 12-17 *)
  let c_o := 1.0 in
  warn (text "Orography not considered (c_o = 1.0). Site must not be on/near hills, cliffs, or escarpments.") ;;;
  (* Stage 18 *)
  let z_eff := building_height - h_dis in
  let c_s := calculate_size_factor sign_width sign_height z_eff zone in
  (* Stage 19 *)
  c_d <- lift (calculate_dynamic_factor building_height sign_width) ;;
  (* Stage 20 *)
  let A_ref := sign_width * sign_height in
  (* Stage 21 *)
  c_f <- calculate_force_coefficient sign_height sign_depth ;;
  (* Stage 24 *)
  let F_w := calculate_wind_force q_p c_s c_d c_f A_ref in
  let lever_arm := building_height - (sign_height / 2) in
  let moment := F_w * lever_arm / 1000 in
  let design_wind_speed := v_map * c_alt * c_dir in
  ws <- the_warnings ;;
  let results :=
    Results v_map c_alt c_season c_dir h_dis distance_to_shore c_e zone c_e_T
      zone q_p c_o c_s z_eff c_d A_ref c_f F_w (F_w / 1000) moment lever_arm
      design_wind_speed ws STANDARD "SCI Publication P394" VERSION None in
  let assessment := assess_adequacy results inputs in
  ret (Results v_map c_alt c_season c_dir h_dis distance_to_shore c_e zone c_e_T
         zone q_p c_o c_s z_eff c_d A_ref c_f F_w (F_w / 1000) moment lever_arm
         design_wind_speed ws STANDARD "SCI Publication P394" VERSION
         (Some assessment)).

End WindLoadCalculator.

(** * The post-mounted calculator, [PostMountedCalculator]

    The class inherits from [WindLoadCalculator]; [super()] calls run the
    parent's method on the same object, hence on the same [self.warnings]. *)

Module PostMountedCalculator.

Import WindLoadCalculator.

Record inputs := Inputs {
  in_sign_width : R;
  in_sign_height : R;
  in_sign_depth : R;
  in_sign_base_height : R;
  in_site_altitude : R;
  in_v_map : R;
  in_distance_to_shore : dist_value;
  in_terrain_type : string;
  in_distance_into_town : option R;
  in_post_diameter : option R;
  in_post_height : option R;
  in_post_section_type : option string;
  in_post_thickness : option R;
  in_post_steel_grade : option R;
  in_post_material : option string;
  in_embedment_depth : option R;
  in_foundation_type : option string
}.

(** What [calculate_post_stresses] returns. *)
Record post_check := PostCheck {
  I : R;
  W_el : R;
  sigma_Ed : R;
  sigma_Rd : R;
  eta_bending : R;
  tau_Ed : R;
  tau_Rd : R;
  eta_shear : R;
  bending_status : string;
  shear_status : string
}.

(** What [calculate_foundation_requirements] returns. *)
Record foundation_check := FoundationCheck {
  embedment : R;
  required_width : R;
  status : string;
  message_ : string;
  warning : string
}.

(** The result dictionary: the entries of [base_results] after the
    overriding ones have been written over them (['q_p'], ['c_f'],
    ['A_ref'], ['force_N'], ['force_kN'], ['moment_kNm'], ['warnings']),
    and the entries the method adds. *)
Record results (W : Type) := Results {
  base_keys : WindLoadCalculator.results W;
  sign_type : string;
  mounting_type : string;
  c_f_ref : string;
  z_centroid : R;
  F_w_sign : R;
  F_w_post : R;
  M_sign : R;
  M_post : R;
  M_total : R;
  post_check_ : option post_check;
  foundation_check_ : option foundation_check;
  overall_pass : bool;
  overall_status : string
}.
Arguments Results {W}.
Arguments base_keys {W}. Arguments sign_type {W}. Arguments mounting_type {W}.
Arguments c_f_ref {W}. Arguments z_centroid {W}. Arguments F_w_sign {W}.
Arguments F_w_post {W}. Arguments M_sign {W}. Arguments M_post {W}.
Arguments M_total {W}. Arguments post_check_ {W}.
Arguments foundation_check_ {W}. Arguments overall_pass {W}.
Arguments overall_status {W}.

Definition map_warnings {W W'} (f : W → W') (r : results W) : results W' :=
  Results (WindLoadCalculator.map_warnings f (base_keys r))
    (sign_type r) (mounting_type r) (c_f_ref r) (z_centroid r) (F_w_sign r)
    (F_w_post r) (M_sign r) (M_post r) (M_total r) (post_check_ r)
    (foundation_check_ r) (overall_pass r) (overall_status r).

(** *** [calculate_force_coefficient_freestanding] *)
Definition calculate_force_coefficient_freestanding (height depth width : R) : M R :=
  let h_over_d := if decide (depth > 0) then height / depth else 999 in
  if decide (0.25 <= h_over_d <= 1) then
    let c_f := 0.935 + 0.1839 * ln h_over_d in
    ret (c_f * 1.1)
  else if decide (1 < h_over_d <= 5) then
    let c_f := (0.8125 + 0.0375 * h_over_d) * (1.1 + 0.1243 * ln h_over_d) in
    ret (c_f * 1.1)
  else if decide (h_over_d < 0.25) then
    ret (0.68 * 1.1)
  else
    let c_f := 1.0 * 1.1 in
    warn [Lit "h/d = "; Num 2 h_over_d; Lit " > 5. Using conservative c_f."] ;;;
    ret c_f.

(** *** [calculate_post_stresses] *)
Definition calculate_post_stresses
    (M F size_out t f_y : R) (section_type material : string)
    : outcome post_check :=
  let is_solid := bool_decide (material = "timber") in
  outcome_bind
    (if decide (section_type = "square") then
       let b_out := size_out in
       if is_solid then
         Ok (b_out ^ 4 / 12, b_out ^ 3 / 6, b_out ^ 2)
       else
         let b_in := b_out - 2 * t in
         let I := (b_out ^ 4 - b_in ^ 4) / 12 in
         outcome_bind (py_div I (b_out / 2)) (λ W_el,
           Ok (I, W_el, b_out ^ 2 - b_in ^ 2))
     else
       let D_out := size_out in
       if is_solid then
         Ok (PI * D_out ^ 4 / 64, PI * D_out ^ 3 / 32, PI * D_out ^ 2 / 4)
       else
         let D_in := D_out - 2 * t in
         let I := PI * (D_out ^ 4 - D_in ^ 4) / 64 in
         outcome_bind (py_div I (D_out / 2)) (λ W_el,
           Ok (I, W_el, PI * (D_out ^ 2 - D_in ^ 2) / 4)))
    (λ '(I, W_el, A),
       let M_Nmm := M * 1000000 in
       let sigma_Ed := if decide (W_el > 0) then M_Nmm / W_el else 999999 in
       let '(sigma_Rd, tau_Rd) :=
         if decide (material = "steel") then
           let gamma_M0 := 1.0 in
           (f_y / gamma_M0, (f_y / sqrt 3) / gamma_M0)
         else if decide (material = "aluminium") then
           let gamma_M1 := 1.1 in
           (f_y / gamma_M1, (f_y / sqrt 3) / gamma_M1)
         else
           let gamma_M := 1.3 in
           let k_mod := 0.9 in
           let f_v_k := 4.0 in
           ((f_y * k_mod) / gamma_M, (f_v_k * k_mod) / gamma_M) in
       let eta_bending := if decide (sigma_Rd > 0) then sigma_Ed / sigma_Rd else 999 in
       let tau_Ed := if decide (A > 0) then (F * 1000) / A else 999999 in
       let eta_shear := if decide (tau_Rd > 0) then tau_Ed / tau_Rd else 999 in
       Ok (PostCheck I W_el sigma_Ed sigma_Rd eta_bending tau_Ed tau_Rd eta_shear
             (if decide (eta_bending <= 1.0) then "PASS" else "FAIL")
             (if decide (eta_shear <= 1.0) then "PASS" else "FAIL"))).

(** *** [calculate_foundation_requirements] *)
Definition calculate_foundation_requirements
    (M F embedment : R) (foundation_type : string) : foundation_check :=
  let '(required_width, status, message) :=
    if decide (foundation_type = "concrete") then
      let required_width := sqrt (M / 50) in
      if decide (embedment < 1.0) then
        (required_width, "INADEQUATE",
         "Embedment depth too shallow - minimum 1.0m recommended")
      else if decide (embedment < 1.5) then
        (required_width, "MARGINAL",
         "Embedment adequate but consider deeper foundation")
      else
        (required_width, "ADEQUATE", "Embedment depth appears adequate")
    else
      (0, "REQUIRES DESIGN", "Base plate and anchor bolt design required") in
  FoundationCheck embedment required_width status message
    "Foundation design is simplified - detailed design by structural engineer required".

(** *** [calculate_wind_loading] *)
Definition calculate_wind_loading (inputs : inputs) : M (results loc) :=
  new_warnings ;;;
  let b := in_sign_width inputs in
  let h := in_sign_height inputs in
  let d := in_sign_depth inputs in
  let z_base := in_sign_base_height inputs in
  let z_top := z_base + h in
  let z_centroid := z_base + h / 2 in
  let wind_inputs :=
    WindLoadCalculator.Inputs b h d z_centroid (in_site_altitude inputs)
      (Some (in_v_map inputs)) None (Some (in_distance_to_shore inputs))
      (Some (in_terrain_type inputs))
      (Some (default 0 (in_distance_into_town inputs))) in
  base_results <- WindLoadCalculator.calculate_wind_loading wind_inputs ;;
  let q_p := q_p base_results in
  let c_s := c_s base_results in
  let c_d := c_d base_results in
  c_f <- calculate_force_coefficient_freestanding h d b ;;
  let A_ref := b * h in
  let F_w_sign := q_p * c_s * c_d * c_f * A_ref / 1000 in
  let post_size := default 0 (in_post_diameter inputs) / 1000 in
  let post_height := default z_top (in_post_height inputs) in
  let post_section_type := default "circular" (in_post_section_type inputs) in
  F_w_post <-
    (if decide (post_size > 0) then
       let c_f_post := if decide (post_section_type = "square") then 2.0 else 0.7 in
       let A_post := post_size * post_height in
       let z_post_avg := post_height / 2 in
       let wind_inputs_post :=
         WindLoadCalculator.Inputs b h d z_post_avg (in_site_altitude inputs)
           (Some (in_v_map inputs)) None (Some (in_distance_to_shore inputs))
           (Some (in_terrain_type inputs))
           (Some (default 0 (in_distance_into_town inputs))) in
       post_results <- WindLoadCalculator.calculate_wind_loading wind_inputs_post ;;
       let q_p_post := WindLoadCalculator.q_p post_results in
       ret (q_p_post * c_f_post * A_post / 1000)
     else
       warn (text "Post diameter not specified - post wind force neglected") ;;;
       ret 0) ;;
  let F_w_total := F_w_sign + F_w_post in
  let M_sign := F_w_sign * z_centroid in
  let M_post := if decide (F_w_post > 0) then F_w_post * (post_height / 2) else 0 in
  let M_total := M_sign + M_post in
  post_check <-
    lift (match in_post_diameter inputs, in_post_thickness inputs with
          | Some post_diameter, Some post_thickness =>
              outcome_map Some
                (calculate_post_stresses M_total F_w_total post_diameter
                   post_thickness
                   (default 275 (in_post_steel_grade inputs))
                   (default "circular" (in_post_section_type inputs))
                   (default "steel" (in_post_material inputs)))
          | _, _ => Ok None
          end) ;;
  let foundation_check :=
    match in_embedment_depth inputs with
    | Some embedment_depth =>
        Some (calculate_foundation_requirements M_total F_w_total embedment_depth
                (default "concrete" (in_foundation_type inputs)))
    | None => None
    end in
  let checks_pass := true in
  let checks_pass :=
    match post_check with
    | Some pc => checks_pass && bool_decide (bending_status pc = "PASS")
    | None => checks_pass
    end in
  let checks_pass :=
    match foundation_check with
    | Some fc => checks_pass && bool_decide (status fc = "ADEQUATE")
    | None => checks_pass
    end in
  ws <- the_warnings ;;
  ret (Results
         (WindLoadCalculator.Results
            (v_map base_results) (c_alt base_results) (c_season base_results)
            (c_dir base_results) (h_dis base_results)
            (distance_to_shore base_results) (c_e base_results)
            (zone_ base_results) (c_e_T base_results)
            (size_factor_zone base_results)
            q_p (c_o base_results) (WindLoadCalculator.c_s base_results)
            (z_eff base_results) (WindLoadCalculator.c_d base_results)
            A_ref c_f (F_w_total * 1000) F_w_total M_total
            (lever_arm base_results) (design_wind_speed base_results)
            ws (methodology base_results) (reference base_results)
            (version base_results) (assessment_ base_results))
         "post_mounted" "post_mounted" "P394 Table 5.3 (free-standing)"
         z_centroid F_w_sign F_w_post M_sign M_post M_total
         post_check foundation_check checks_pass
         (if checks_pass then "ADEQUATE" else "REQUIRES REVIEW")).

End PostMountedCalculator.

(** * The projecting-sign calculator, [ProjectingSignCalculator] *)

Module ProjectingSignCalculator.

Definition AIR_DENSITY : R := 1.25.
Definition STEEL_E_MODULUS : R := 210000.
Definition GAMMA_G_UNFAV : R := 1.35.
Definition GAMMA_Q : R := 1.5.

Record terrain_params := TerrainParams {
  z_0 : R;
  z_min : R;
  k_r : R;
  description : string
}.

Definition TERRAIN_PARAMS : gmap string terrain_params :=
  list_to_map
    [ ("0", TerrainParams 0.003 1 0.17 "Sea or coastal area");
      ("II", TerrainParams 0.05 2 0.19 "Low vegetation, isolated obstacles");
      ("III", TerrainParams 0.3 5 0.22 "Suburban/industrial");
      ("IV", TerrainParams 1.0 10 0.24 "Urban centres") ].

Record inputs := Inputs {
  in_sign_width : R;
  in_sign_height : R;
  in_projection : R;
  in_mounting_height : R;
  in_terrain_category : string;
  in_v_b_0 : R;
  in_c_dir : option R;
  in_c_season : option R;
  in_sign_weight : R;
  in_n_brackets : Z;
  in_bracket_spacing : R;
  in_n_fixings_per_bracket : Z;
  in_fixing_pitch_vertical : R;
  in_anchor_tension_capacity : R;
  in_anchor_shear_capacity : R;
  in_anchor_gamma_M : R;
  in_bracket_width : R;
  in_bracket_depth : R;
  in_bracket_thickness : R;
  in_bracket_steel_grade : R
}.

Record bracket_forces := BracketForces {
  V_per_bracket : R;
  M_wall : R;
  M_per_bracket : R;
  N_vertical : R;
  N_moment : R;
  N_tension_max : R
}.

Record anchor_check := AnchorCheck {
  N_Ed : R;
  V_Ed : R;
  N_Rd : R;
  V_Rd : R;
  eta_tension : R;
  eta_shear : R;
  eta_combined : R;
  tension_status : string;
  shear_status : string;
  combined_status : string
}.

Record bracket_check := BracketCheck {
  I : R;
  W_el : R;
  M_Ed : R;
  sigma_Ed : R;
  sigma_Rd : R;
  eta_bending : R;
  tau_Ed : R;
  tau_Rd : R;
  bc_eta_shear : R;
  bending_status : string;
  bc_shear_status : string
}.

Record deflection_check := DeflectionCheck {
  delta : R;
  delta_limit : R;
  eta_deflection : R;
  deflection_status : string
}.

(** The result dictionary, without the literal [*_ref] citations. *)
Record results (W : Type) := Results {
  sign_type : string;
  sign_area : R;
  projection : R;
  mounting_height : R;
  terrain : string;
  terrain_description : string;
  v_b : R;
  z_eff : R;
  c_r : R;
  I_v : R;
  v_m : R;
  q_p : R;
  c_f : R;
  F_w_k : R;
  F_w_Ed : R;
  G_Ed : R;
  bracket_forces_ : bracket_forces;
  anchor_check_ : anchor_check;
  bracket_check_ : bracket_check;
  deflection_check_ : deflection_check;
  overall_pass : bool;
  overall_status : string;
  warnings : W;
  methodology : string;
  version : string
}.
Arguments Results {W}.
Arguments sign_type {W}. Arguments sign_area {W}. Arguments projection {W}.
Arguments mounting_height {W}. Arguments terrain {W}.
Arguments terrain_description {W}. Arguments v_b {W}. Arguments z_eff {W}.
Arguments c_r {W}. Arguments I_v {W}. Arguments v_m {W}. Arguments q_p {W}.
Arguments c_f {W}. Arguments F_w_k {W}. Arguments F_w_Ed {W}. Arguments G_Ed {W}.
Arguments bracket_forces_ {W}. Arguments anchor_check_ {W}.
Arguments bracket_check_ {W}. Arguments deflection_check_ {W}.
Arguments overall_pass {W}. Arguments overall_status {W}.
Arguments warnings {W}. Arguments methodology {W}. Arguments version {W}.

Definition map_warnings {W W'} (f : W → W') (r : results W) : results W' :=
  Results (sign_type r) (sign_area r) (projection r) (mounting_height r)
    (terrain r) (terrain_description r) (v_b r) (z_eff r) (c_r r) (I_v r)
    (v_m r) (q_p r) (c_f r) (F_w_k r) (F_w_Ed r) (G_Ed r) (bracket_forces_ r)
    (anchor_check_ r) (bracket_check_ r) (deflection_check_ r)
    (overall_pass r) (overall_status r) (f (warnings r)) (methodology r)
    (version r).

(** *** [calculate_basic_wind_velocity] *)
Definition calculate_basic_wind_velocity (v_b_0 c_dir c_season : R) : R :=
  v_b_0 * c_dir * c_season.

(** *** [calculate_roughness_factor] *)
Definition calculate_roughness_factor (z z_0 k_r : R) : outcome R :=
  outcome_bind (py_div z z_0) (λ q, Ok (k_r * ln q)).

(** *** [calculate_turbulence_intensity], with [k_I] and [c_0] explicit *)
Definition calculate_turbulence_intensity (z z_0 k_I c_0 : R) : outcome R :=
  outcome_bind (py_div z z_0) (λ q, py_div k_I (c_0 * ln q)).

(** *** [calculate_peak_pressure] *)
Definition calculate_peak_pressure (v_m I_v : R) : R :=
  let q_p_Pa := 0.5 * AIR_DENSITY * v_m ^ 2 * (1 + 7 * I_v) in
  q_p_Pa / 1000.

(** *** [calculate_bracket_forces] *)
Definition calculate_bracket_forces
    (F_w_Ed e : R) (n_brackets : Z) (s G_Ed : R) : M bracket_forces :=
  V_per_bracket <- lift (py_div F_w_Ed (IZR n_brackets)) ;;
  let M_wall := F_w_Ed * e in
  let M_per_bracket := V_per_bracket * e in
  N_vertical <- lift (py_div G_Ed (IZR n_brackets)) ;;
  N_moment <-
    (if decide (2 <= n_brackets)%Z then lift (py_div M_wall s)
     else
       warn (text "Single bracket: no moment couple resistance") ;;;
       ret 0) ;;
  let N_tension_max := N_moment + N_vertical in
  ret (BracketForces V_per_bracket M_wall M_per_bracket N_vertical N_moment
         N_tension_max).

(** *** [calculate_anchor_utilization] *)
Definition calculate_anchor_utilization
    (V_per_bracket M_per_bracket N_vertical : R) (n_fix : Z)
    (p_v N_Rk V_Rk gamma_M : R) : outcome anchor_check :=
  outcome_bind (py_div V_per_bracket (IZR n_fix)) (λ V_Ed,
  outcome_bind (py_div M_per_bracket (p_v * (IZR n_fix / 2))) (λ N_moment_part,
  outcome_bind (py_div N_vertical (IZR n_fix)) (λ N_vertical_part,
  let N_Ed := N_moment_part + N_vertical_part in
  outcome_bind (py_div N_Rk gamma_M) (λ N_Rd,
  outcome_bind (py_div V_Rk gamma_M) (λ V_Rd,
  let eta_tension := if decide (N_Rd > 0) then N_Ed / N_Rd else 999 in
  let eta_shear := if decide (V_Rd > 0) then V_Ed / V_Rd else 999 in
  let eta_combined := eta_tension + eta_shear in
  Ok (AnchorCheck N_Ed V_Ed N_Rd V_Rd eta_tension eta_shear eta_combined
        (if decide (eta_tension <= 1.0) then "PASS" else "FAIL")
        (if decide (eta_shear <= 1.0) then "PASS" else "FAIL")
        (if decide (eta_combined <= 1.0) then "PASS" else "FAIL"))))))).

(** *** [calculate_bracket_stresses]; [section] is the dictionary with the
    keys ['b_out'], ['h_out'] and ['t'] *)
Definition calculate_bracket_stresses
    (V_per_bracket L : R) (section : R * R * R) (f_y : R) : outcome bracket_check :=
  let '(b_out, h_out, t) := section in
  let b_in := b_out - 2 * t in
  let h_in := h_out - 2 * t in
  let I := (b_out * h_out ^ 3 - b_in * h_in ^ 3) / 12 in
  outcome_bind (py_div (2 * I) h_out) (λ W_el,
  let M_Ed := V_per_bracket * L * 1000000 in
  let sigma_Ed := if decide (W_el > 0) then M_Ed / W_el else 999999 in
  let gamma_M0 := 1.0 in
  let sigma_Rd := f_y / gamma_M0 in
  let eta_bending := if decide (sigma_Rd > 0) then sigma_Ed / sigma_Rd else 999 in
  let A_v := 2 * h_out * t in
  let V_Ed_N := V_per_bracket * 1000 in
  let tau_Ed := if decide (A_v > 0) then V_Ed_N / A_v else 999999 in
  let tau_Rd := (f_y / sqrt 3) / gamma_M0 in
  let eta_shear := if decide (tau_Rd > 0) then tau_Ed / tau_Rd else 999 in
  Ok (BracketCheck I W_el (M_Ed / 1000000) sigma_Ed sigma_Rd eta_bending
        tau_Ed tau_Rd eta_shear
        (if decide (eta_bending <= 1.0) then "PASS" else "FAIL")
        (if decide (eta_shear <= 1.0) then "PASS" else "FAIL"))).

(** *** [calculate_deflection] *)
Definition calculate_deflection
    (F_w_k : R) (n_brackets : Z) (L E I : R) : outcome deflection_check :=
  outcome_bind (py_div F_w_k (IZR n_brackets)) (λ per_bracket,
  let F_SLS := per_bracket * 1000 in
  let L_mm := L * 1000 in
  let delta := if decide (I > 0) then (F_SLS * L_mm ^ 3) / (3 * E * I) else 999999 in
  let delta_limit := Rmin (L_mm / 150) 20 in
  let eta_deflection := if decide (delta_limit > 0) then delta / delta_limit else 999 in
  Ok (DeflectionCheck delta delta_limit eta_deflection
        (if decide (eta_deflection <= 1.0) then "PASS" else "FAIL"))).

(** *** [calculate_wind_loading] *)
Definition calculate_wind_loading (inputs : inputs) : M (results loc) :=
  new_warnings ;;;
  let b := in_sign_width inputs in
  let h := in_sign_height inputs in
  let e := in_projection inputs in
  let z := in_mounting_height inputs in
  let terrain := in_terrain_category inputs in
  let v_b_0 := in_v_b_0 inputs in
  let c_dir := default 1.0 (in_c_dir inputs) in
  let c_season := default 1.0 (in_c_season inputs) in
  (* Stage 1 *)
  let v_b := calculate_basic_wind_velocity v_b_0 c_dir c_season in
  (* Stage 2 *)
  terrain_params <-
    (match TERRAIN_PARAMS !! terrain with
     | Some p => ret p
     | None => raise (KeyError terrain)
     end) ;;
  let z_0 := z_0 terrain_params in
  let z_min := z_min terrain_params in
  let k_r := k_r terrain_params in
  let z_eff := Rmax z z_min in
  c_r <- lift (calculate_roughness_factor z_eff z_0 k_r) ;;
  I_v <- lift (calculate_turbulence_intensity z_eff z_0 1.0 1.0) ;;
  let v_m := c_r * v_b in
  let q_p := calculate_peak_pressure v_m I_v in
  (* Stage 3 *)
  let A := b * h in
  let c_f := 2.0 in
  let F_w_k := c_f * q_p * A in
  (* Stage 4 *)
  let G_k := in_sign_weight inputs in
  let G_Ed := GAMMA_G_UNFAV * G_k in
  let F_w_Ed := GAMMA_Q * F_w_k in
  (* Stage 5 *)
  let n_brackets := in_n_brackets inputs in
  let s := in_bracket_spacing inputs in
  bracket_forces <- calculate_bracket_forces F_w_Ed e n_brackets s G_Ed ;;
  (* Stage 6 *)
  anchor_check <-
    lift (calculate_anchor_utilization
            (V_per_bracket bracket_forces) (M_per_bracket bracket_forces)
            (N_vertical bracket_forces)
            (in_n_fixings_per_bracket inputs) (in_fixing_pitch_vertical inputs)
            (in_anchor_tension_capacity inputs) (in_anchor_shear_capacity inputs)
            (in_anchor_gamma_M inputs)) ;;
  (* Stage 7 *)
  let section :=
    (in_bracket_width inputs, in_bracket_depth inputs, in_bracket_thickness inputs) in
  bracket_check <-
    lift (calculate_bracket_stresses (V_per_bracket bracket_forces) e section
            (in_bracket_steel_grade inputs)) ;;
  (* Stage 8 *)
  deflection_check <-
    lift (calculate_deflection F_w_k n_brackets e STEEL_E_MODULUS (I bracket_check)) ;;
  let overall_pass :=
    bool_decide (eta_combined anchor_check <= 1.0) &&
    bool_decide (eta_bending bracket_check <= 1.0) &&
    bool_decide (bc_eta_shear bracket_check <= 1.0) &&
    bool_decide (eta_deflection deflection_check <= 1.0) in
  ws <- the_warnings ;;
  ret (Results "projecting" A e z terrain (description terrain_params)
         v_b z_eff c_r I_v v_m q_p c_f F_w_k F_w_Ed G_Ed
         bracket_forces anchor_check bracket_check deflection_check
         overall_pass (if overall_pass then "ADEQUATE" else "INADEQUATE")
         ws "EN 1991-1-4:2005" "1.0.0").

End ProjectingSignCalculator.

(** * Reading results back, and what a call does to the store *)

(** The list behind a reference. *)
Definition deref (c : calculator) (l : loc) : list message :=
  default [] (heap c !! l).

(** Result dictionaries with a ['warnings'] entry. *)
Class Located (T : Type → Type) :=
  relocate : ∀ {A B : Type}, (A → B) → T A → T B.

#[global] Instance wall_located : Located WindLoadCalculator.results :=
  @WindLoadCalculator.map_warnings.
#[global] Instance post_located : Located PostMountedCalculator.results :=
  @PostMountedCalculator.map_warnings.
#[global] Instance projecting_located : Located ProjectingSignCalculator.results :=
  @ProjectingSignCalculator.map_warnings.

(** What the caller sees when it reads the returned dictionary in state
    [c]: the warnings are the contents of the list the entry refers to. *)
Definition observe {T} `{Located T} (c : calculator) (o : outcome (T loc))
    : outcome (T (list message)) :=
  outcome_map (relocate (deref c)) o.

(** [runs m v evs]: from every state, [m] performs the events [evs] on the
    warning lists and its outcome is [v] of the final [self.warnings]. *)
Definition runs {A} (m : M A) (v : loc → outcome A) (evs : list event) : Prop :=
  ∀ c, m c = (v (self_warnings (exec evs c)), exec evs c).

(** The outcome does not depend on the state at all. *)
Definition Pure {A} (m : M A) : Prop :=
  ∃ (a : outcome A) (evs : list event), runs m (λ _, a) evs.

(** The outcome depends on the state only through the reference stored
    under ['warnings'], which is the final [self.warnings]. *)
Definition Det {T} `{Located T} (m : M (T loc)) : Prop :=
  ∃ (core : outcome (T unit)) (evs : list event),
    runs m (λ l, outcome_map (relocate (λ _, l)) core) evs.

(** The same, for a call that starts by rebinding [self.warnings]. *)
Definition DetReset {T} `{Located T} (m : M (T loc)) : Prop :=
  ∃ (core : outcome (T unit)) (evs : list event),
    runs m (λ l, outcome_map (relocate (λ _, l)) core) (Reset :: evs).

(** [m] returns normally from every state, after the events [evs]. *)
Definition normal {A} (m : M A) (evs : list event) : Prop :=
  ∀ c, ∃ a, m c = (Ok a, exec evs c).

(** The contents of [self.warnings] after the events, starting from [acc]. *)
Definition replay (acc : list message) (evs : list event) : list message :=
  fold_left (λ acc ev, match ev with Reset => [] | Append w => acc ++ [w] end)
            evs acc.

(** [self.warnings] refers to a list of the store. *)
Definition bound (c : calculator) : Prop := is_Some (heap c !! self_warnings c).

(** The lists of [h0] are still in the store of [c], unchanged, and
    [self.warnings] is not one of them. *)
Definition apart (h0 : gmap loc (list message)) (c : calculator) : Prop :=
  (self_warnings c ∉ dom h0) ∧ (∀ l, l ∈ dom h0 → heap c !! l = h0 !! l).

(** * Certified enclosures of [exp] and [ln]

    [exp_lower m u v] is a fixed-point lower bound of [exp (u/v)]: it
    squares [1 + u/(v 2^m)] [m] times, rounding down each time. *)

Module Enclosure.

Definition fix_bits : Z := 80.
Definition one_fix : Z := 2 ^ fix_bits.

Definition sq_down (p : Z) : Z := (p * p) / one_fix.

Fixpoint iter_sq (m : nat) (p : Z) : Z :=
  match m with
  | O => p
  | S m' => iter_sq m' (sq_down p)
  end.

Definition exp_seed (m : nat) (u v : Z) : Z :=
  one_fix + (u * one_fix) / (v * 2 ^ Z.of_nat m).

Definition exp_lower (m : nat) (u v : Z) : Z := iter_sq m (exp_seed m u v).

Definition exp_ok (m : nat) (u v : Z) : bool := (0 <? v)%Z && (0 <=? exp_seed m u v)%Z.

(** [ln (c/d) <= u/v] *)
Definition ln_le_cert (m : nat) (c d u v : Z) : bool :=
  (0 <? c)%Z && (0 <? d)%Z && exp_ok m u v && (c * one_fix <=? d * exp_lower m u v)%Z.

(** [u/v <= ln (c/d)] *)
Definition ln_ge_cert (m : nat) (c d u v : Z) : bool :=
  (0 <? c)%Z && (0 <? d)%Z && exp_ok m (- u) v && (d * one_fix <=? c * exp_lower m (- u) v)%Z.

(** [c/d <= exp (u/v)] *)
Definition exp_ge_cert (m : nat) (c d u v : Z) : bool :=
  (0 <? d)%Z && exp_ok m u v && (c * one_fix <=? d * exp_lower m u v)%Z.

(** [exp (u/v) <= c/d] *)
Definition exp_le_cert (m : nat) (c d u v : Z) : bool :=
  (0 <? c)%Z && (0 <? d)%Z && exp_ok m (- u) v && (d * one_fix <=? c * exp_lower m (- u) v)%Z.

End Enclosure.

(** * The inputs of the worked examples *)

(** Sheffield Bioincubator, [test_wind_calculator.py]. *)
Definition sheffield : WindLoadCalculator.inputs :=
  WindLoadCalculator.Inputs 20 27 29 27 105 (Some 22.1) None
    (Some (WindLoadCalculator.DNum 100)) (Some "town") (Some 2).

(** The projecting sign of [test_new_calculators.py] and of the module's
    own [__main__] example (['c_dir'] and ['c_season'] as in the test). *)
Definition projecting_example : ProjectingSignCalculator.inputs :=
  ProjectingSignCalculator.Inputs 2.0 1.5 0.6 4.5 "III" 22.5 None None 0.15
    2 1.2 4 0.15 12.0 8.0 1.5 80 60 5 275.

(** The post-mounted sign of [post_mounted_calculator.py]'s [__main__]
    example and of [test_new_calculators.py]. *)
Definition post_example : PostMountedCalculator.inputs :=
  PostMountedCalculator.Inputs 3.0 2.0 0.3 2.5 50 22.5
    (WindLoadCalculator.DNum 20) "country" None (Some 150) (Some 4.5) None
    (Some 8) (Some 275) None (Some 1.5) (Some "concrete").

(** The pressure the parent pipeline computes for the post-mounted inputs
    when it is run at height [z]: Stage 1 (the wind speed, 22.0 from the
    lookup when ['v_map'] is zero), Stages 2, 7, 8-9 and 11. *)
Definition peak_pressure_at (i : PostMountedCalculator.inputs) (z : R) : R :=
  let v_map :=
    if decide (PostMountedCalculator.in_v_map i = 0) then 22.0
    else PostMountedCalculator.in_v_map i in
  let terrain_type := PostMountedCalculator.in_terrain_type i in
  let distance_into_town := default 0 (PostMountedCalculator.in_distance_into_town i) in
  let c_alt :=
    WindLoadCalculator.calculate_altitude_factor
      (PostMountedCalculator.in_site_altitude i) z in
  let c_e :=
    fst (WindLoadCalculator.calculate_exposure_factor z 0.0
           (WindLoadCalculator._parse_distance
              (PostMountedCalculator.in_distance_to_shore i))
           terrain_type) in
  let c_e_T :=
    if decide (terrain_type = "town" ∧ distance_into_town > 0)
    then WindLoadCalculator.calculate_town_correction distance_into_town z
    else 1.0 in
  WindLoadCalculator.calculate_peak_velocity_pressure v_map c_alt 1.0 c_e c_e_T.

(** The two [h/d > 5] warnings. *)
Definition wall_hd_warning (h_over_d : R) : message :=
  [Lit "h/d = "; Num 2 h_over_d; Lit " > 5. Using c_f for h/d=5 (conservative)."].
Definition freestanding_hd_warning (h_over_d : R) : message :=
  [Lit "h/d = "; Num 2 h_over_d; Lit " > 5. Using conservative c_f."].
Definition nondirectional_warning : message :=
  text "Non-directional approach used (c_dir = 1.0, conservative)".
Definition orography_warning : message :=
  text "Orography not considered (c_o = 1.0). Site must not be on/near hills, cliffs, or escarpments.".

(** A status string agrees with its utilisation ratio. *)
Definition pass_iff (status : string) (eta : R) : Prop :=
  (status = "PASS" ↔ eta <= 1.0) ∧ (status = "FAIL" ↔ ¬ eta <= 1.0).

(** [m] returns normally from every state. *)
Definition returns {A} (m : M A) : Prop :=
  ∀ c, ∃ a c', m c = (Ok a, c').

(** The entries of a dictionary returned by the wall-mounted
    [calculate_wind_loading], stage by stage. *)
Definition wall_stages {W} (i : WindLoadCalculator.inputs)
    (r : WindLoadCalculator.results W) : Prop :=
  let width := WindLoadCalculator.in_sign_width i in
  let height := WindLoadCalculator.in_sign_height i in
  let depth := WindLoadCalculator.in_sign_depth i in
  let building_height := WindLoadCalculator.in_building_height i in
  let shore :=
    WindLoadCalculator._parse_distance
      (default (WindLoadCalculator.DNum 100)
         (WindLoadCalculator.in_distance_to_shore i)) in
  let terrain := default "country" (WindLoadCalculator.in_terrain_type i) in
  let into_town := default 0 (WindLoadCalculator.in_distance_into_town i) in
  let postcode := default "" (WindLoadCalculator.in_postcode i) in
  (match WindLoadCalculator.in_v_map i with
   | Some v =>
       if decide (v = 0)
       then ∀ c, (WindLoadCalculator.lookup_wind_speed postcode c).1
                 = Ok (WindLoadCalculator.v_map r)
       else WindLoadCalculator.v_map r = v
   | None => ∀ c, (WindLoadCalculator.lookup_wind_speed postcode c).1
                  = Ok (WindLoadCalculator.v_map r)
   end) ∧
  WindLoadCalculator.c_alt r
    = WindLoadCalculator.calculate_altitude_factor
        (WindLoadCalculator.in_site_altitude i) building_height ∧
  WindLoadCalculator.c_dir r = 1.0 ∧
  (WindLoadCalculator.c_e r, WindLoadCalculator.zone_ r)
    = WindLoadCalculator.calculate_exposure_factor building_height 0.0 shore terrain ∧
  WindLoadCalculator.c_e_T r
    = (if decide (terrain = "town" ∧ into_town > 0)
       then WindLoadCalculator.calculate_town_correction into_town building_height
       else 1.0) ∧
  WindLoadCalculator.q_p r
    = WindLoadCalculator.calculate_peak_velocity_pressure
        (WindLoadCalculator.v_map r) (WindLoadCalculator.c_alt r)
        (WindLoadCalculator.c_dir r) (WindLoadCalculator.c_e r)
        (WindLoadCalculator.c_e_T r) ∧
  WindLoadCalculator.c_s r
    = WindLoadCalculator.calculate_size_factor width height
        (building_height - 0.0) (WindLoadCalculator.zone_ r) ∧
  WindLoadCalculator.calculate_dynamic_factor building_height width
    = Ok (WindLoadCalculator.c_d r) ∧
  WindLoadCalculator.A_ref r = width * height ∧
  (∀ c, (WindLoadCalculator.calculate_force_coefficient height depth c).1
        = Ok (WindLoadCalculator.c_f r)) ∧
  WindLoadCalculator.force_N r
    = WindLoadCalculator.calculate_wind_force
        (WindLoadCalculator.q_p r) (WindLoadCalculator.c_s r)
        (WindLoadCalculator.c_d r) (WindLoadCalculator.c_f r)
        (WindLoadCalculator.A_ref r) ∧
  WindLoadCalculator.force_kN r = WindLoadCalculator.force_N r / 1000 ∧
  WindLoadCalculator.lever_arm r = building_height - height / 2 ∧
  WindLoadCalculator.moment_kNm r
    = WindLoadCalculator.force_N r * WindLoadCalculator.lever_arm r / 1000.

(** Every exception [m] can raise satisfies [P]. *)
Definition raises_only {A} (P : exn → Prop) (m : M A) : Prop :=
  ∀ c x c', m c = (Raise x, c') → P x.

(** The dictionary [wind_inputs] the post-mounted calculator hands to the
    parent's method, with ['building_height'] set to [z]. *)
Definition post_wind_inputs (i : PostMountedCalculator.inputs) (z : R)
    : WindLoadCalculator.inputs :=
  WindLoadCalculator.Inputs
    (PostMountedCalculator.in_sign_width i) (PostMountedCalculator.in_sign_height i)
    (PostMountedCalculator.in_sign_depth i) z
    (PostMountedCalculator.in_site_altitude i)
    (Some (PostMountedCalculator.in_v_map i)) None
    (Some (PostMountedCalculator.in_distance_to_shore i))
    (Some (PostMountedCalculator.in_terrain_type i))
    (Some (default 0 (PostMountedCalculator.in_distance_into_town i))).

(** What one wall-mounted call does to the warning lists when the wind
    speed is given: the rebinding, the two standing warnings and, for
    [h/d > 5], the clamping warning. *)
Definition wall_events (height depth : R) : list event :=
  [Reset; Append nondirectional_warning; Append orography_warning]
  ++ (if decide (height / depth > 5) then [Append (wall_hd_warning (height / depth))]
      else []).

(** What the post-mounted call on [post_example] does, up to the second
    run of the parent's method and from it on. *)
Definition post_example_events_before : list event :=
  [Reset;
   Reset; Append nondirectional_warning; Append orography_warning;
   Append (wall_hd_warning (2.0 / 0.3));
   Append (freestanding_hd_warning (2.0 / 0.3))].

Definition post_example_events_after : list event :=
  [Reset; Append nondirectional_warning; Append orography_warning;
   Append (wall_hd_warning (2.0 / 0.3))].

Definition post_example_events : list event :=
  post_example_events_before ++ post_example_events_after.

(** How many times the events rebind [self.warnings]. *)
Fixpoint count_resets (evs : list event) : nat :=
  match evs with
  | [] => 0
  | Reset :: evs' => S (count_resets evs')
  | Append _ :: evs' => count_resets evs'
  end.

(** The entries of a dictionary returned by the projecting-sign
    [calculate_wind_loading], stage by stage. *)
Definition projecting_stages {W} (i : ProjectingSignCalculator.inputs)
    (r : ProjectingSignCalculator.results W) : Prop :=
  let e := ProjectingSignCalculator.in_projection i in
  let n_brackets := ProjectingSignCalculator.in_n_brackets i in
  let forces := ProjectingSignCalculator.bracket_forces_ r in
  ∃ tp,
    ProjectingSignCalculator.TERRAIN_PARAMS
      !! ProjectingSignCalculator.in_terrain_category i = Some tp ∧
    ProjectingSignCalculator.v_b r
      = ProjectingSignCalculator.calculate_basic_wind_velocity
          (ProjectingSignCalculator.in_v_b_0 i)
          (default 1.0 (ProjectingSignCalculator.in_c_dir i))
          (default 1.0 (ProjectingSignCalculator.in_c_season i)) ∧
    ProjectingSignCalculator.z_eff r
      = Rmax (ProjectingSignCalculator.in_mounting_height i)
             (ProjectingSignCalculator.z_min tp) ∧
    ProjectingSignCalculator.calculate_roughness_factor
      (ProjectingSignCalculator.z_eff r) (ProjectingSignCalculator.z_0 tp)
      (ProjectingSignCalculator.k_r tp) = Ok (ProjectingSignCalculator.c_r r) ∧
    ProjectingSignCalculator.calculate_turbulence_intensity
      (ProjectingSignCalculator.z_eff r) (ProjectingSignCalculator.z_0 tp) 1.0 1.0
      = Ok (ProjectingSignCalculator.I_v r) ∧
    ProjectingSignCalculator.v_m r
      = ProjectingSignCalculator.c_r r * ProjectingSignCalculator.v_b r ∧
    ProjectingSignCalculator.q_p r
      = ProjectingSignCalculator.calculate_peak_pressure
          (ProjectingSignCalculator.v_m r) (ProjectingSignCalculator.I_v r) ∧
    ProjectingSignCalculator.c_f r = 2.0 ∧
    ProjectingSignCalculator.sign_area r
      = ProjectingSignCalculator.in_sign_width i
        * ProjectingSignCalculator.in_sign_height i ∧
    ProjectingSignCalculator.F_w_k r
      = ProjectingSignCalculator.c_f r * ProjectingSignCalculator.q_p r
        * ProjectingSignCalculator.sign_area r ∧
    ProjectingSignCalculator.G_Ed r
      = ProjectingSignCalculator.GAMMA_G_UNFAV
        * ProjectingSignCalculator.in_sign_weight i ∧
    ProjectingSignCalculator.F_w_Ed r
      = ProjectingSignCalculator.GAMMA_Q * ProjectingSignCalculator.F_w_k r ∧
    (∀ c, (ProjectingSignCalculator.calculate_bracket_forces
             (ProjectingSignCalculator.F_w_Ed r) e n_brackets
             (ProjectingSignCalculator.in_bracket_spacing i)
             (ProjectingSignCalculator.G_Ed r) c).1 = Ok forces) ∧
    ProjectingSignCalculator.calculate_anchor_utilization
      (ProjectingSignCalculator.V_per_bracket forces)
      (ProjectingSignCalculator.M_per_bracket forces)
      (ProjectingSignCalculator.N_vertical forces)
      (ProjectingSignCalculator.in_n_fixings_per_bracket i)
      (ProjectingSignCalculator.in_fixing_pitch_vertical i)
      (ProjectingSignCalculator.in_anchor_tension_capacity i)
      (ProjectingSignCalculator.in_anchor_shear_capacity i)
      (ProjectingSignCalculator.in_anchor_gamma_M i)
      = Ok (ProjectingSignCalculator.anchor_check_ r) ∧
    ProjectingSignCalculator.calculate_bracket_stresses
      (ProjectingSignCalculator.V_per_bracket forces) e
      (ProjectingSignCalculator.in_bracket_width i,
       ProjectingSignCalculator.in_bracket_depth i,
       ProjectingSignCalculator.in_bracket_thickness i)
      (ProjectingSignCalculator.in_bracket_steel_grade i)
      = Ok (ProjectingSignCalculator.bracket_check_ r) ∧
    ProjectingSignCalculator.calculate_deflection
      (ProjectingSignCalculator.F_w_k r) n_brackets e
      ProjectingSignCalculator.STEEL_E_MODULUS
      (ProjectingSignCalculator.I (ProjectingSignCalculator.bracket_check_ r))
      = Ok (ProjectingSignCalculator.deflection_check_ r).

(** [m] only appends to [self.warnings], and its outcome does not depend
    on the state. *)
Definition Appends {A} (m : M A) : Prop :=
  ∃ (a : outcome A) (ws : list message), runs m (λ _, a) (map Append ws).

(** [m] rebinds [self.warnings] once, at its start, then only appends, and
    its dictionary holds the final [self.warnings]. *)
Definition OneReset {T} `{Located T} (m : M (T loc)) : Prop :=
  ∃ (core : outcome (T unit)) (ws : list message),
    runs m (λ l, outcome_map (relocate (λ _, l)) core) (Reset :: map Append ws).

(** * Auxiliary definitions for the properties of the factors and checks *)

(** [rev (lstrip (rev (lstrip l)))], the list under [str_strip]. *)
Definition strip_list (l : list ascii) : list ascii :=
  rev (lstrip (rev (lstrip l))).

(** The status one of the two graded checks of [assess_adequacy] gives a
    value: ["PASS"] up to [pass], ["CAUTION"] up to [caution], ["FAIL"]
    above. *)
Definition graded_status (x pass caution : R) : string :=
  if decide (x <= pass) then "PASS"
  else if decide (x <= caution) then "CAUTION" else "FAIL".

(** [assessment['overall_status']] as [assess_adequacy] accumulates it
    over its four checks. *)
Definition accumulated_status (pressure intensity area height : R) : string :=
  let o1 := graded_status pressure 1200 1500 in
  let o2 := if decide (intensity <= 1.5) then o1
            else if decide (intensity <= 2.0) then
              (if decide (o1 = "PASS") then "CAUTION" else o1)
            else "FAIL" in
  let o3 := if decide (area <= 30) then o2
            else if decide (o2 ≠ "FAIL") then "CAUTION" else o2 in
  if decide (height <= 20) then o3
  else if decide (o3 ≠ "FAIL") then "CAUTION" else o3.

(** What [lookup_wind_speed] appends to the log. *)
Definition lookup_warnings (postcode : string) : list message :=
  if decide (postcode = "") then
    [text "No postcode provided, using default v_map = 22.0 m/s"]
  else
    let area := alpha_prefix2 (str_strip (str_upper postcode)) in
    match WindLoadCalculator.wind_speed_map !! area with
    | None => [text ("Postcode area '" +:+ area +:+
                     "' not in database, using default v_map = 22.0 m/s")]
    | Some _ => []
    end.

(** The warnings of a wall-mounted call that returns, in the order they
    are appended. *)
Definition wall_warnings (i : WindLoadCalculator.inputs) : list message :=
  let height := WindLoadCalculator.in_sign_height i in
  let depth := WindLoadCalculator.in_sign_depth i in
  let postcode := default "" (WindLoadCalculator.in_postcode i) in
  (match WindLoadCalculator.in_v_map i with
   | Some v => if decide (v = 0) then lookup_warnings postcode else []
   | None => lookup_warnings postcode
   end)
  ++ [nondirectional_warning; orography_warning]
  ++ (if decide (height / depth > 5) then [wall_hd_warning (height / depth)] else []).

Definition post_not_specified_warning : message :=
  text "Post diameter not specified - post wind force neglected".

(** [post_example] without the optional post and foundation entries. *)
Definition sign_only_example : PostMountedCalculator.inputs :=
  PostMountedCalculator.Inputs 3.0 2.0 0.3 2.5 50 22.5
    (WindLoadCalculator.DNum 20) "country" None None None None None None None
    None None.

(** [projecting_example] mounted at 8 m. *)
Definition projecting_example_at_8 : ProjectingSignCalculator.inputs :=
  ProjectingSignCalculator.Inputs 2.0 1.5 0.6 8 "III" 22.5 None None 0.15
    2 1.2 4 0.15 12.0 8.0 1.5 80 60 5 275.

(** * The request handler of [api.py], up to the call of the wall-mounted
      calculator

    The JSON body is a record: the five required fields are numbers, the
    optional ones may be missing. *)

Module Api.






End Api.


(** * Facts about the store *)

Lemma exec_app (evs1 evs2 : list event) (c : calculator) :
  exec (evs1 ++ evs2) c = exec evs2 (exec evs1 c).
Proof. unfold exec. apply fold_left_app. Qed.

Lemma exec_cons (ev : event) (evs : list event) (c : calculator) :
  exec (ev :: evs) c = exec evs (step ev c).
Proof. reflexivity. Qed.

Lemma step_bound (ev : event) (c : calculator) :
  (ev = Reset ∨ bound c) → bound (step ev c).
Proof.
  unfold bound. destruct ev as [|w]; simpl; intros H.
  - rewrite lookup_insert_eq. eauto.
  - destruct H as [H|[ws H]]; [discriminate|].
    rewrite lookup_alter_eq, H. simpl. eauto.
Qed.

Lemma step_current (ev : event) (c : calculator) :
  (ev = Reset ∨ bound c) →
  current (step ev c) = replay (current c) [ev].
Proof.
  unfold bound, current. destruct ev as [|w]; simpl; intros H.
  - rewrite lookup_insert_eq. reflexivity.
  - destruct H as [H|[ws H]]; [discriminate|].
    rewrite lookup_alter_eq, H. reflexivity.
Qed.

Lemma exec_bound (evs : list event) : ∀ c, bound c → bound (exec evs c).
Proof.
  induction evs as [|ev evs IH]; intros c Hc; [exact Hc|].
  rewrite exec_cons. apply IH, step_bound. now right.
Qed.

Lemma exec_current (evs : list event) : ∀ c,
  bound c → current (exec evs c) = replay (current c) evs.
Proof.
  induction evs as [|ev evs IH]; intros c Hc; [reflexivity|].
  rewrite exec_cons, IH by (apply step_bound; now right).
  rewrite step_current by now right. reflexivity.
Qed.

(** After a call that starts with [self.warnings = []], the list does not
    depend on the state the call started from. *)
Lemma exec_reset_current (evs : list event) (c : calculator) :
  current (exec (Reset :: evs) c) = replay [] evs.
Proof.
  rewrite exec_cons, exec_current by (apply step_bound; now left).
  rewrite step_current by now left. reflexivity.
Qed.

Lemma exec_reset_bound (evs : list event) (c : calculator) :
  bound (exec (Reset :: evs) c).
Proof. rewrite exec_cons. apply exec_bound, step_bound. now left. Qed.

Lemma step_apart (h0 : gmap loc (list message)) (ev : event) (c : calculator) :
  (apart h0 c ∨ (ev = Reset ∧ h0 = heap c)) → apart h0 (step ev c).
Proof.
  unfold apart. intros H.
  assert (Hsub : ∀ l, l ∈ dom h0 → heap c !! l = h0 !! l).
  { destruct H as [[_ H]|[_ ->]]; auto. }
  assert (Hdom : ∀ l, l ∈ dom h0 → l ∈ dom (heap c)).
  { intros l Hl. apply elem_of_dom. rewrite (Hsub l Hl). now apply elem_of_dom. }
  destruct ev as [|w]; unfold step; cbn [heap self_warnings].
  - pose proof (is_fresh (dom (heap c))) as Hfresh. split.
    + intros Hin. apply Hfresh, Hdom, Hin.
    + intros l Hl. rewrite lookup_insert_ne; [now apply Hsub|].
      intros <-. apply Hfresh, Hdom, Hl.
  - destruct H as [[Hself _]|[Hev _]]; [|discriminate]. split; [exact Hself|].
    intros l Hl. rewrite lookup_alter_ne; [now apply Hsub|].
    intros <-. contradiction.
Qed.

Lemma exec_apart (h0 : gmap loc (list message)) (evs : list event) :
  ∀ c, apart h0 c → apart h0 (exec evs c).
Proof.
  induction evs as [|ev evs IH]; intros c Hc; [exact Hc|].
  rewrite exec_cons. apply IH, step_apart. now left.
Qed.

(** A call that starts with [self.warnings = []] leaves every list that
    was in the store as it was. *)
Lemma exec_reset_frame (evs : list event) (c : calculator) (l : loc) :
  l ∈ dom (heap c) → deref (exec (Reset :: evs) c) l = deref c l.
Proof.
  intros Hl. rewrite exec_cons.
  assert (H : apart (heap c) (exec evs (step Reset c))).
  { apply exec_apart, step_apart. right. split; reflexivity. }
  unfold deref. rewrite (proj2 H l Hl). reflexivity.
Qed.

Lemma bound_dom (c : calculator) : bound c → self_warnings c ∈ dom (heap c).
Proof. intros H. apply elem_of_dom. exact H. Qed.

Lemma deref_self (c : calculator) : deref c (self_warnings c) = current c.
Proof. reflexivity. Qed.

(** * Composing what methods do *)

Lemma runs_ret {A} (a : A) : runs (ret a) (λ _, Ok a) [].
Proof. intros c. reflexivity. Qed.

Lemma runs_raise {A} (x : exn) : runs (@raise A x) (λ _, Raise x) [].
Proof. intros c. reflexivity. Qed.

Lemma runs_lift {A} (o : outcome A) : runs (lift o) (λ _, o) [].
Proof. intros c. reflexivity. Qed.

Lemma runs_warn (w : message) : runs (warn w) (λ _, Ok tt) [Append w].
Proof. intros c. reflexivity. Qed.

Lemma runs_new_warnings : runs new_warnings (λ _, Ok tt) [Reset].
Proof. intros c. reflexivity. Qed.

Lemma runs_the_warnings : runs the_warnings (λ l, Ok l) [].
Proof. intros c. reflexivity. Qed.

Lemma runs_bind {A B} (m : M A) (g : A → M B) v evs1 v' evs2 :
  runs m v evs1 →
  (∀ l, match v l with
        | Ok x => runs (g x) v' evs2
        | Raise x => v' = (λ _, Raise x) ∧ evs2 = []
        end) →
  runs (bind m g) v' (evs1 ++ evs2).
Proof.
  intros Hm Hg c. unfold bind. rewrite (Hm c), exec_app.
  specialize (Hg (self_warnings (exec evs1 c))).
  destruct (v (self_warnings (exec evs1 c))) as [x|x].
  - apply Hg.
  - destruct Hg as [-> ->]. reflexivity.
Qed.

Lemma Pure_ret {A} (a : A) : Pure (ret a).
Proof. eexists _, _. apply runs_ret. Qed.

Lemma Pure_raise {A} (x : exn) : Pure (@raise A x).
Proof. eexists _, _. apply runs_raise. Qed.

Lemma Pure_lift {A} (o : outcome A) : Pure (lift o).
Proof. eexists _, _. apply runs_lift. Qed.

Lemma Pure_warn (w : message) : Pure (warn w).
Proof. eexists _, _. apply runs_warn. Qed.

Lemma Pure_new_warnings : Pure new_warnings.
Proof. eexists _, _. apply runs_new_warnings. Qed.

Lemma Pure_bind {A B} (m : M A) (g : A → M B) :
  Pure m → (∀ x, Pure (g x)) → Pure (bind m g).
Proof.
  intros (a & evs1 & Hm) Hg. destruct a as [x|x].
  - destruct (Hg x) as (b & evs2 & Hgx). exists b, (evs1 ++ evs2).
    eapply runs_bind; [exact Hm|]. intros l; cbv beta. exact Hgx.
  - exists (Raise x), (evs1 ++ []).
    eapply runs_bind; [exact Hm|]. intros l; cbv beta. split; reflexivity.
Qed.

Section Located.
Context {T : Type → Type} `{Located T}.

Lemma Det_bind {A} (m : M A) (g : A → M (T loc)) :
  Pure m → (∀ x, Det (g x)) → Det (bind m g).
Proof.
  intros (a & evs1 & Hm) Hg. destruct a as [x|x].
  - destruct (Hg x) as (core & evs2 & Hgx). exists core, (evs1 ++ evs2).
    eapply runs_bind; [exact Hm|]. intros l; cbv beta. exact Hgx.
  - exists (Raise x), (evs1 ++ []).
    eapply runs_bind; [exact Hm|]. intros l; cbv beta. split; reflexivity.
Qed.

(** The end of every [calculate_wind_loading]: the dictionary is built
    around the current [self.warnings]. *)
Lemma Det_tail (F : loc → T loc) :
  (∀ l, F l = relocate (λ _, l) (relocate (λ _, tt) (F 1%positive))) →
  Det (bind the_warnings (λ l, ret (F l))).
Proof.
  intros HF. exists (Ok (relocate (λ _, tt) (F 1%positive))), [].
  intros c. unfold bind, the_warnings, ret. simpl. rewrite <- HF. reflexivity.
Qed.

Lemma DetReset_new_warnings (m : M (T loc)) :
  Det m → DetReset (bind new_warnings (λ _, m)).
Proof.
  intros (core & evs & Hm). exists core, evs.
  apply (runs_bind _ _ _ [Reset] _ evs runs_new_warnings). intros l; cbv beta. exact Hm.
Qed.

(** A nested call whose dictionary is used for everything but its
    ['warnings'] entry. *)
Lemma Det_bind_Det {T'} `{Located T'} (m : M (T' loc)) (g : T' loc → M (T loc)) :
  Det m →
  (∀ r0 : T' unit, ∃ g', (∀ l, g (relocate (λ _, l) r0) = g') ∧ Det g') →
  Det (bind m g).
Proof.
  intros (core & evs1 & Hm) Hg. destruct core as [r0|x].
  - destruct (Hg r0) as (g' & Heq & core' & evs2 & Hg').
    exists core', (evs1 ++ evs2).
    eapply runs_bind; [exact Hm|]. intros l. simpl. rewrite Heq. exact Hg'.
  - exists (Raise x), (evs1 ++ []).
    eapply runs_bind; [exact Hm|]. intros l. simpl. split; reflexivity.
Qed.

End Located.

Lemma Pure_bind_Det {T} `{Located T} {B} (m : M (T loc)) (g : T loc → M B) :
  Det m →
  (∀ r0 : T unit, ∃ g', (∀ l, g (relocate (λ _, l) r0) = g') ∧ Pure g') →
  Pure (bind m g).
Proof.
  intros (core & evs1 & Hm) Hg. destruct core as [r0|x].
  - destruct (Hg r0) as (g' & Heq & b & evs2 & Hg').
    exists b, (evs1 ++ evs2).
    eapply runs_bind; [exact Hm|]. intros l. simpl. rewrite Heq. exact Hg'.
  - exists (Raise x), (evs1 ++ []).
    eapply runs_bind; [exact Hm|]. intros l. simpl. split; reflexivity.
Qed.

Lemma DetReset_Det {T} `{Located T} (m : M (T loc)) : DetReset m → Det m.
Proof. intros (core & evs & Hm). exists core, (Reset :: evs). exact Hm. Qed.

(** One step of a proof that a method is [Pure] or [Det]; the methods
    already dealt with are in the hint database [methods]. *)
Create HintDb methods.

Ltac method_step :=
  lazymatch goal with
  | |- Pure (ret _) => apply Pure_ret
  | |- Pure (raise _) => apply Pure_raise
  | |- Pure (lift _) => apply Pure_lift
  | |- Pure (warn _) => apply Pure_warn
  | |- Pure new_warnings => apply Pure_new_warnings
  | |- Pure (bind _ _) => apply Pure_bind; [|intros ?]
  | |- Det (bind the_warnings _) => apply Det_tail; intros ?; reflexivity
  | |- Det (bind _ _) => apply Det_bind; [|intros ?]
  | |- ?P (if ?b then _ else _) => destruct b
  | |- ?P (match ?x with _ => _ end) => destruct x
  | |- Pure _ => solve [auto with methods]
  end; cbv beta zeta.

Ltac method_steps := cbv beta zeta; repeat method_step.

(** * The calculators do not read the store *)

Lemma lookup_wind_speed_Pure (postcode : string) :
  Pure (WindLoadCalculator.lookup_wind_speed postcode).
Proof. unfold WindLoadCalculator.lookup_wind_speed. method_steps. Qed.

Lemma calculate_force_coefficient_Pure (height depth : R) :
  Pure (WindLoadCalculator.calculate_force_coefficient height depth).
Proof. unfold WindLoadCalculator.calculate_force_coefficient. method_steps. Qed.

#[global] Hint Resolve lookup_wind_speed_Pure calculate_force_coefficient_Pure : methods.

Lemma wall_Det (i : WindLoadCalculator.inputs) :
  DetReset (WindLoadCalculator.calculate_wind_loading i).
Proof.
  unfold WindLoadCalculator.calculate_wind_loading.
  apply DetReset_new_warnings. method_steps.
Qed.

Lemma calculate_bracket_forces_Pure (F_w_Ed e : R) (n : Z) (s G_Ed : R) :
  Pure (ProjectingSignCalculator.calculate_bracket_forces F_w_Ed e n s G_Ed).
Proof. unfold ProjectingSignCalculator.calculate_bracket_forces. method_steps. Qed.

Lemma calculate_force_coefficient_freestanding_Pure (height depth width : R) :
  Pure (PostMountedCalculator.calculate_force_coefficient_freestanding height depth width).
Proof.
  unfold PostMountedCalculator.calculate_force_coefficient_freestanding. method_steps.
Qed.

#[global] Hint Resolve calculate_bracket_forces_Pure
  calculate_force_coefficient_freestanding_Pure : methods.

Lemma projecting_Det (i : ProjectingSignCalculator.inputs) :
  DetReset (ProjectingSignCalculator.calculate_wind_loading i).
Proof.
  unfold ProjectingSignCalculator.calculate_wind_loading.
  apply DetReset_new_warnings. method_steps.
Qed.

(** Reading an entry other than ['warnings'] of a relocated dictionary. *)
Ltac forget_reference :=
  unfold relocate, wall_located, WindLoadCalculator.map_warnings;
  cbn [WindLoadCalculator.v_map WindLoadCalculator.c_alt
       WindLoadCalculator.c_season WindLoadCalculator.c_dir
       WindLoadCalculator.h_dis WindLoadCalculator.distance_to_shore
       WindLoadCalculator.c_e WindLoadCalculator.zone_
       WindLoadCalculator.c_e_T WindLoadCalculator.size_factor_zone
       WindLoadCalculator.q_p WindLoadCalculator.c_o WindLoadCalculator.c_s
       WindLoadCalculator.z_eff WindLoadCalculator.c_d
       WindLoadCalculator.A_ref WindLoadCalculator.c_f
       WindLoadCalculator.force_N WindLoadCalculator.force_kN
       WindLoadCalculator.moment_kNm WindLoadCalculator.lever_arm
       WindLoadCalculator.design_wind_speed WindLoadCalculator.methodology
       WindLoadCalculator.reference WindLoadCalculator.version
       WindLoadCalculator.assessment_].

Lemma post_Det (i : PostMountedCalculator.inputs) :
  DetReset (PostMountedCalculator.calculate_wind_loading i).
Proof.
  unfold PostMountedCalculator.calculate_wind_loading.
  apply DetReset_new_warnings. cbv beta zeta.
  apply Det_bind_Det; [apply DetReset_Det, wall_Det|].
  intros r0. eexists. split.
  { intros l. forget_reference. reflexivity. }
  apply Det_bind; [auto with methods|]. intros c_f.
  apply Det_bind.
  { destruct (decide _).
    - apply Pure_bind_Det; [apply DetReset_Det, wall_Det|].
      intros r1. eexists. split.
      + intros l. forget_reference. reflexivity.
      + apply Pure_ret.
    - method_steps. }
  intros F_w_post. method_steps.
Qed.

(** * Calling twice *)

Lemma outcome_map_map {A B C} (f : B → C) (g : A → B) (o : outcome A) :
  outcome_map f (outcome_map g o) = outcome_map (λ a, f (g a)) o.
Proof. destruct o; reflexivity. Qed.

Lemma outcome_map_ext {A B} (f g : A → B) (o : outcome A) :
  (∀ a, f a = g a) → outcome_map f o = outcome_map g o.
Proof. intros Hfg. destruct o; simpl; [rewrite Hfg|]; reflexivity. Qed.

Section Repeat.
Context {T : Type → Type} `{Located T}.
Hypothesis relocate_relocate :
  ∀ (A B C : Type) (f : B → C) (g : A → B) (x : T A),
    relocate f (relocate g x) = relocate (λ a, f (g a)) x.

(** What is read from the dictionary of a call that started with
    [self.warnings = []], as long as the store has only been changed by
    such calls since. *)
Lemma observe_DetReset (core : outcome (T unit)) (evs : list event) (c c' : calculator) :
  deref c' (self_warnings (exec (Reset :: evs) c)) = replay [] evs →
  observe c' (outcome_map (relocate (λ _, self_warnings (exec (Reset :: evs) c))) core)
  = outcome_map (relocate (λ _, replay [] evs)) core.
Proof.
  intros Hd. unfold observe. rewrite outcome_map_map.
  apply outcome_map_ext. intros a. rewrite relocate_relocate, Hd. reflexivity.
Qed.

Lemma DetReset_repeat (m : M (T loc)) :
  DetReset m →
  ∀ c, let '(r1, c1) := m c in
       let '(r2, c2) := m c1 in
       observe c1 r1 = observe c2 r2 ∧ observe c2 r1 = observe c1 r1.
Proof.
  intros (core & evs & Hm) c.
  rewrite (Hm c). rewrite (Hm (exec (Reset :: evs) c)).
  pose (c1 := exec (Reset :: evs) c). pose (c2 := exec (Reset :: evs) c1).
  assert (H1 : deref c1 (self_warnings c1) = replay [] evs).
  { rewrite deref_self. apply exec_reset_current. }
  assert (H2 : deref c2 (self_warnings c2) = replay [] evs).
  { rewrite deref_self. apply exec_reset_current. }
  assert (H3 : deref c2 (self_warnings c1) = replay [] evs).
  { unfold c2. rewrite exec_reset_frame; [exact H1|].
    apply bound_dom, exec_reset_bound. }
  unfold c2, c1 in H1, H2, H3. clear c1 c2.
  rewrite (observe_DetReset core evs _ _ H1).
  rewrite (observe_DetReset core evs _ _ H2).
  rewrite (observe_DetReset core evs _ _ H3).
  split; reflexivity.
Qed.

End Repeat.

(** C9.  On each of the three calculators, calling [calculate_wind_loading]
    twice in a row on the same object with the same input gives the same
    output, exception or dictionary, warnings included: what the caller
    reads from the first result after the first call ([observe c1 r1]) is
    what it reads from the second result after the second call
    ([observe c2 r2]), and the second call does not change what is read
    from the first result.  This holds from every state [c] the object may
    be in, so also after any number of earlier calls. *)
Theorem repeated_call_same_output :
  (∀ (i : WindLoadCalculator.inputs) (c : calculator),
     let '(r1, c1) := WindLoadCalculator.calculate_wind_loading i c in
     let '(r2, c2) := WindLoadCalculator.calculate_wind_loading i c1 in
     observe c1 r1 = observe c2 r2 ∧ observe c2 r1 = observe c1 r1) ∧
  (∀ (i : PostMountedCalculator.inputs) (c : calculator),
     let '(r1, c1) := PostMountedCalculator.calculate_wind_loading i c in
     let '(r2, c2) := PostMountedCalculator.calculate_wind_loading i c1 in
     observe c1 r1 = observe c2 r2 ∧ observe c2 r1 = observe c1 r1) ∧
  (∀ (i : ProjectingSignCalculator.inputs) (c : calculator),
     let '(r1, c1) := ProjectingSignCalculator.calculate_wind_loading i c in
     let '(r2, c2) := ProjectingSignCalculator.calculate_wind_loading i c1 in
     observe c1 r1 = observe c2 r2 ∧ observe c2 r1 = observe c1 r1).
Proof.
  split; [|split]; intros i c.
  - apply DetReset_repeat; [reflexivity | apply wall_Det].
  - apply DetReset_repeat; [reflexivity | apply post_Det].
  - apply DetReset_repeat; [reflexivity | apply projecting_Det].
Qed.

(** * The enclosures are sound *)

Module EnclosureFacts.
Import Enclosure.

Lemma one_fix_pos : (0 < one_fix)%Z.
Proof. reflexivity. Qed.

Lemma IZR_one_fix_pos : 0 < IZR one_fix.
Proof. apply IZR_lt, one_fix_pos. Qed.

Lemma IZR_div_floor (a b : Z) : (0 < b)%Z → IZR (a / b) <= IZR a / IZR b.
Proof.
  intros Hb.
  assert (Hb' : 0 < IZR b) by now apply IZR_lt.
  apply Rmult_le_reg_r with (IZR b); [assumption|].
  unfold Rdiv. rewrite Rmult_assoc, Rinv_l, Rmult_1_r by lra.
  rewrite <- mult_IZR. apply IZR_le.
  rewrite Z.mul_comm. apply Z.mul_div_le. assumption.
Qed.

Lemma sq_down_sound (p : Z) :
  (0 <= p)%Z →
  (0 <= sq_down p)%Z ∧ IZR (sq_down p) / IZR one_fix <= (IZR p / IZR one_fix) ^ 2.
Proof.
  intros Hp. pose proof IZR_one_fix_pos as HK. split.
  - apply Z.div_pos; [nia | apply one_fix_pos].
  - pose proof (IZR_div_floor (p * p) one_fix one_fix_pos) as Hfl.
    fold (sq_down p) in Hfl. rewrite mult_IZR in Hfl.
    apply Rle_trans with (IZR p * IZR p / IZR one_fix / IZR one_fix).
    + apply Rmult_le_compat_r; [left; now apply Rinv_0_lt_compat | exact Hfl].
    + right. field. lra.
Qed.

Lemma iter_sq_sound (m : nat) : ∀ p : Z,
  (0 <= p)%Z →
  (0 <= iter_sq m p)%Z ∧
  IZR (iter_sq m p) / IZR one_fix <= (IZR p / IZR one_fix) ^ (2 ^ m).
Proof.
  pose proof IZR_one_fix_pos as HK.
  induction m as [|m IH]; intros p Hp; simpl.
  - split; [assumption | lra].
  - destruct (sq_down_sound p Hp) as [H0 H1].
    destruct (IH (sq_down p) H0) as [H2 H3]. split; [assumption|].
    eapply Rle_trans; [exact H3|].
    replace (2 ^ m + (2 ^ m + 0))%nat with (2 * 2 ^ m)%nat by lia.
    rewrite pow_mult. apply pow_incr. split; [|exact H1].
    apply Rmult_le_pos; [now apply IZR_le | left; now apply Rinv_0_lt_compat].
Qed.

Lemma exp_pow_nat (y : R) (n : nat) : exp y ^ n = exp (INR n * y).
Proof.
  induction n as [|n IH].
  - simpl. rewrite Rmult_0_l, exp_0. reflexivity.
  - rewrite S_INR. simpl. rewrite IH, <- exp_plus. f_equal. ring.
Qed.

Lemma exp_lower_sound (m : nat) (u v : Z) :
  exp_ok m u v = true → IZR (exp_lower m u v) / IZR one_fix <= exp (IZR u / IZR v).
Proof.
  unfold exp_ok. rewrite andb_true_iff, Z.ltb_lt, Z.leb_le. intros [Hv Hseed].
  pose proof IZR_one_fix_pos as HK.
  assert (Hv' : 0 < IZR v) by now apply IZR_lt.
  set (n := (2 ^ m)%nat).
  assert (Hn : IZR (2 ^ Z.of_nat m) = INR n).
  { unfold n. rewrite pow_INR. rewrite <- pow_IZR. reflexivity. }
  assert (Hn' : 0 < INR n).
  { unfold n. rewrite pow_INR. apply pow_lt. simpl. lra. }
  set (y := IZR u / (IZR v * INR n)).
  destruct (iter_sq_sound m (exp_seed m u v) Hseed) as [_ Hit].
  fold (exp_lower m u v) in Hit. fold n in Hit.
  eapply Rle_trans; [exact Hit|].
  replace (IZR u / IZR v) with (INR n * y) by (unfold y; field; lra).
  rewrite <- exp_pow_nat. apply pow_incr. split.
  - apply Rmult_le_pos; [now apply IZR_le | left; now apply Rinv_0_lt_compat].
  - apply Rle_trans with (1 + y); [|apply exp_ineq1_le].
    unfold exp_seed. rewrite plus_IZR.
    assert (Hd : (0 < v * 2 ^ Z.of_nat m)%Z) by (apply Z.mul_pos_pos; [lia | apply Z.pow_pos_nonneg; lia]).
    pose proof (IZR_div_floor (u * one_fix) _ Hd) as Hfl.
    rewrite !mult_IZR, Hn in Hfl.
    unfold Rdiv at 1. rewrite Rmult_plus_distr_r, Rinv_r by lra.
    apply Rplus_le_compat_l.
    apply Rmult_le_reg_r with (IZR one_fix); [assumption|].
    rewrite Rmult_assoc, Rinv_l, Rmult_1_r by lra.
    eapply Rle_trans; [exact Hfl|]. right. unfold y. field. lra.
Qed.

Lemma ln_le_sound (m : nat) (c d u v : Z) :
  ln_le_cert m c d u v = true → ln (IZR c / IZR d) <= IZR u / IZR v.
Proof.
  unfold ln_le_cert. rewrite !andb_true_iff, !Z.ltb_lt, Z.leb_le.
  intros [[[Hc Hd] Hok] Hle].
  pose proof IZR_one_fix_pos as HK.
  apply IZR_lt in Hc, Hd. apply IZR_le in Hle. rewrite !mult_IZR in Hle.
  pose proof (exp_lower_sound m u v Hok) as Hexp.
  assert (Hx : 0 < IZR c / IZR d) by (apply Rdiv_lt_0_compat; assumption).
  rewrite <- (ln_exp (IZR u / IZR v)).
  destruct (Rle_lt_or_eq_dec (IZR c / IZR d) (exp (IZR u / IZR v))) as [Hlt|Heq].
  - eapply Rle_trans; [|exact Hexp].
    apply Rmult_le_reg_r with (IZR d); [assumption|].
    apply Rmult_le_reg_r with (IZR one_fix); [assumption|].
    replace (IZR c / IZR d * IZR d * IZR one_fix) with (IZR c * IZR one_fix) by (field; lra).
    replace (IZR (exp_lower m u v) / IZR one_fix * IZR d * IZR one_fix)
      with (IZR d * IZR (exp_lower m u v)) by (field; lra).
    exact Hle.
  - left. apply ln_increasing; assumption.
  - rewrite Heq. right. reflexivity.
Qed.

Lemma ln_ge_sound (m : nat) (c d u v : Z) :
  ln_ge_cert m c d u v = true → IZR u / IZR v <= ln (IZR c / IZR d).
Proof.
  unfold ln_ge_cert. intros H.
  assert (H' : ln_le_cert m d c (- u) v = true).
  { unfold ln_le_cert. rewrite !andb_true_iff in *. tauto. }
  apply ln_le_sound in H'.
  rewrite !andb_true_iff, !Z.ltb_lt in H. destruct H as [[[Hc Hd] _] _].
  apply IZR_lt in Hc, Hd.
  replace (IZR d / IZR c) with (/ (IZR c / IZR d)) in H' by (field; lra).
  rewrite ln_Rinv in H' by (apply Rdiv_lt_0_compat; assumption).
  rewrite opp_IZR in H'. unfold Rdiv in *. lra.
Qed.

Lemma exp_ge_sound (m : nat) (c d u v : Z) :
  exp_ge_cert m c d u v = true → IZR c / IZR d <= exp (IZR u / IZR v).
Proof.
  unfold exp_ge_cert. rewrite !andb_true_iff, !Z.ltb_lt, Z.leb_le.
  intros [[Hd Hok] Hle].
  pose proof IZR_one_fix_pos as HK.
  apply IZR_lt in Hd. apply IZR_le in Hle. rewrite !mult_IZR in Hle.
  eapply Rle_trans; [|exact (exp_lower_sound m u v Hok)].
  apply Rmult_le_reg_r with (IZR d); [assumption|].
  apply Rmult_le_reg_r with (IZR one_fix); [assumption|].
  replace (IZR c / IZR d * IZR d * IZR one_fix) with (IZR c * IZR one_fix) by (field; lra).
  replace (IZR (exp_lower m u v) / IZR one_fix * IZR d * IZR one_fix)
    with (IZR d * IZR (exp_lower m u v)) by (field; lra).
  exact Hle.
Qed.

Lemma exp_le_sound (m : nat) (c d u v : Z) :
  exp_le_cert m c d u v = true → exp (IZR u / IZR v) <= IZR c / IZR d.
Proof.
  unfold exp_le_cert. rewrite !andb_true_iff, !Z.ltb_lt, Z.leb_le.
  intros [[[Hc Hd] Hok] Hle].
  assert (H' : exp_ge_cert m d c (- u) v = true).
  { unfold exp_ge_cert. rewrite !andb_true_iff, !Z.ltb_lt, Z.leb_le. tauto. }
  apply exp_ge_sound in H'.
  assert (Hv : 0 < IZR v).
  { unfold exp_ok in Hok. rewrite andb_true_iff, Z.ltb_lt in Hok.
    apply IZR_lt. tauto. }
  apply IZR_lt in Hc, Hd.
  rewrite opp_IZR in H'.
  replace (- IZR u / IZR v) with (- (IZR u / IZR v)) in H' by (field; lra).
  rewrite exp_Ropp in H'.
  pose proof (exp_pos (IZR u / IZR v)) as Hp.
  apply Rmult_le_reg_r with (/ exp (IZR u / IZR v)); [now apply Rinv_0_lt_compat|].
  rewrite Rinv_r by lra.
  apply Rmult_le_reg_r with (IZR d / IZR c); [apply Rdiv_lt_0_compat; assumption|].
  replace (IZR c / IZR d * / exp (IZR u / IZR v) * (IZR d / IZR c))
    with (/ exp (IZR u / IZR v)) by (field; lra).
  lra.
Qed.

End EnclosureFacts.

(** * Reading a run of the wall-mounted calculator *)

Lemma bind_Ok {A B} (m : M A) (g : A → M B) c b c' :
  bind m g c = (Ok b, c') → ∃ a c1, m c = (Ok a, c1) ∧ g a c1 = (Ok b, c').
Proof.
  unfold bind. destruct (m c) as [[a|x] c1]; intros Heq.
  - eauto.
  - discriminate.
Qed.

Lemma Pure_value {A} (m : M A) c a c' :
  Pure m → m c = (Ok a, c') → ∀ c0, (m c0).1 = Ok a.
Proof.
  intros (o & evs & Hm) Hrun c0. rewrite (Hm c) in Hrun.
  rewrite (Hm c0). simpl. congruence.
Qed.

Lemma wall_run_stages (i : WindLoadCalculator.inputs) c r c' :
  WindLoadCalculator.calculate_wind_loading i c = (Ok r, c') → wall_stages i r.
Proof.
  unfold WindLoadCalculator.calculate_wind_loading. intros Hrun.
  apply bind_Ok in Hrun as (_ & c0 & _ & Hrun). cbv beta zeta in Hrun.
  apply bind_Ok in Hrun as (v_map & c1 & Hv & Hrun). cbv beta zeta in Hrun.
  apply bind_Ok in Hrun as (_ & c2 & _ & Hrun).
  destruct (WindLoadCalculator.calculate_exposure_factor _ _ _ _)
    as [c_e zone] eqn:Hce.
  apply bind_Ok in Hrun as (_ & c3 & _ & Hrun).
  apply bind_Ok in Hrun as (c_d & c4 & Hcd & Hrun). cbv beta zeta in Hrun.
  apply bind_Ok in Hrun as (c_f & c5 & Hcf & Hrun). cbv beta zeta in Hrun.
  apply bind_Ok in Hrun as (ws & c6 & _ & Hrun).
  unfold ret in Hrun. injection Hrun as <- _.
  unfold lift in Hcd. injection Hcd as Hcd _.
  unfold wall_stages. cbn [WindLoadCalculator.v_map WindLoadCalculator.c_alt
    WindLoadCalculator.c_dir WindLoadCalculator.c_e WindLoadCalculator.zone_
    WindLoadCalculator.c_e_T WindLoadCalculator.q_p WindLoadCalculator.c_s
    WindLoadCalculator.c_d WindLoadCalculator.A_ref WindLoadCalculator.c_f
    WindLoadCalculator.force_N WindLoadCalculator.force_kN
    WindLoadCalculator.lever_arm WindLoadCalculator.moment_kNm].
  repeat split; try reflexivity; try assumption.
  - destruct (WindLoadCalculator.in_v_map i) as [v|].
    + destruct (decide (v = 0)).
      * eapply Pure_value; [apply lookup_wind_speed_Pure | exact Hv].
      * unfold ret in Hv. congruence.
    + eapply Pure_value; [apply lookup_wind_speed_Pure | exact Hv].
  - symmetry. exact Hce.
  - eapply Pure_value; [apply calculate_force_coefficient_Pure | exact Hcf].
Qed.

(** * When the wall-mounted calculator returns *)

Lemma returns_ret {A} (a : A) : returns (ret a).
Proof. intros c. eexists _, _. reflexivity. Qed.

Lemma returns_warn (w : message) : returns (warn w).
Proof. intros c. eexists _, _. reflexivity. Qed.

Lemma returns_new_warnings : returns new_warnings.
Proof. intros c. eexists _, _. reflexivity. Qed.

Lemma returns_the_warnings : returns the_warnings.
Proof. intros c. eexists _, _. reflexivity. Qed.

Lemma returns_lift {A} (a : A) : returns (lift (Ok a)).
Proof. intros c. eexists _, _. reflexivity. Qed.

Lemma returns_bind {A B} (m : M A) (g : A → M B) :
  returns m → (∀ a, returns (g a)) → returns (bind m g).
Proof.
  intros Hm Hg c. destruct (Hm c) as (a & c1 & Ha).
  destruct (Hg a c1) as (b & c2 & Hb).
  exists b, c2. unfold bind. rewrite Ha. exact Hb.
Qed.

Ltac returns_step :=
  lazymatch goal with
  | |- returns (ret _) => apply returns_ret
  | |- returns (warn _) => apply returns_warn
  | |- returns new_warnings => apply returns_new_warnings
  | |- returns the_warnings => apply returns_the_warnings
  | |- returns (lift (Ok _)) => apply returns_lift
  | |- returns (bind _ _) => apply returns_bind; [|intros ?]
  | |- returns (if ?b then _ else _) => destruct b
  | |- returns (match ?x with _ => _ end) => destruct x
  | |- returns _ => solve [auto with methods]
  end; cbv beta zeta.

Lemma lookup_wind_speed_returns (postcode : string) :
  returns (WindLoadCalculator.lookup_wind_speed postcode).
Proof. unfold WindLoadCalculator.lookup_wind_speed. repeat returns_step. Qed.

Lemma py_div_Ok (x y : R) : y ≠ 0 → py_div x y = Ok (x / y).
Proof. intros Hy. unfold py_div. destruct (decide (y = 0)); [contradiction|reflexivity]. Qed.

Lemma py_div_zero (x : R) : py_div x 0 = Raise ZeroDivisionError.
Proof. unfold py_div. destruct (decide (0 = 0)); [reflexivity|contradiction]. Qed.

Lemma calculate_force_coefficient_returns (height depth : R) :
  depth ≠ 0 → returns (WindLoadCalculator.calculate_force_coefficient height depth).
Proof.
  intros Hd. unfold WindLoadCalculator.calculate_force_coefficient.
  rewrite py_div_Ok by assumption. repeat returns_step.
Qed.

Lemma calculate_dynamic_factor_Ok (height width : R) :
  height <= 15 ∨ width ≠ 0 →
  ∃ c_d, WindLoadCalculator.calculate_dynamic_factor height width = Ok c_d.
Proof.
  intros H. unfold WindLoadCalculator.calculate_dynamic_factor.
  destruct (decide (height <= 15)); [eauto|].
  destruct H as [H|H]; [contradiction|].
  rewrite py_div_Ok by assumption. simpl.
  repeat (destruct (decide _); [eauto|]). eauto.
Qed.

#[global] Hint Resolve lookup_wind_speed_returns : methods.

Lemma wall_returns (i : WindLoadCalculator.inputs) :
  WindLoadCalculator.in_sign_depth i ≠ 0 →
  (WindLoadCalculator.in_building_height i <= 15
   ∨ WindLoadCalculator.in_sign_width i ≠ 0) →
  returns (WindLoadCalculator.calculate_wind_loading i).
Proof.
  intros Hd Hw. unfold WindLoadCalculator.calculate_wind_loading.
  destruct (calculate_dynamic_factor_Ok _ _ Hw) as (c_d & ->).
  pose proof (calculate_force_coefficient_returns
                (WindLoadCalculator.in_sign_height i) _ Hd) as Hcf.
  cbv beta zeta. repeat returns_step.
Qed.

(** * Signs of the factors *)

Lemma ln_nonneg (x : R) : 1 <= x → 0 <= ln x.
Proof.
  intros [Hx| <-]; [|rewrite ln_1; lra].
  left. rewrite <- ln_1. apply ln_increasing; lra.
Qed.

Lemma ln_pos (x : R) : 1 < x → 0 < ln x.
Proof. intros Hx. rewrite <- ln_1. apply ln_increasing; lra. Qed.

Lemma ln_mono (x y : R) : 0 < x → x <= y → ln x <= ln y.
Proof.
  intros Hx [Hxy| <-]; [|lra]. left. now apply ln_increasing.
Qed.

(** [ln x <= x - 1] *)
Lemma ln_le_minus_1 (x : R) : 0 < x → ln x <= x - 1.
Proof.
  intros Hx. pose proof (exp_ineq1_le (ln x)) as H.
  rewrite exp_ln in H by assumption. lra.
Qed.

Lemma calculate_exposure_factor_pos (height displacement shore : R) (terrain : string) :
  0 < (WindLoadCalculator.calculate_exposure_factor height displacement shore terrain).1.
Proof.
  unfold WindLoadCalculator.calculate_exposure_factor. cbv zeta.
  set (z_eff := Rmax (height - displacement) 2.0).
  assert (HL : ¬ z_eff <= 10 → 0 <= ln (z_eff / 10)).
  { intros Hz. apply ln_nonneg. lra. }
  destruct (decide (terrain = "sea" ∨ shore <= 0.1)) as [Hsea|Hsea]; simpl.
  - destruct (decide (z_eff <= 10)) as [Hz|Hz]; [lra|]. specialize (HL Hz). lra.
  - destruct (decide (terrain = "town")); simpl.
    + destruct (decide (z_eff <= 10)) as [Hz|Hz]; [lra|]. specialize (HL Hz). lra.
    + assert (Hshore : 0.1 < shore) by (apply Rnot_le_lt; tauto).
      destruct (decide (shore < 100)) as [Hs|Hs].
      * assert (Hf : 0 <= Rmin (shore / 100) 1.0 <= 1).
        { unfold Rmin. destruct (Rle_dec (shore / 100) 1.0); lra. }
        set (f := Rmin (shore / 100) 1.0) in *.
        destruct (decide (z_eff <= 10)) as [Hz|Hz]; [nra|].
        specialize (HL Hz). set (L := ln (z_eff / 10)) in *. nra.
      * destruct (decide (z_eff <= 10)) as [Hz|Hz]; [lra|]. specialize (HL Hz). lra.
Qed.

Lemma calculate_town_correction_pos (into_town height : R) :
  0 < WindLoadCalculator.calculate_town_correction into_town height.
Proof.
  unfold WindLoadCalculator.calculate_town_correction.
  repeat (destruct (decide _)); lra.
Qed.

Lemma calculate_peak_velocity_pressure_nonneg (v_map c_alt c_dir c_e c_e_T : R) :
  0 < c_e → 0 < c_e_T →
  0 <= WindLoadCalculator.calculate_peak_velocity_pressure v_map c_alt c_dir c_e c_e_T.
Proof.
  intros He HT. unfold WindLoadCalculator.calculate_peak_velocity_pressure. cbv zeta.
  pose proof (pow2_ge_0 (v_map * c_alt * c_dir)) as Hv.
  apply Rmult_le_pos; [|lra]. apply Rmult_le_pos; [|lra]. lra.
Qed.

Lemma ln_200_6_pos : 0 < ln (200 / 6).
Proof. apply ln_pos. lra. Qed.

Lemma ln_300_5_pos : 0 < ln (300 / 5).
Proof. apply ln_pos. lra. Qed.

Lemma size_factor_branch_pos (lo hi b_plus_h z_eff : R) :
  0 < lo → lo <= hi →
  0 < WindLoadCalculator.size_factor_branch lo hi b_plus_h z_eff.
Proof.
  intros Hlo Hhi. unfold WindLoadCalculator.size_factor_branch. cbv zeta.
  pose proof ln_200_6_pos as H200. pose proof ln_300_5_pos as H300.
  assert (Hmid : ¬ z_eff <= 6 →
                 lo <= lo + (hi - lo) * ln (z_eff / 6) / ln (200 / 6)).
  { intros Hz. assert (0 <= ln (z_eff / 6)) by (apply ln_nonneg; lra).
    assert (0 <= (hi - lo) * ln (z_eff / 6) / ln (200 / 6)); [|lra].
    apply Rmult_le_pos; [apply Rmult_le_pos; lra|].
    left. now apply Rinv_0_lt_compat. }
  destruct (decide (b_plus_h <= 5)) as [H5|H5]; [lra|].
  destruct (decide (b_plus_h >= 300)) as [H3|H3].
  - destruct (decide (z_eff <= 6)) as [Hz|Hz]; [lra|].
    destruct (decide (z_eff >= 200)); [lra|]. specialize (Hmid Hz). lra.
  - set (c300 := if decide (z_eff <= 6) then lo
                 else lo + (hi - lo) * ln (z_eff / 6) / ln (200 / 6)).
    assert (Hc : lo <= c300).
    { unfold c300. destruct (decide (z_eff <= 6)) as [Hz|Hz]; [lra|]. auto. }
    assert (Ht : 0 <= ln (b_plus_h / 5) / ln (300 / 5) <= 1).
    { split.
      - apply Rmult_le_pos; [apply ln_nonneg; lra|].
        left. now apply Rinv_0_lt_compat.
      - apply Rmult_le_reg_r with (ln (300 / 5)); [assumption|].
        unfold Rdiv at 1. rewrite Rmult_assoc, Rinv_l, Rmult_1_r, Rmult_1_l by lra.
        apply ln_mono; lra. }
    replace (1.0 + (c300 - 1.0) * ln (b_plus_h / 5) / ln (300 / 5))
      with (1 + (c300 - 1) * (ln (b_plus_h / 5) / ln (300 / 5)))
      by (replace 1.0 with 1 by lra; unfold Rdiv; ring).
    set (t := ln (b_plus_h / 5) / ln (300 / 5)) in *. nra.
Qed.

Lemma calculate_size_factor_pos (width height z_eff : R) (zone : WindLoadCalculator.zone) :
  0 < WindLoadCalculator.calculate_size_factor width height z_eff zone.
Proof.
  unfold WindLoadCalculator.calculate_size_factor. cbv zeta.
  destruct zone; apply size_factor_branch_pos; lra.
Qed.

Lemma interpolate_row_ge (x0 y0 x1 y1 x : R) :
  x0 < x1 → y0 <= y1 → x0 <= x <= x1 →
  y0 <= y0 + (y1 - y0) * (x - x0) / (x1 - x0).
Proof.
  intros Hx Hy Hin.
  assert (0 <= (y1 - y0) * (x - x0) / (x1 - x0)); [|lra].
  apply Rmult_le_pos; [apply Rmult_le_pos; lra|].
  left. apply Rinv_0_lt_compat. lra.
Qed.

Lemma interpolate_table_ge_1 (x y : R) :
  WindLoadCalculator.interpolate WindLoadCalculator.table_0_08 x = Some y → 1 <= y.
Proof.
  unfold WindLoadCalculator.table_0_08. simpl.
  repeat (destruct (decide _) as [Hin|_];
          [intros [= <-];
           eapply Rle_trans; [|apply interpolate_row_ge; [lra|lra|exact Hin]]; lra|]).
  discriminate.
Qed.

Lemma calculate_dynamic_factor_pos (height width c_d : R) :
  WindLoadCalculator.calculate_dynamic_factor height width = Ok c_d → 1 <= c_d.
Proof.
  unfold WindLoadCalculator.calculate_dynamic_factor.
  destruct (decide (height <= 15)); [intros [= <-]; lra|].
  unfold py_div. destruct (decide (width = 0)); [discriminate|].
  cbn [outcome_bind].
  destruct (decide _); [intros [= <-]; lra|].
  destruct (decide _); [intros [= <-]; lra|].
  destruct (WindLoadCalculator.interpolate WindLoadCalculator.table_0_08
              (height / width)) as [y|] eqn:Hy; simpl;
    intros [= <-]; [now apply interpolate_table_ge_1 in Hy | lra].
Qed.

(** The value of the wall-mounted force coefficient: the formula at
    [h/d], clamped at 5. *)
Lemma calculate_force_coefficient_value (height depth : R) (c : calculator) :
  depth ≠ 0 →
  let x := if decide (height / depth > 5) then 5.0 else height / depth in
  (WindLoadCalculator.calculate_force_coefficient height depth c).1
  = Ok (if decide (0.25 <= x <= 1) then 0.935 + 0.1839 * ln x
        else if decide (1 < x <= 5) then
          (0.8125 + 0.0375 * x) * (1.1 + 0.1243 * ln x)
        else if decide (x < 0.25) then 0.68
        else 1.0).
Proof.
  intros Hd. unfold WindLoadCalculator.calculate_force_coefficient.
  rewrite py_div_Ok by assumption.
  unfold bind, lift, warn, ret. cbv zeta.
  destruct (decide (height / depth > 5)); reflexivity.
Qed.

Lemma ln_quarter_ge : -3 <= ln 0.25.
Proof.
  replace 0.25 with (/ 4) by lra. rewrite ln_Rinv by lra.
  pose proof (ln_le_minus_1 4). lra.
Qed.

Lemma calculate_force_coefficient_pos (height depth c_f : R) (c : calculator) :
  depth ≠ 0 →
  (WindLoadCalculator.calculate_force_coefficient height depth c).1 = Ok c_f →
  0 < c_f.
Proof.
  intros Hd. rewrite calculate_force_coefficient_value by assumption. cbv zeta.
  set (x := if decide (height / depth > 5) then 5.0 else height / depth).
  intros [= <-].
  destruct (decide (0.25 <= x <= 1)) as [[Hlo Hhi]|_].
  - pose proof (ln_mono 0.25 x ltac:(lra) Hlo). pose proof ln_quarter_ge. lra.
  - destruct (decide (1 < x <= 5)) as [[Hlo Hhi]|_].
    + pose proof (ln_pos x Hlo). apply Rmult_lt_0_compat; lra.
    + destruct (decide (x < 0.25)); lra.
Qed.

(** * The claims about the wall-mounted calculator *)

(** C8.  For a wall-mounted calculation with positive width, height, depth
    and building height and non-negative altitude, the call returns a
    dictionary in which the force (N) is [q_p * c_s * c_d * c_f * A_ref]
    with [A_ref = sign_width * sign_height], the moment (kNm) is
    [force * (building_height - sign_height/2) / 1000], and the force is
    not negative (in N and in kN). *)
Theorem wall_force_and_moment (i : WindLoadCalculator.inputs) (c : calculator) :
  0 < WindLoadCalculator.in_sign_width i →
  0 < WindLoadCalculator.in_sign_height i →
  0 < WindLoadCalculator.in_sign_depth i →
  0 < WindLoadCalculator.in_building_height i →
  0 <= WindLoadCalculator.in_site_altitude i →
  ∃ r c',
    WindLoadCalculator.calculate_wind_loading i c = (Ok r, c') ∧
    WindLoadCalculator.force_N r
      = WindLoadCalculator.q_p r * WindLoadCalculator.c_s r
        * WindLoadCalculator.c_d r * WindLoadCalculator.c_f r
        * WindLoadCalculator.A_ref r ∧
    WindLoadCalculator.A_ref r
      = WindLoadCalculator.in_sign_width i * WindLoadCalculator.in_sign_height i ∧
    WindLoadCalculator.moment_kNm r
      = WindLoadCalculator.force_N r
        * (WindLoadCalculator.in_building_height i
           - WindLoadCalculator.in_sign_height i / 2) / 1000 ∧
    WindLoadCalculator.force_kN r = WindLoadCalculator.force_N r / 1000 ∧
    0 <= WindLoadCalculator.force_N r ∧
    0 <= WindLoadCalculator.force_kN r.
Proof.
  intros Hw Hh Hd Hbh Halt.
  destruct (wall_returns i ltac:(lra) ltac:(right; lra) c) as (r & c' & Hrun).
  exists r, c'. split; [exact Hrun|].
  destruct (wall_run_stages _ _ _ _ Hrun)
    as (_ & _ & _ & Hce & HceT & Hqp & Hcs & Hcd & HA & Hcf & HF & HkN & Hlev & Hmom).
  unfold WindLoadCalculator.calculate_wind_force in HF.
  assert (Hce_pos : 0 < WindLoadCalculator.c_e r).
  { pose proof (calculate_exposure_factor_pos
                  (WindLoadCalculator.in_building_height i) 0.0
                  (WindLoadCalculator._parse_distance
                     (default (WindLoadCalculator.DNum 100)
                        (WindLoadCalculator.in_distance_to_shore i)))
                  (default "country" (WindLoadCalculator.in_terrain_type i))) as H.
    rewrite <- Hce in H. exact H. }
  assert (HceT_pos : 0 < WindLoadCalculator.c_e_T r).
  { rewrite HceT. destruct (decide _); [apply calculate_town_correction_pos | lra]. }
  assert (Hqp_pos : 0 <= WindLoadCalculator.q_p r).
  { rewrite Hqp. now apply calculate_peak_velocity_pressure_nonneg. }
  assert (Hcs_pos : 0 < WindLoadCalculator.c_s r).
  { rewrite Hcs. apply calculate_size_factor_pos. }
  assert (Hcd_pos : 1 <= WindLoadCalculator.c_d r).
  { eapply calculate_dynamic_factor_pos. exact Hcd. }
  assert (Hcf_pos : 0 < WindLoadCalculator.c_f r).
  { eapply (calculate_force_coefficient_pos _ _ _ init); [|apply Hcf]. lra. }
  assert (HA_pos : 0 < WindLoadCalculator.A_ref r).
  { rewrite HA. now apply Rmult_lt_0_compat. }
  assert (HF_pos : 0 <= WindLoadCalculator.force_N r).
  { rewrite HF. repeat apply Rmult_le_pos; lra. }
  repeat split.
  - exact HF.
  - exact HA.
  - rewrite Hmom, Hlev. reflexivity.
  - exact HkN.
  - exact HF_pos.
  - rewrite HkN. lra.
Qed.

Lemma wall_force_and_moment_witness :
  ∃ r c',
    WindLoadCalculator.calculate_wind_loading sheffield init = (Ok r, c') ∧
    WindLoadCalculator.force_N r
      = WindLoadCalculator.q_p r * WindLoadCalculator.c_s r
        * WindLoadCalculator.c_d r * WindLoadCalculator.c_f r
        * WindLoadCalculator.A_ref r ∧
    WindLoadCalculator.A_ref r = 20 * 27 ∧
    WindLoadCalculator.moment_kNm r
      = WindLoadCalculator.force_N r * (27 - 27 / 2) / 1000 ∧
    WindLoadCalculator.force_kN r = WindLoadCalculator.force_N r / 1000 ∧
    0 <= WindLoadCalculator.force_N r ∧
    0 <= WindLoadCalculator.force_kN r.
Proof.
  apply (wall_force_and_moment sheffield init); simpl; lra.
Defined.

(** * Section properties and utilisation checks *)

(** Settle the comparisons of literal strings in the goal. *)
Ltac decide_strings :=
  repeat match goal with
    | |- context [decide (?a = ?b :> string)] =>
        destruct (decide (a = b :> string)) as [?E|?E];
        [try discriminate | try (exfalso; apply E; reflexivity)]
    | |- context [bool_decide (?a = ?b :> string)] =>
        first [ rewrite (bool_decide_eq_true_2 (a = b :> string)) by reflexivity
              | rewrite (bool_decide_eq_false_2 (a = b :> string)) by discriminate ]
    end.

Lemma PI_lt_4 : PI < 4.
Proof. pose proof pi2_int as [_ H]. unfold PI. lra. Qed.

Lemma solid_square_post (M F b t f_y : R) :
  ∃ sq, PostMountedCalculator.calculate_post_stresses M F b t f_y "square" "timber" = Ok sq
        ∧ PostMountedCalculator.W_el sq = b ^ 3 / 6.
Proof.
  unfold PostMountedCalculator.calculate_post_stresses. decide_strings.
  cbn [outcome_bind]. eexists. split; reflexivity.
Qed.

Lemma solid_circular_post (M F D t f_y : R) :
  ∃ ci, PostMountedCalculator.calculate_post_stresses M F D t f_y "circular" "timber" = Ok ci
        ∧ PostMountedCalculator.W_el ci = PI * D ^ 3 / 32.
Proof.
  unfold PostMountedCalculator.calculate_post_stresses. decide_strings.
  cbn [outcome_bind]. eexists. split; reflexivity.
Qed.

(** C3, as stated, fails: for the 200 mm solid timber posts of
    [test_timber_solid.py] the section modulus of the square post is not
    4/3 of that of the round post. *)
Lemma square_modulus_not_four_thirds :
  ∃ sq ci,
    PostMountedCalculator.calculate_post_stresses 20 5 200 0 24 "square" "timber" = Ok sq ∧
    PostMountedCalculator.calculate_post_stresses 20 5 200 0 24 "circular" "timber" = Ok ci ∧
    PostMountedCalculator.W_el sq ≠ 4 / 3 * PostMountedCalculator.W_el ci.
Proof.
  destruct (solid_square_post 20 5 200 0 24) as (sq & Hsq & Wsq).
  destruct (solid_circular_post 20 5 200 0 24) as (ci & Hci & Wci).
  exists sq, ci. split; [exact Hsq|]. split; [exact Hci|].
  rewrite Wsq, Wci. pose proof PI_lt_4. lra.
Qed.

(** C3, amended.  For a solid (timber) square post of side [b] and a solid
    round post of diameter [b], [calculate_post_stresses] returns section
    moduli [b^3/6] and [pi b^3/32]: the square one is [16/(3 pi)] times the
    round one (about 1.70 times, 70% more), for every moment, force, wall
    thickness and strength passed along. *)
Theorem square_modulus_ratio (M F b t f_y : R) :
  ∃ sq ci,
    PostMountedCalculator.calculate_post_stresses M F b t f_y "square" "timber" = Ok sq ∧
    PostMountedCalculator.calculate_post_stresses M F b t f_y "circular" "timber" = Ok ci ∧
    PostMountedCalculator.W_el sq = b ^ 3 / 6 ∧
    PostMountedCalculator.W_el ci = PI * b ^ 3 / 32 ∧
    PostMountedCalculator.W_el sq = 16 / (3 * PI) * PostMountedCalculator.W_el ci.
Proof.
  destruct (solid_square_post M F b t f_y) as (sq & Hsq & Wsq).
  destruct (solid_circular_post M F b t f_y) as (ci & Hci & Wci).
  exists sq, ci. repeat split; try assumption.
  rewrite Wsq, Wci. pose proof PI_RGT_0. field. lra.
Qed.

Lemma pass_iff_status (eta : R) :
  pass_iff (if decide (eta <= 1.0) then "PASS" else "FAIL") eta.
Proof.
  unfold pass_iff. destruct (decide (eta <= 1.0)); split; split;
    intros; try discriminate; try contradiction; auto.
Qed.

(** C7.  Whenever the checks return, each status string is ["PASS"]
    exactly when its ratio is at most 1.0 and ["FAIL"] exactly when it is
    not: anchor tension, shear and combined; bracket bending and shear;
    post bending and shear; deflection. *)
Theorem status_pass_iff_ratio
    (V_b M_b N_v : R) (n_fix : Z) (p_v N_Rk V_Rk gamma_M : R)
    (V_per_bracket L : R) (section : R * R * R) (f_y : R)
    (M F size_out t f_yp : R) (section_type material : string)
    (F_w_k : R) (n_brackets : Z) (L_d E I_d : R)
    (a : ProjectingSignCalculator.anchor_check)
    (b : ProjectingSignCalculator.bracket_check)
    (p : PostMountedCalculator.post_check)
    (d : ProjectingSignCalculator.deflection_check) :
  ProjectingSignCalculator.calculate_anchor_utilization
    V_b M_b N_v n_fix p_v N_Rk V_Rk gamma_M = Ok a →
  ProjectingSignCalculator.calculate_bracket_stresses
    V_per_bracket L section f_y = Ok b →
  PostMountedCalculator.calculate_post_stresses
    M F size_out t f_yp section_type material = Ok p →
  ProjectingSignCalculator.calculate_deflection
    F_w_k n_brackets L_d E I_d = Ok d →
  pass_iff (ProjectingSignCalculator.tension_status a)
           (ProjectingSignCalculator.eta_tension a) ∧
  pass_iff (ProjectingSignCalculator.shear_status a)
           (ProjectingSignCalculator.eta_shear a) ∧
  pass_iff (ProjectingSignCalculator.combined_status a)
           (ProjectingSignCalculator.eta_combined a) ∧
  pass_iff (ProjectingSignCalculator.bending_status b)
           (ProjectingSignCalculator.eta_bending b) ∧
  pass_iff (ProjectingSignCalculator.bc_shear_status b)
           (ProjectingSignCalculator.bc_eta_shear b) ∧
  pass_iff (PostMountedCalculator.bending_status p)
           (PostMountedCalculator.eta_bending p) ∧
  pass_iff (PostMountedCalculator.shear_status p)
           (PostMountedCalculator.eta_shear p) ∧
  pass_iff (ProjectingSignCalculator.deflection_status d)
           (ProjectingSignCalculator.eta_deflection d).
Proof.
  intros Ha Hb Hp Hd.
  assert (HA : pass_iff (ProjectingSignCalculator.tension_status a)
                 (ProjectingSignCalculator.eta_tension a) ∧
               pass_iff (ProjectingSignCalculator.shear_status a)
                 (ProjectingSignCalculator.eta_shear a) ∧
               pass_iff (ProjectingSignCalculator.combined_status a)
                 (ProjectingSignCalculator.eta_combined a)).
  { unfold ProjectingSignCalculator.calculate_anchor_utilization, py_div in Ha.
    repeat (destruct (decide (_ = 0)); [discriminate|]; cbn [outcome_bind] in Ha).
    injection Ha as <-. cbn. repeat split; apply pass_iff_status. }
  assert (HB : pass_iff (ProjectingSignCalculator.bending_status b)
                 (ProjectingSignCalculator.eta_bending b) ∧
               pass_iff (ProjectingSignCalculator.bc_shear_status b)
                 (ProjectingSignCalculator.bc_eta_shear b)).
  { unfold ProjectingSignCalculator.calculate_bracket_stresses, py_div in Hb.
    destruct section as [[b_out h_out] t0].
    destruct (decide (_ = 0)); [discriminate|]. cbn [outcome_bind] in Hb.
    injection Hb as <-. cbn. split; apply pass_iff_status. }
  assert (HP : pass_iff (PostMountedCalculator.bending_status p)
                 (PostMountedCalculator.eta_bending p) ∧
               pass_iff (PostMountedCalculator.shear_status p)
                 (PostMountedCalculator.eta_shear p)).
  { unfold PostMountedCalculator.calculate_post_stresses in Hp.
    destruct (if decide (section_type = "square") then _ else _)
      as [[[I0 W0] A0]|x]; [|discriminate].
    cbn [outcome_bind] in Hp.
    destruct (if decide (material = "steel") then _ else _) as [sR tR].
    injection Hp as <-. cbn. split; apply pass_iff_status. }
  assert (HD : pass_iff (ProjectingSignCalculator.deflection_status d)
                 (ProjectingSignCalculator.eta_deflection d)).
  { unfold ProjectingSignCalculator.calculate_deflection, py_div in Hd.
    destruct (decide (_ = 0)); [discriminate|]. cbn [outcome_bind] in Hd.
    injection Hd as <-. cbn. apply pass_iff_status. }
  tauto.
Qed.

Lemma calculate_anchor_utilization_returns
    (V_b M_b N_v : R) (n_fix : Z) (p_v N_Rk V_Rk gamma_M : R) :
  IZR n_fix ≠ 0 → p_v ≠ 0 → gamma_M ≠ 0 →
  ∃ a, ProjectingSignCalculator.calculate_anchor_utilization
         V_b M_b N_v n_fix p_v N_Rk V_Rk gamma_M = Ok a.
Proof.
  intros Hn Hp Hg. unfold ProjectingSignCalculator.calculate_anchor_utilization.
  assert (Hpn : p_v * (IZR n_fix / 2) ≠ 0).
  { apply Rmult_integral_contrapositive. split; lra. }
  rewrite !py_div_Ok by assumption. cbn [outcome_bind]. eauto.
Qed.

Lemma calculate_bracket_stresses_returns (V L b_out h_out t f_y : R) :
  h_out ≠ 0 →
  ∃ b, ProjectingSignCalculator.calculate_bracket_stresses
         V L (b_out, h_out, t) f_y = Ok b.
Proof.
  intros Hh. unfold ProjectingSignCalculator.calculate_bracket_stresses.
  rewrite py_div_Ok by assumption. cbn [outcome_bind]. eauto.
Qed.

Lemma calculate_post_stresses_returns
    (M F size_out t f_y : R) (section_type material : string) :
  size_out ≠ 0 →
  ∃ p, PostMountedCalculator.calculate_post_stresses
         M F size_out t f_y section_type material = Ok p.
Proof.
  intros Hs. unfold PostMountedCalculator.calculate_post_stresses.
  assert (Hhalf : size_out / 2 ≠ 0) by lra.
  rewrite !py_div_Ok by assumption.
  destruct (decide (section_type = "square")), (bool_decide (material = "timber"));
    cbn [outcome_bind];
    destruct (if decide (material = "steel") then _ else _) as [sR tR]; eauto.
Qed.

Lemma calculate_deflection_returns (F_w_k : R) (n : Z) (L E I : R) :
  IZR n ≠ 0 →
  ∃ d, ProjectingSignCalculator.calculate_deflection F_w_k n L E I = Ok d.
Proof.
  intros Hn. unfold ProjectingSignCalculator.calculate_deflection.
  rewrite py_div_Ok by assumption. cbn [outcome_bind]. eauto.
Qed.

Lemma status_pass_iff_ratio_witness :
  ∃ a b p d,
    ProjectingSignCalculator.calculate_anchor_utilization
      1.9 1.14 0.1 4 0.15 12 8 1.5 = Ok a ∧
    ProjectingSignCalculator.calculate_bracket_stresses
      1.9 0.6 (80, 60, 5) 275 = Ok b ∧
    PostMountedCalculator.calculate_post_stresses
      20 5.85 150 8 275 "circular" "steel" = Ok p ∧
    ProjectingSignCalculator.calculate_deflection 2.537 2 0.6 210000 1000000 = Ok d ∧
    pass_iff (ProjectingSignCalculator.tension_status a)
             (ProjectingSignCalculator.eta_tension a) ∧
    pass_iff (ProjectingSignCalculator.shear_status a)
             (ProjectingSignCalculator.eta_shear a) ∧
    pass_iff (ProjectingSignCalculator.combined_status a)
             (ProjectingSignCalculator.eta_combined a) ∧
    pass_iff (ProjectingSignCalculator.bending_status b)
             (ProjectingSignCalculator.eta_bending b) ∧
    pass_iff (ProjectingSignCalculator.bc_shear_status b)
             (ProjectingSignCalculator.bc_eta_shear b) ∧
    pass_iff (PostMountedCalculator.bending_status p)
             (PostMountedCalculator.eta_bending p) ∧
    pass_iff (PostMountedCalculator.shear_status p)
             (PostMountedCalculator.eta_shear p) ∧
    pass_iff (ProjectingSignCalculator.deflection_status d)
             (ProjectingSignCalculator.eta_deflection d).
Proof.
  destruct (calculate_anchor_utilization_returns 1.9 1.14 0.1 4 0.15 12 8 1.5)
    as [a Ha]; [lra|lra|lra|].
  destruct (calculate_bracket_stresses_returns 1.9 0.6 80 60 5 275) as [b Hb]; [lra|].
  destruct (calculate_post_stresses_returns 20 5.85 150 8 275 "circular" "steel")
    as [p Hp]; [lra|].
  destruct (calculate_deflection_returns 2.537 2 0.6 210000 1000000) as [d Hd]; [lra|].
  exists a, b, p, d.
  split; [exact Ha|]. split; [exact Hb|]. split; [exact Hp|]. split; [exact Hd|].
  exact (status_pass_iff_ratio _ _ _ _ _ _ _ _ _ _ _ _ _ _ _ _ _ _ _ _ _ _ _ _
           a b p d Ha Hb Hp Hd).
Defined.

(** * Force coefficients: wall-mounted and free-standing *)

Lemma calculate_force_coefficient_freestanding_value
    (height depth width : R) (c : calculator) :
  let x := if decide (depth > 0) then height / depth else 999 in
  (PostMountedCalculator.calculate_force_coefficient_freestanding
     height depth width c).1
  = Ok (if decide (0.25 <= x <= 1) then (0.935 + 0.1839 * ln x) * 1.1
        else if decide (1 < x <= 5) then
          (0.8125 + 0.0375 * x) * (1.1 + 0.1243 * ln x) * 1.1
        else if decide (x < 0.25) then 0.68 * 1.1
        else 1.0 * 1.1).
Proof.
  unfold PostMountedCalculator.calculate_force_coefficient_freestanding. cbv zeta.
  set (x := if decide (depth > 0) then height / depth else 999).
  destruct (decide (0.25 <= x <= 1)); [reflexivity|].
  destruct (decide (1 < x <= 5)); [reflexivity|].
  destruct (decide (x < 0.25)); reflexivity.
Qed.

(** Up to [h/d = 5] the free-standing coefficient is the wall-mounted one
    times 1.1, in each of the three branches. *)
Lemma freestanding_tenth_more_up_to_5 (height depth width : R) (c c' : calculator) :
  0 < depth → height / depth <= 5 →
  ∃ c_f,
    (WindLoadCalculator.calculate_force_coefficient height depth c).1 = Ok c_f ∧
    (PostMountedCalculator.calculate_force_coefficient_freestanding
       height depth width c').1 = Ok (c_f * 1.1).
Proof.
  intros Hd Hx. eexists. split.
  - apply calculate_force_coefficient_value. lra.
  - rewrite calculate_force_coefficient_freestanding_value. cbv zeta.
    destruct (decide (depth > 0)); [|lra].
    destruct (decide (height / depth > 5)); [lra|].
    set (x := height / depth) in *.
    destruct (decide (0.25 <= x <= 1)); [reflexivity|].
    destruct (decide (1 < x <= 5)); [reflexivity|].
    destruct (decide (x < 0.25)); [reflexivity|]. lra.
Qed.

(** C2 at [height = 6], [depth = 1] ([h/d = 6 > 5]).  The wall-mounted
    coefficient is the formula at [h/d = 5], about 1.30; the free-standing
    one is [1.0 * 1.1], which is not 1.1 times the wall-mounted one (it is
    even smaller than it).  Both append their warning. *)
Theorem freestanding_above_5_not_tenth_more (width : R) :
  runs (WindLoadCalculator.calculate_force_coefficient 6 1)
       (λ _, Ok ((0.8125 + 0.0375 * 5.0) * (1.1 + 0.1243 * ln 5.0)))
       [Append (wall_hd_warning (6 / 1))] ∧
  runs (PostMountedCalculator.calculate_force_coefficient_freestanding 6 1 width)
       (λ _, Ok (1.0 * 1.1))
       [Append (freestanding_hd_warning (6 / 1))] ∧
  1.0 * 1.1 ≠ 1.1 * ((0.8125 + 0.0375 * 5.0) * (1.1 + 0.1243 * ln 5.0)) ∧
  1.0 * 1.1 < (0.8125 + 0.0375 * 5.0) * (1.1 + 0.1243 * ln 5.0).
Proof.
  assert (Hln : 1 < ln 5.0).
  { pose proof exp_le_3 as H3. rewrite <- (ln_exp 1).
    apply ln_increasing; [apply exp_pos | lra]. }
  split; [|split; [|split]].
  - intros c. unfold WindLoadCalculator.calculate_force_coefficient.
    rewrite py_div_Ok by lra. unfold bind, lift, warn, ret.
    destruct (decide (6 / 1 > 5)) as [_|H]; [|exfalso; lra].
    destruct (decide (0.25 <= 5.0 <= 1)) as [H|_]; [exfalso; lra|].
    destruct (decide (1 < 5.0 <= 5)) as [_|H]; [|exfalso; lra].
    reflexivity.
  - intros c. unfold PostMountedCalculator.calculate_force_coefficient_freestanding.
    cbv zeta. destruct (decide (1 > 0)) as [_|H]; [|exfalso; lra].
    destruct (decide (0.25 <= 6 / 1 <= 1)) as [H|_]; [exfalso; lra|].
    destruct (decide (1 < 6 / 1 <= 5)) as [H|_]; [exfalso; lra|].
    destruct (decide (6 / 1 < 0.25)) as [H|_]; [exfalso; lra|].
    reflexivity.
  - lra.
  - lra.
Qed.

(** * Exceptions *)

Lemma raises_only_ret {A} P (a : A) : raises_only P (ret a).
Proof. intros c x c' [=]. Qed.

Lemma raises_only_warn P (w : message) : raises_only P (warn w).
Proof. intros c x c' [=]. Qed.

Lemma raises_only_new_warnings P : raises_only P new_warnings.
Proof. intros c x c' [=]. Qed.

Lemma raises_only_the_warnings P : raises_only P the_warnings.
Proof. intros c x c' [=]. Qed.

Lemma raises_only_lift {A} (P : exn → Prop) (o : outcome A) :
  (∀ x, o = Raise x → P x) → raises_only P (lift o).
Proof. intros Ho c x c' [= -> _]. now apply Ho. Qed.

Lemma raises_only_bind {A B} P (m : M A) (g : A → M B) :
  raises_only P m → (∀ a, raises_only P (g a)) → raises_only P (bind m g).
Proof.
  intros Hm Hg c x c'. unfold bind.
  destruct (m c) as [[a|y] c1] eqn:Hmc.
  - apply Hg.
  - intros [= <- _]. eapply Hm, Hmc.
Qed.

Lemma py_div_raises (x y : R) (e : exn) :
  py_div x y = Raise e → e = ZeroDivisionError.
Proof. unfold py_div. destruct (decide (y = 0)); congruence. Qed.

Ltac raises_step :=
  lazymatch goal with
  | |- raises_only _ (ret _) => apply raises_only_ret
  | |- raises_only _ (warn _) => apply raises_only_warn
  | |- raises_only _ new_warnings => apply raises_only_new_warnings
  | |- raises_only _ the_warnings => apply raises_only_the_warnings
  | |- raises_only _ (lift (py_div _ _)) =>
      apply raises_only_lift; intros ?; apply py_div_raises
  | |- raises_only _ (bind _ _) => apply raises_only_bind; [|intros ?]
  | |- raises_only _ (if ?b then _ else _) => destruct b
  | |- raises_only _ (match ?x with _ => _ end) => destruct x
  | |- raises_only _ _ => solve [auto with methods]
  end; cbv beta zeta.

Lemma lookup_wind_speed_raises P (postcode : string) :
  raises_only P (WindLoadCalculator.lookup_wind_speed postcode).
Proof. unfold WindLoadCalculator.lookup_wind_speed. repeat raises_step. Qed.

Lemma calculate_dynamic_factor_raises (height width : R) (e : exn) :
  WindLoadCalculator.calculate_dynamic_factor height width = Raise e →
  e = ZeroDivisionError.
Proof.
  unfold WindLoadCalculator.calculate_dynamic_factor.
  destruct (decide (height <= 15)); [discriminate|].
  destruct (py_div height width) as [q|y] eqn:Hq; cbn [outcome_bind].
  - repeat (destruct (decide _); [discriminate|]). discriminate.
  - intros [= <-]. eapply py_div_raises, Hq.
Qed.

Lemma calculate_force_coefficient_raises (height depth : R) :
  raises_only (λ e, e = ZeroDivisionError)
    (WindLoadCalculator.calculate_force_coefficient height depth).
Proof. unfold WindLoadCalculator.calculate_force_coefficient. repeat raises_step. Qed.

#[global] Hint Resolve lookup_wind_speed_raises calculate_force_coefficient_raises : methods.

(** The wall-mounted calculator raises nothing but [ZeroDivisionError]. *)
Lemma wall_raises (i : WindLoadCalculator.inputs) :
  raises_only (λ e, e = ZeroDivisionError)
    (WindLoadCalculator.calculate_wind_loading i).
Proof.
  unfold WindLoadCalculator.calculate_wind_loading. cbv beta zeta.
  repeat first [ raises_step
               | apply raises_only_lift; apply calculate_dynamic_factor_raises ].
Qed.

Lemma bind_eq_Ok {A B} (m : M A) (g : A → M B) c a c1 :
  m c = (Ok a, c1) → bind m g c = g a c1.
Proof. intros Hm. unfold bind. rewrite Hm. reflexivity. Qed.

Lemma bind_eq_Raise {A B} (m : M A) (g : A → M B) c x c1 :
  m c = (Raise x, c1) → bind m g c = (Raise x, c1).
Proof. intros Hm. unfold bind. rewrite Hm. reflexivity. Qed.

Lemma calculate_force_coefficient_zero_depth (height : R) (c : calculator) :
  WindLoadCalculator.calculate_force_coefficient height 0 c
  = (Raise ZeroDivisionError, c).
Proof.
  unfold WindLoadCalculator.calculate_force_coefficient.
  rewrite py_div_zero. reflexivity.
Qed.

Lemma wall_zero_depth (i : WindLoadCalculator.inputs) (c : calculator) :
  WindLoadCalculator.in_sign_depth i = 0 →
  (WindLoadCalculator.calculate_wind_loading i c).1 = Raise ZeroDivisionError.
Proof.
  intros Hd.
  destruct (WindLoadCalculator.calculate_wind_loading i c) as [[r|x] c'] eqn:Hrun; simpl.
  - destruct (wall_run_stages _ _ _ _ Hrun)
      as (_ & _ & _ & _ & _ & _ & _ & _ & _ & Hcf & _).
    specialize (Hcf init). rewrite Hd, calculate_force_coefficient_zero_depth in Hcf.
    discriminate.
  - f_equal. eapply wall_raises, Hrun.
Qed.

Lemma post_zero_depth (i : PostMountedCalculator.inputs) (c : calculator) :
  PostMountedCalculator.in_sign_depth i = 0 →
  (PostMountedCalculator.calculate_wind_loading i c).1 = Raise ZeroDivisionError.
Proof.
  intros Hd. unfold PostMountedCalculator.calculate_wind_loading.
  rewrite (bind_eq_Ok new_warnings _ c tt (step Reset c)) by reflexivity.
  cbv beta zeta.
  match goal with
  | |- (bind (WindLoadCalculator.calculate_wind_loading ?wi) _ ?c1).1 = _ =>
      pose proof (wall_zero_depth wi c1 Hd) as Hbase;
      destruct (WindLoadCalculator.calculate_wind_loading wi c1) as [o c2] eqn:Hrun
  end.
  simpl in Hbase. subst o.
  rewrite (bind_eq_Raise _ _ _ _ _ Hrun). reflexivity.
Qed.

(** C4 on the code.  With [depth = 0] the free-standing function takes the
    sentinel ratio 999 and returns [1.0 * 1.1] with a warning; the
    wall-mounted function has no such guard and raises
    [ZeroDivisionError], for every height.  So does the wall-mounted
    [calculate_wind_loading], and so does the post-mounted one, which runs
    the wall-mounted pipeline before its own guarded function. *)
Theorem zero_depth_force_coefficient (height width : R) :
  (∀ c, WindLoadCalculator.calculate_force_coefficient height 0 c
        = (Raise ZeroDivisionError, c)) ∧
  runs (PostMountedCalculator.calculate_force_coefficient_freestanding height 0 width)
       (λ _, Ok (1.0 * 1.1)) [Append (freestanding_hd_warning 999)] ∧
  (∀ i c, WindLoadCalculator.in_sign_depth i = 0 →
          (WindLoadCalculator.calculate_wind_loading i c).1 = Raise ZeroDivisionError) ∧
  (∀ i c, PostMountedCalculator.in_sign_depth i = 0 →
          (PostMountedCalculator.calculate_wind_loading i c).1 = Raise ZeroDivisionError).
Proof.
  split; [|split; [|split]].
  - apply calculate_force_coefficient_zero_depth.
  - intros c. unfold PostMountedCalculator.calculate_force_coefficient_freestanding.
    cbv zeta. destruct (decide (0 > 0)) as [H|_]; [exfalso; lra|].
    destruct (decide (0.25 <= 999 <= 1)) as [H|_]; [exfalso; lra|].
    destruct (decide (1 < 999 <= 5)) as [H|_]; [exfalso; lra|].
    destruct (decide (999 < 0.25)) as [H|_]; [exfalso; lra|].
    reflexivity.
  - intros i c. apply wall_zero_depth.
  - intros i c. apply post_zero_depth.
Qed.

(** * Traces of calls that return *)

Lemma normal_ret {A} (a : A) : normal (ret a) [].
Proof. intros c. eexists. reflexivity. Qed.

Lemma normal_warn (w : message) : normal (warn w) [Append w].
Proof. intros c. eexists. reflexivity. Qed.

Lemma normal_new_warnings : normal new_warnings [Reset].
Proof. intros c. eexists. reflexivity. Qed.

Lemma normal_the_warnings : normal the_warnings [].
Proof. intros c. eexists. reflexivity. Qed.

Lemma normal_lift {A} (a : A) : normal (lift (Ok a)) [].
Proof. intros c. eexists. reflexivity. Qed.

Lemma normal_bind {A B} (m : M A) (g : A → M B) evs1 evs2 :
  normal m evs1 → (∀ a, normal (g a) evs2) → normal (bind m g) (evs1 ++ evs2).
Proof.
  intros Hm Hg c. destruct (Hm c) as (a & Ha).
  destruct (Hg a (exec evs1 c)) as (b & Hb).
  exists b. unfold bind. rewrite Ha, exec_app. exact Hb.
Qed.

Lemma normal_eq {A} (m : M A) evs evs' : normal m evs → evs = evs' → normal m evs'.
Proof. intros Hm <-. exact Hm. Qed.

Lemma calculate_force_coefficient_normal (height depth : R) :
  depth ≠ 0 →
  normal (WindLoadCalculator.calculate_force_coefficient height depth)
    (if decide (height / depth > 5) then [Append (wall_hd_warning (height / depth))]
     else []).
Proof.
  intros Hd c. unfold WindLoadCalculator.calculate_force_coefficient.
  rewrite py_div_Ok by assumption. unfold bind, lift, warn, ret.
  destruct (decide (height / depth > 5)); eexists; reflexivity.
Qed.

Lemma wall_normal (i : WindLoadCalculator.inputs) (v : R) :
  WindLoadCalculator.in_v_map i = Some v → v ≠ 0 →
  WindLoadCalculator.in_sign_depth i ≠ 0 →
  (WindLoadCalculator.in_building_height i <= 15
   ∨ WindLoadCalculator.in_sign_width i ≠ 0) →
  normal (WindLoadCalculator.calculate_wind_loading i)
    (wall_events (WindLoadCalculator.in_sign_height i)
                 (WindLoadCalculator.in_sign_depth i)).
Proof.
  intros Hv Hv0 Hd Hw. unfold WindLoadCalculator.calculate_wind_loading.
  destruct (calculate_dynamic_factor_Ok _ _ Hw) as (c_d & ->).
  rewrite Hv. destruct (decide (v = 0)) as [|_]; [contradiction|].
  cbv beta zeta.
  eapply normal_eq.
  - eapply normal_bind; [apply normal_new_warnings|]. intros _.
    eapply normal_bind; [apply normal_ret|]. intros v_map.
    eapply normal_bind; [apply normal_warn|]. intros _.
    destruct (WindLoadCalculator.calculate_exposure_factor _ _ _ _) as [c_e zone].
    eapply normal_bind; [apply normal_warn|]. intros _.
    eapply normal_bind; [apply normal_lift|]. intros c_d'.
    eapply normal_bind; [apply calculate_force_coefficient_normal, Hd|]. intros c_f.
    eapply normal_bind; [apply normal_the_warnings|]. intros ws.
    apply normal_ret.
  - unfold wall_events. simpl. rewrite app_nil_r. reflexivity.
Qed.

Lemma wall_run_warnings (i : WindLoadCalculator.inputs) c r c' :
  WindLoadCalculator.calculate_wind_loading i c = (Ok r, c') →
  WindLoadCalculator.warnings r = self_warnings c'.
Proof.
  unfold WindLoadCalculator.calculate_wind_loading. intros Hrun.
  apply bind_Ok in Hrun as (_ & c0 & _ & Hrun). cbv beta zeta in Hrun.
  apply bind_Ok in Hrun as (v_map & c1 & Hv & Hrun). cbv beta zeta in Hrun.
  apply bind_Ok in Hrun as (_ & c2 & _ & Hrun).
  destruct (WindLoadCalculator.calculate_exposure_factor _ _ _ _) as [c_e zone].
  apply bind_Ok in Hrun as (_ & c3 & _ & Hrun).
  apply bind_Ok in Hrun as (c_d & c4 & Hcd & Hrun). cbv beta zeta in Hrun.
  apply bind_Ok in Hrun as (c_f & c5 & Hcf & Hrun). cbv beta zeta in Hrun.
  apply bind_Ok in Hrun as (ws & c6 & Hws & Hrun).
  unfold ret in Hrun. unfold the_warnings in Hws.
  injection Hrun as <- <-. injection Hws as <- <-. reflexivity.
Qed.

(** * Reading a run of the post-mounted calculator *)

(** The pressure of a parent run on the post-mounted inputs at height [z]. *)
Lemma wall_run_post_pressure (i : PostMountedCalculator.inputs) (z : R) c r c' :
  WindLoadCalculator.calculate_wind_loading (post_wind_inputs i z) c = (Ok r, c') →
  WindLoadCalculator.q_p r = peak_pressure_at i z.
Proof.
  intros Hrun.
  destruct (wall_run_stages _ _ _ _ Hrun)
    as (Hv & Halt & Hdir & Hce & HceT & Hqp & _).
  unfold post_wind_inputs in Hv, Halt, Hce, HceT. simpl in Hv, Halt, Hce, HceT.
  rewrite Hqp, Halt, Hdir, HceT. unfold peak_pressure_at. cbv zeta.
  replace (WindLoadCalculator.c_e r)
    with (WindLoadCalculator.calculate_exposure_factor z 0.0
            (WindLoadCalculator._parse_distance
               (PostMountedCalculator.in_distance_to_shore i))
            (PostMountedCalculator.in_terrain_type i)).1
    by (rewrite <- Hce; reflexivity).
  revert Hv. destruct (decide (PostMountedCalculator.in_v_map i = 0)); intros Hv.
  - specialize (Hv init). injection Hv as <-. reflexivity.
  - rewrite Hv. reflexivity.
Qed.

Lemma post_run_parts (i : PostMountedCalculator.inputs) c r c' :
  PostMountedCalculator.calculate_wind_loading i c = (Ok r, c') →
  let b := PostMountedCalculator.in_sign_width i in
  let h := PostMountedCalculator.in_sign_height i in
  let d := PostMountedCalculator.in_sign_depth i in
  let z_centroid := PostMountedCalculator.in_sign_base_height i + h / 2 in
  let post_size := default 0 (PostMountedCalculator.in_post_diameter i) / 1000 in
  let post_height :=
    default (PostMountedCalculator.in_sign_base_height i + h)
            (PostMountedCalculator.in_post_height i) in
  ∃ base c1 c_f c2,
    WindLoadCalculator.calculate_wind_loading (post_wind_inputs i z_centroid)
      (step Reset c) = (Ok base, c1) ∧
    PostMountedCalculator.calculate_force_coefficient_freestanding h d b c1
      = (Ok c_f, c2) ∧
    (post_size > 0 →
     ∃ post_results c3,
       WindLoadCalculator.calculate_wind_loading
         (post_wind_inputs i (post_height / 2)) c2 = (Ok post_results, c3) ∧
       PostMountedCalculator.F_w_post r
       = WindLoadCalculator.q_p post_results
         * (if decide (default "circular" (PostMountedCalculator.in_post_section_type i)
                       = "square") then 2.0 else 0.7)
         * (post_size * post_height) / 1000) ∧
    WindLoadCalculator.q_p (PostMountedCalculator.base_keys r)
      = WindLoadCalculator.q_p base ∧
    WindLoadCalculator.c_s (PostMountedCalculator.base_keys r)
      = WindLoadCalculator.c_s base ∧
    WindLoadCalculator.c_d (PostMountedCalculator.base_keys r)
      = WindLoadCalculator.c_d base ∧
    WindLoadCalculator.c_f (PostMountedCalculator.base_keys r) = c_f ∧
    WindLoadCalculator.A_ref (PostMountedCalculator.base_keys r) = b * h ∧
    PostMountedCalculator.F_w_sign r
      = WindLoadCalculator.q_p base * WindLoadCalculator.c_s base
        * WindLoadCalculator.c_d base * c_f * (b * h) / 1000 ∧
    WindLoadCalculator.force_kN (PostMountedCalculator.base_keys r)
      = PostMountedCalculator.F_w_sign r + PostMountedCalculator.F_w_post r ∧
    WindLoadCalculator.warnings (PostMountedCalculator.base_keys r)
      = self_warnings c'.
Proof.
  unfold PostMountedCalculator.calculate_wind_loading. intros Hrun. cbv zeta.
  apply bind_Ok in Hrun as (u & c0 & Hnew & Hrun). cbv beta zeta in Hrun.
  unfold new_warnings in Hnew. injection Hnew as _ <-.
  apply bind_Ok in Hrun as (base & c1 & Hbase & Hrun). cbv beta zeta in Hrun.
  apply bind_Ok in Hrun as (c_f & c2 & Hcf & Hrun). cbv beta zeta in Hrun.
  apply bind_Ok in Hrun as (Fp & c3 & HFp & Hrun). cbv beta zeta in Hrun.
  apply bind_Ok in Hrun as (pc & c4 & Hpc & Hrun). cbv beta zeta in Hrun.
  apply bind_Ok in Hrun as (ws & c5 & Hws & Hrun).
  unfold ret in Hrun. unfold the_warnings in Hws.
  injection Hrun as <- <-. injection Hws as <- <-.
  unfold lift in Hpc. injection Hpc as _ <-.
  exists base, c1, c_f, c2.
  split; [exact Hbase|]. split; [exact Hcf|].
  split; [|cbn; repeat split; reflexivity].
  intros Hsize. cbn.
  destruct (decide (_ > 0)) as [_|Hn]; [|contradiction].
  apply bind_Ok in HFp as (post_results & c3' & Hpost & HFp).
  unfold ret in HFp. injection HFp as <- <-.
  eexists _, _. split; [exact Hpost|]. reflexivity.
Qed.

(** C10.  In a post-mounted calculation that returns with a positive
    ['post_diameter'] [D] (mm), the force on the post is the pressure of
    the parent pipeline at half the post height, times 2.0 for a square
    post and 0.7 otherwise (circular), times the post width [D/1000] and
    the post height, over 1000; neither [c_s] nor [c_d] enters it.  The
    force on the sign panel is [q_p * c_s * c_d * c_f * A_ref / 1000] with
    the pressure at the centroid of the sign. *)
Theorem post_self_force (i : PostMountedCalculator.inputs) (c c' : calculator)
    (r : PostMountedCalculator.results loc) (D : R) :
  PostMountedCalculator.calculate_wind_loading i c = (Ok r, c') →
  PostMountedCalculator.in_post_diameter i = Some D →
  0 < D →
  let h := PostMountedCalculator.in_sign_height i in
  let z_base := PostMountedCalculator.in_sign_base_height i in
  let post_height := default (z_base + h) (PostMountedCalculator.in_post_height i) in
  let c_f_post :=
    if decide (default "circular" (PostMountedCalculator.in_post_section_type i)
               = "square") then 2.0 else 0.7 in
  let base := PostMountedCalculator.base_keys r in
  PostMountedCalculator.F_w_post r
    = peak_pressure_at i (post_height / 2) * c_f_post
      * (D / 1000 * post_height) / 1000 ∧
  PostMountedCalculator.F_w_sign r
    = WindLoadCalculator.q_p base * WindLoadCalculator.c_s base
      * WindLoadCalculator.c_d base * WindLoadCalculator.c_f base
      * WindLoadCalculator.A_ref base / 1000 ∧
  WindLoadCalculator.q_p base = peak_pressure_at i (z_base + h / 2).
Proof.
  intros Hrun HD HDpos. cbv zeta.
  destruct (post_run_parts _ _ _ _ Hrun)
    as (base & c1 & c_f & c2 & Hbase & _ & Hpost & Hq & Hs & Hd & Hf & HA & Hsign & _).
  rewrite HD in Hpost. simpl in Hpost.
  destruct Hpost as (post_results & c3 & Hpr & HFp); [lra|].
  rewrite HFp, Hq, Hs, Hd, Hf, HA, Hsign.
  rewrite (wall_run_post_pressure _ _ _ _ _ Hpr).
  rewrite (wall_run_post_pressure _ _ _ _ _ Hbase).
  repeat split; reflexivity.
Qed.

(** * The post-mounted example *)

Lemma freestanding_normal_above_5 (height depth width : R) :
  0 < depth → 5 < height / depth →
  normal (PostMountedCalculator.calculate_force_coefficient_freestanding
            height depth width)
    [Append (freestanding_hd_warning (height / depth))].
Proof.
  intros Hd Hx c.
  unfold PostMountedCalculator.calculate_force_coefficient_freestanding. cbv zeta.
  destruct (decide (depth > 0)) as [_|H]; [|exfalso; lra].
  destruct (decide (0.25 <= height / depth <= 1)) as [H|_]; [exfalso; lra|].
  destruct (decide (1 < height / depth <= 5)) as [H|_]; [exfalso; lra|].
  destruct (decide (height / depth < 0.25)) as [H|_]; [exfalso; lra|].
  eexists. reflexivity.
Qed.

Lemma wall_events_above_5 (height depth : R) :
  5 < height / depth →
  wall_events height depth
  = [Reset; Append nondirectional_warning; Append orography_warning;
     Append (wall_hd_warning (height / depth))].
Proof.
  intros Hx. unfold wall_events.
  destruct (decide (height / depth > 5)) as [_|H]; [reflexivity|exfalso; lra].
Qed.

Lemma post_example_normal :
  normal (PostMountedCalculator.calculate_wind_loading post_example)
         post_example_events.
Proof.
  unfold PostMountedCalculator.calculate_wind_loading, post_example.
  cbn [PostMountedCalculator.in_sign_width PostMountedCalculator.in_sign_height
       PostMountedCalculator.in_sign_depth PostMountedCalculator.in_sign_base_height
       PostMountedCalculator.in_site_altitude PostMountedCalculator.in_v_map
       PostMountedCalculator.in_distance_to_shore PostMountedCalculator.in_terrain_type
       PostMountedCalculator.in_distance_into_town PostMountedCalculator.in_post_diameter
       PostMountedCalculator.in_post_height PostMountedCalculator.in_post_section_type
       PostMountedCalculator.in_post_thickness PostMountedCalculator.in_post_steel_grade
       PostMountedCalculator.in_post_material PostMountedCalculator.in_embedment_depth
       PostMountedCalculator.in_foundation_type default from_option].
  unfold Datatypes.id. cbv beta zeta.
  assert (Hx : 5 < 2.0 / 0.3) by lra.
  eapply normal_eq.
  - eapply normal_bind; [apply normal_new_warnings|]. intros _.
    eapply normal_bind.
    { eapply (wall_normal _ 22.5); cbn; [reflexivity|lra|lra|left; lra]. }
    intros base_results.
    eapply normal_bind; [apply freestanding_normal_above_5; lra|]. intros c_f.
    eapply normal_bind.
    { destruct (decide (150 / 1000 > 0)) as [_|H]; [|exfalso; lra].
      eapply normal_bind.
      - eapply (wall_normal _ 22.5); cbn; [reflexivity|lra|lra|left; lra].
      - intros post_results. apply normal_ret. }
    intros F_w_post.
    eapply normal_bind.
    { match goal with
      | |- normal (lift (outcome_map Some ?o)) _ =>
          let H := fresh in
          assert (H : ∃ p, o = Ok p)
            by (apply calculate_post_stresses_returns; lra);
          destruct H as [p ->]
      end.
      apply normal_lift. }
    intros post_check.
    eapply normal_bind; [apply normal_the_warnings|]. intros ws.
    apply normal_ret.
  - cbn [WindLoadCalculator.in_sign_height WindLoadCalculator.in_sign_depth].
    rewrite !wall_events_above_5 by exact Hx. reflexivity.
Qed.

Lemma post_run_warnings (i : PostMountedCalculator.inputs) c r c' :
  PostMountedCalculator.calculate_wind_loading i c = (Ok r, c') →
  WindLoadCalculator.warnings (PostMountedCalculator.base_keys r) = self_warnings c'.
Proof.
  intros Hrun. destruct (post_run_parts _ _ _ _ Hrun)
    as (base & c1 & c_f & c2 & H). cbv zeta in H. tauto.
Qed.

Lemma post_self_force_witness :
  ∃ r c',
    PostMountedCalculator.calculate_wind_loading post_example init = (Ok r, c') ∧
    PostMountedCalculator.in_post_diameter post_example = Some 150 ∧
    0 < 150 ∧
    let i := post_example in
    let h := PostMountedCalculator.in_sign_height i in
    let z_base := PostMountedCalculator.in_sign_base_height i in
    let post_height := default (z_base + h) (PostMountedCalculator.in_post_height i) in
    let c_f_post :=
      if decide (default "circular" (PostMountedCalculator.in_post_section_type i)
                 = "square") then 2.0 else 0.7 in
    let base := PostMountedCalculator.base_keys r in
    PostMountedCalculator.F_w_post r
      = peak_pressure_at i (post_height / 2) * c_f_post
        * (150 / 1000 * post_height) / 1000 ∧
    PostMountedCalculator.F_w_sign r
      = WindLoadCalculator.q_p base * WindLoadCalculator.c_s base
        * WindLoadCalculator.c_d base * WindLoadCalculator.c_f base
        * WindLoadCalculator.A_ref base / 1000 ∧
    WindLoadCalculator.q_p base = peak_pressure_at i (z_base + h / 2).
Proof.
  destruct (post_example_normal init) as [r Hr].
  exists r, (exec post_example_events init).
  split; [exact Hr|]. split; [reflexivity|]. split; [lra|].
  apply (post_self_force post_example init _ r 150 Hr); [reflexivity|lra].
Defined.

Lemma message_not_in_returned :
  ¬ In (freestanding_hd_warning (2.0 / 0.3))
       [nondirectional_warning; orography_warning; wall_hd_warning (2.0 / 0.3)].
Proof.
  unfold freestanding_hd_warning, nondirectional_warning, orography_warning,
    wall_hd_warning, text.
  intros [H|[H|[H|[]]]]; discriminate H.
Qed.

(** C6 on the code, at the post-mounted calculator's own example (a
    3.0 x 2.0 m sign 0.3 m deep, so [h/d > 5], on a 150 mm post).  The
    call returns.  Its events rebind [self.warnings] three times, not
    once: at its start and at the start of each of the two runs of the
    parent's method.  The free-standing [h/d > 5] warning is appended
    between the second and the third rebinding, to a list that is then
    left behind: the returned ['warnings'] are the three warnings of the
    last parent run, and the free-standing warning, which sits in the
    abandoned list, is not among them. *)
Theorem post_example_loses_warning (c : calculator) :
  let lost := freestanding_hd_warning (2.0 / 0.3) in
  let returned :=
    [nondirectional_warning; orography_warning; wall_hd_warning (2.0 / 0.3)] in
  ∃ r,
    PostMountedCalculator.calculate_wind_loading post_example c
    = (Ok r, exec post_example_events c) ∧
    In (Append lost) post_example_events ∧
    count_resets post_example_events = 3%nat ∧
    deref (exec post_example_events c)
          (WindLoadCalculator.warnings (PostMountedCalculator.base_keys r))
    = returned ∧
    ¬ In lost returned ∧
    deref (exec post_example_events c)
          (self_warnings (exec post_example_events_before c))
    = returned ++ [lost].
Proof.
  cbv zeta. destruct (post_example_normal c) as [r Hr]. exists r.
  split; [exact Hr|]. split.
  { unfold post_example_events, post_example_events_before. simpl. tauto. }
  split.
  { reflexivity. }
  split; [|split].
  - rewrite (post_run_warnings _ _ _ _ Hr), deref_self.
    unfold post_example_events. rewrite exec_app.
    unfold post_example_events_after. rewrite exec_reset_current. reflexivity.
  - apply message_not_in_returned.
  - unfold post_example_events. rewrite exec_app.
    unfold post_example_events_after.
    rewrite exec_reset_frame.
    + rewrite deref_self. unfold post_example_events_before.
      rewrite exec_reset_current. reflexivity.
    + apply bound_dom. unfold post_example_events_before. apply exec_reset_bound.
Qed.

(** * The numbers of the Sheffield example *)

(** [lo <= ln (c/d) <= hi], from two certificates checked by computation. *)
Ltac ln_enclose c d ulo uhi v :=
  split;
  [ let H := fresh in
    pose proof (EnclosureFacts.ln_ge_sound 30 c d ulo v
                  ltac:(vm_compute; reflexivity)) as H; lra
  | let H := fresh in
    pose proof (EnclosureFacts.ln_le_sound 30 c d uhi v
                  ltac:(vm_compute; reflexivity)) as H; lra ].

Lemma ln_100_162 : -0.48243 <= ln (100 / 162) <= -0.48242.
Proof. ln_enclose 100%Z 162%Z (-48243)%Z (-48242)%Z 100000%Z. Qed.

Lemma ln_27_10 : 0.99325 <= ln (27 / 10) <= 0.99326.
Proof. ln_enclose 27%Z 10%Z 99325%Z 99326%Z 100000%Z. Qed.

Lemma ln_27_6 : 1.50407 <= ln (27 / 6) <= 1.50408.
Proof. ln_enclose 27%Z 6%Z 150407%Z 150408%Z 100000%Z. Qed.

Lemma ln_200_6 : 3.50655 <= ln (200 / 6) <= 3.50656.
Proof. ln_enclose 200%Z 6%Z 350655%Z 350656%Z 100000%Z. Qed.

Lemma ln_47_5 : 2.24070 <= ln (47 / 5) <= 2.24071.
Proof. ln_enclose 47%Z 5%Z 224070%Z 224071%Z 100000%Z. Qed.

Lemma ln_300_5 : 4.09434 <= ln (300 / 5) <= 4.09435.
Proof. ln_enclose 300%Z 5%Z 409434%Z 409435%Z 100000%Z. Qed.

Lemma ln_27_29 : -0.07146 <= ln (27 / 29) <= -0.07145.
Proof. ln_enclose 27%Z 29%Z (-7146)%Z (-7145)%Z 100000%Z. Qed.

Lemma exp_mono (x y : R) : x <= y → exp x <= exp y.
Proof. intros [H| <-]; [left; now apply exp_increasing | lra]. Qed.

(** [(10 / 16.2) ** 0.2] *)
Lemma sheffield_power : 0.90802 <= Rpower (100 / 162) 0.2 <= 0.90803.
Proof.
  unfold Rpower. pose proof ln_100_162 as [Hlo Hhi].
  pose proof (EnclosureFacts.exp_ge_sound 30 90802 100000 (-96486) 1000000
                ltac:(vm_compute; reflexivity)) as H1.
  pose proof (EnclosureFacts.exp_le_sound 30 90803 100000 (-96484) 1000000
                ltac:(vm_compute; reflexivity)) as H2.
  pose proof (exp_mono (-96486 / 1000000) (0.2 * ln (100 / 162)) ltac:(lra)) as H3.
  pose proof (exp_mono (0.2 * ln (100 / 162)) (-96484 / 1000000) ltac:(lra)) as H4.
  lra.
Qed.

Lemma mul_enclose (a b c d x y : R) :
  0 <= a → 0 <= c → a <= x <= b → c <= y <= d → a * c <= x * y <= b * d.
Proof. intros Ha Hc [Hx1 Hx2] [Hy1 Hy2]. split; nra. Qed.

Lemma div_enclose (a b c d x y : R) :
  0 <= a → 0 < c → a <= x <= b → c <= y <= d → a / d <= x / y <= b / c.
Proof.
  intros Ha Hc [Hx1 Hx2] [Hy1 Hy2].
  assert (Hy : 0 < y) by lra. assert (Hd : 0 < d) by lra.
  assert (Hinv : / d <= / y <= / c).
  { split; apply Rinv_le_contravar; lra. }
  assert (Hid : 0 < / d) by now apply Rinv_0_lt_compat.
  unfold Rdiv. split; nra.
Qed.

Lemma sheffield_altitude :
  1.095342 <= WindLoadCalculator.calculate_altitude_factor 105 27 <= 1.095344.
Proof.
  unfold WindLoadCalculator.calculate_altitude_factor. cbv zeta.
  destruct (decide (0.6 * 27 >= 10)) as [_|H]; [|exfalso; lra].
  replace (10 / (0.6 * 27)) with (100 / 162) by lra.
  pose proof sheffield_power. lra.
Qed.

Lemma sheffield_exposure :
  WindLoadCalculator.calculate_exposure_factor 27 0.0 100 "town"
  = (2.5 + 0.28 * ln (27 / 10), WindLoadCalculator.ZoneC).
Proof.
  unfold WindLoadCalculator.calculate_exposure_factor. cbv zeta.
  destruct (decide ("town" = "sea" ∨ 100 <= 0.1)) as [[H|H]|_];
    [discriminate H | exfalso; lra |].
  destruct (decide ("town" = "town")) as [_|H]; [|contradiction].
  assert (Hz : Rmax (27 - 0.0) 2.0 = 27).
  { unfold Rmax. destruct (Rle_dec (27 - 0.0) 2.0); lra. }
  rewrite Hz. destruct (decide (27 <= 10)) as [H|_]; [exfalso; lra|].
  reflexivity.
Qed.

Lemma sheffield_size :
  0.88665 <= WindLoadCalculator.calculate_size_factor 20 27 (27 - 0.0)
               WindLoadCalculator.ZoneC <= 0.88667.
Proof.
  unfold WindLoadCalculator.calculate_size_factor,
    WindLoadCalculator.size_factor_branch. cbv zeta.
  destruct (decide (20 + 27 <= 5)) as [H|_]; [exfalso; lra|].
  destruct (decide (20 + 27 >= 300)) as [H|_]; [exfalso; lra|].
  destruct (decide (27 - 0.0 <= 6)) as [H|_]; [exfalso; lra|].
  replace ((27 - 0.0) / 6) with (27 / 6) by lra.
  replace ((20 + 27) / 5) with (47 / 5) by lra.
  assert (H1 := div_enclose 1.50407 1.50408 3.50655 3.50656 _ _
                  ltac:(lra) ltac:(lra) ln_27_6 ln_200_6).
  assert (H2 := div_enclose 2.24070 2.24071 4.09434 4.09435 _ _
                  ltac:(lra) ltac:(lra) ln_47_5 ln_300_5).
  set (p := ln (27 / 6) / ln (200 / 6)) in *.
  set (t := ln (47 / 5) / ln (300 / 5)) in *.
  replace (1.0 + (0.75 + (0.85 - 0.75) * ln (27 / 6) / ln (200 / 6) - 1.0)
                 * ln (47 / 5) / ln (300 / 5))
    with (1 - (0.25 - 0.1 * p) * t)
    by (unfold p, t, Rdiv; replace 1.0 with 1 by lra; lra).
  assert (Hp : 0.42893 <= p <= 0.42894) by lra.
  assert (Ht : 0.54726 <= t <= 0.54728) by lra.
  assert (Hq : 0.207106 <= 0.25 - 0.1 * p <= 0.207107) by lra.
  assert (H3 := mul_enclose 0.207106 0.207107 0.54726 0.54728 _ _
                  ltac:(lra) ltac:(lra) Hq Ht).
  lra.
Qed.

Lemma sheffield_dynamic :
  WindLoadCalculator.calculate_dynamic_factor 27 20
  = Ok (1.06 + (1.10 - 1.06) * (27 / 20 - 1.0) / (2.0 - 1.0)).
Proof.
  unfold WindLoadCalculator.calculate_dynamic_factor.
  destruct (decide (27 <= 15)) as [H|_]; [exfalso; lra|].
  rewrite py_div_Ok by lra. cbn [outcome_bind].
  destruct (decide (27 / 20 <= 0.25)) as [H|_]; [exfalso; lra|].
  destruct (decide (27 / 20 >= 10.0)) as [H|_]; [exfalso; lra|].
  unfold WindLoadCalculator.table_0_08. cbn [WindLoadCalculator.interpolate].
  destruct (decide (0.25 <= 27 / 20 <= 0.5)) as [H|_]; [exfalso; lra|].
  destruct (decide (0.5 <= 27 / 20 <= 1.0)) as [H|_]; [exfalso; lra|].
  destruct (decide (1.0 <= 27 / 20 <= 2.0)) as [_|H]; [|exfalso; lra].
  reflexivity.
Qed.

Lemma sheffield_force_coefficient (c : calculator) :
  (WindLoadCalculator.calculate_force_coefficient 27 29 c).1
  = Ok (0.935 + 0.1839 * ln (27 / 29)).
Proof.
  rewrite calculate_force_coefficient_value by lra. cbv zeta.
  destruct (decide (27 / 29 > 5)) as [H|_]; [exfalso; lra|].
  destruct (decide (0.25 <= 27 / 29 <= 1)) as [_|H]; [|exfalso; lra].
  reflexivity.
Qed.

Lemma sheffield_town : WindLoadCalculator.calculate_town_correction 2 27 = 1.0 + 0.02 * 2.
Proof.
  unfold WindLoadCalculator.calculate_town_correction.
  destruct (decide (2 <= 0)) as [H|_]; [exfalso; lra|].
  destruct (decide (2 >= 4)) as [H|_]; [exfalso; lra|]. reflexivity.
Qed.

(** The entries of the Sheffield result, as enclosures. *)
Lemma sheffield_entries (r : WindLoadCalculator.results loc) :
  wall_stages sheffield r →
  WindLoadCalculator.v_map r = 22.1 ∧
  1.095342 <= WindLoadCalculator.c_alt r <= 1.095344 ∧
  WindLoadCalculator.c_dir r = 1.0 ∧
  2.77811 <= WindLoadCalculator.c_e r <= 2.778113 ∧
  WindLoadCalculator.c_e_T r = 1.04 ∧
  1037.82 <= WindLoadCalculator.q_p r <= 1037.85 ∧
  0.88665 <= WindLoadCalculator.c_s r <= 0.88667 ∧
  WindLoadCalculator.c_d r = 1.074 ∧
  0.921858 <= WindLoadCalculator.c_f r <= 0.921861 ∧
  491.96 <= WindLoadCalculator.force_kN r <= 492.00.
Proof.
  unfold wall_stages, sheffield.
  cbn [WindLoadCalculator.in_sign_width WindLoadCalculator.in_sign_height
       WindLoadCalculator.in_sign_depth WindLoadCalculator.in_building_height
       WindLoadCalculator.in_site_altitude WindLoadCalculator.in_v_map
       WindLoadCalculator.in_postcode WindLoadCalculator.in_distance_to_shore
       WindLoadCalculator.in_terrain_type WindLoadCalculator.in_distance_into_town
       WindLoadCalculator._parse_distance default from_option].
  unfold Datatypes.id. cbv zeta.
  intros (Hv & Halt & Hdir & Hce & HceT & Hqp & Hcs & Hcd & HA & Hcf & HF & HkN & _).
  destruct (decide (22.1 = 0)) as [H|_]; [exfalso; lra|].
  change (WindLoadCalculator._parse_distance (WindLoadCalculator.DNum 100))
    with 100 in Hce.
  rewrite sheffield_exposure in Hce. injection Hce as Hce Hzone.
  rewrite Hzone in Hcs.
  destruct (decide ("town" = "town" ∧ 2 > 0)) as [_|H];
    [|exfalso; apply H; split; [reflexivity|lra]].
  rewrite sheffield_town in HceT.
  rewrite sheffield_dynamic in Hcd. injection Hcd as Hcd.
  specialize (Hcf init). rewrite sheffield_force_coefficient in Hcf.
  injection Hcf as Hcf.
  pose proof sheffield_altitude as HA1. rewrite <- Halt in HA1.
  pose proof sheffield_size as HS1. rewrite <- Hcs in HS1.
  pose proof ln_27_10 as HL1. pose proof ln_27_29 as HL2.
  assert (HE : 2.77811 <= WindLoadCalculator.c_e r <= 2.778113) by lra.
  assert (HT : WindLoadCalculator.c_e_T r = 1.04) by lra.
  assert (HD : WindLoadCalculator.c_d r = 1.074) by lra.
  assert (HC : 0.921858 <= WindLoadCalculator.c_f r <= 0.921861) by lra.
  unfold WindLoadCalculator.calculate_peak_velocity_pressure in Hqp.
  unfold WindLoadCalculator.calculate_wind_force in HF. cbv zeta in Hqp.
  rewrite Hv, Hdir, HT in Hqp. rewrite HD, HA in HF.
  set (a := WindLoadCalculator.c_alt r) in *.
  set (e := WindLoadCalculator.c_e r) in *.
  set (s := WindLoadCalculator.c_s r) in *.
  set (f := WindLoadCalculator.c_f r) in *.
  set (q := WindLoadCalculator.q_p r) in *.
  assert (HV : 24.2070 <= 22.1 * a * 1.0 <= 24.2072) by lra.
  set (v := 22.1 * a * 1.0) in *.
  assert (HV2 := mul_enclose 24.2070 24.2072 24.2070 24.2072 v v
                   ltac:(lra) ltac:(lra) HV HV).
  replace (v * v) with (v ^ 2) in HV2 by ring.
  set (v2 := v ^ 2) in *.
  assert (HVE := mul_enclose (24.2070 * 24.2070) (24.2072 * 24.2072)
                   2.77811 2.778113 v2 e ltac:(lra) ltac:(lra) HV2 HE).
  assert (HQ : 1037.82 <= q <= 1037.85).
  { replace q with (0.613 * 1.04 * (v2 * e)) by (rewrite Hqp; ring). lra. }
  assert (HQS := mul_enclose 1037.82 1037.85 0.88665 0.88667 q s
                   ltac:(lra) ltac:(lra) HQ HS1).
  assert (HQSF := mul_enclose (1037.82 * 0.88665) (1037.85 * 0.88667)
                    0.921858 0.921861 (q * s) f ltac:(lra) ltac:(lra) HQS HC).
  assert (HFk : 491.96 <= WindLoadCalculator.force_kN r <= 492.00).
  { rewrite HkN, HF.
    replace (q * s * 1.074 * f * (20 * 27) / 1000)
      with (0.57996 * (q * s * f)) by lra. lra. }
  repeat split; try assumption; lra.
Qed.

(** C1.  On the Sheffield Bioincubator inputs the wall-mounted calculator
    returns, from every state, a dictionary with [v_map = 22.1],
    [c_alt] within 0.02 of 1.10, [c_dir = 1.0], [c_e * c_e_T] within 0.2 of
    2.9, [q_p] within 5% of 1058 Pa, [c_s] within 0.05 of 0.85, [c_d]
    within 0.05 of 1.03, [c_f] within 0.05 of 0.92 and the force within 8%
    of 460 kN; the values are about 1.0953, 2.8892, 1037.8 Pa, 0.8867,
    1.074, 0.9219 and 492.0 kN. *)
Theorem sheffield_golden (c : calculator) :
  ∃ r c',
    WindLoadCalculator.calculate_wind_loading sheffield c = (Ok r, c') ∧
    Rabs (WindLoadCalculator.v_map r - 22.1) < 0.1 ∧
    Rabs (WindLoadCalculator.c_alt r - 1.10) < 0.02 ∧
    WindLoadCalculator.c_dir r = 1.0 ∧
    Rabs (WindLoadCalculator.c_e r * WindLoadCalculator.c_e_T r - 2.9) < 0.2 ∧
    Rabs (WindLoadCalculator.q_p r - 1058) < 1058 * 0.05 ∧
    Rabs (WindLoadCalculator.c_s r - 0.85) < 0.05 ∧
    Rabs (WindLoadCalculator.c_d r - 1.03) < 0.05 ∧
    Rabs (WindLoadCalculator.c_f r - 0.92) < 0.05 ∧
    Rabs (WindLoadCalculator.force_kN r - 460) < 460 * 0.08 ∧
    1037.82 <= WindLoadCalculator.q_p r <= 1037.85 ∧
    491.96 <= WindLoadCalculator.force_kN r <= 492.00.
Proof.
  destruct (wall_returns sheffield) with (c := c) as (r & c' & Hrun);
    [simpl; lra | right; simpl; lra |].
  exists r, c'. split; [exact Hrun|].
  destruct (sheffield_entries r (wall_run_stages _ _ _ _ Hrun))
    as (Hv & Ha & Hdir & He & HT & Hq & Hs & Hd & Hf & HF).
  rewrite HT, Hv, Hd.
  repeat split; try assumption; try lra;
    apply Rabs_def1; lra.
Qed.

(** * Reading a run of the projecting-sign calculator *)

Lemma lift_Ok {A} (o : outcome A) c a c' : lift o c = (Ok a, c') → o = Ok a.
Proof. unfold lift. congruence. Qed.

Lemma projecting_run_stages (i : ProjectingSignCalculator.inputs) c r c' :
  ProjectingSignCalculator.calculate_wind_loading i c = (Ok r, c') →
  projecting_stages i r.
Proof.
  unfold ProjectingSignCalculator.calculate_wind_loading. intros Hrun.
  apply bind_Ok in Hrun as (u & c0 & _ & Hrun). cbv beta zeta in Hrun.
  apply bind_Ok in Hrun as (tp & c1 & Htp & Hrun). cbv beta zeta in Hrun.
  apply bind_Ok in Hrun as (c_r & c2 & Hcr & Hrun). cbv beta zeta in Hrun.
  apply bind_Ok in Hrun as (I_v & c3 & HIv & Hrun). cbv beta zeta in Hrun.
  apply bind_Ok in Hrun as (bf & c4 & Hbf & Hrun). cbv beta zeta in Hrun.
  apply bind_Ok in Hrun as (ac & c5 & Hac & Hrun). cbv beta zeta in Hrun.
  apply bind_Ok in Hrun as (bc & c6 & Hbc & Hrun). cbv beta zeta in Hrun.
  apply bind_Ok in Hrun as (dc & c7 & Hdc & Hrun). cbv beta zeta in Hrun.
  apply bind_Ok in Hrun as (ws & c8 & _ & Hrun).
  unfold ret in Hrun. injection Hrun as <- _.
  apply lift_Ok in Hcr, HIv, Hac, Hbc, Hdc.
  unfold projecting_stages. cbv zeta. exists tp.
  cbn [ProjectingSignCalculator.v_b ProjectingSignCalculator.z_eff
       ProjectingSignCalculator.c_r ProjectingSignCalculator.I_v
       ProjectingSignCalculator.v_m ProjectingSignCalculator.q_p
       ProjectingSignCalculator.c_f ProjectingSignCalculator.sign_area
       ProjectingSignCalculator.F_w_k ProjectingSignCalculator.G_Ed
       ProjectingSignCalculator.F_w_Ed ProjectingSignCalculator.bracket_forces_
       ProjectingSignCalculator.anchor_check_ ProjectingSignCalculator.bracket_check_
       ProjectingSignCalculator.deflection_check_].
  split.
  { destruct (ProjectingSignCalculator.TERRAIN_PARAMS !! _) as [p|];
      [|discriminate Htp].
    unfold ret in Htp. congruence. }
  repeat split; try reflexivity; try assumption.
  eapply Pure_value; [apply calculate_bracket_forces_Pure | exact Hbf].
Qed.

Lemma calculate_bracket_forces_value (F_w_Ed e : R) (n : Z) (s G_Ed : R) (c : calculator) :
  (2 <= n)%Z → s ≠ 0 →
  (ProjectingSignCalculator.calculate_bracket_forces F_w_Ed e n s G_Ed c).1
  = Ok (ProjectingSignCalculator.BracketForces
          (F_w_Ed / IZR n) (F_w_Ed * e) (F_w_Ed / IZR n * e) (G_Ed / IZR n)
          (F_w_Ed * e / s) (F_w_Ed * e / s + G_Ed / IZR n)).
Proof.
  intros Hn Hs. unfold ProjectingSignCalculator.calculate_bracket_forces.
  cbv zeta.
  assert (Hn' : IZR n ≠ 0).
  { apply not_0_IZR. lia. }
  rewrite !py_div_Ok by assumption.
  destruct (decide (2 <= n)%Z) as [_|H]; [|contradiction].
  reflexivity.
Qed.

Lemma calculate_anchor_utilization_value
    (V_b M_b N_v : R) (n_fix : Z) (p_v N_Rk V_Rk gamma_M : R) a :
  ProjectingSignCalculator.calculate_anchor_utilization
    V_b M_b N_v n_fix p_v N_Rk V_Rk gamma_M = Ok a →
  0 < N_Rk / gamma_M → 0 < V_Rk / gamma_M →
  ProjectingSignCalculator.eta_combined a
  = (M_b / (p_v * (IZR n_fix / 2)) + N_v / IZR n_fix) / (N_Rk / gamma_M)
    + (V_b / IZR n_fix) / (V_Rk / gamma_M).
Proof.
  unfold ProjectingSignCalculator.calculate_anchor_utilization, py_div.
  intros Ha HN HV.
  repeat (destruct (decide (_ = 0)); [discriminate|]; cbn [outcome_bind] in Ha).
  injection Ha as <-. cbn.
  destruct (decide (N_Rk / gamma_M > 0)) as [_|H]; [|exfalso; lra].
  destruct (decide (V_Rk / gamma_M > 0)) as [_|H]; [|exfalso; lra].
  reflexivity.
Qed.

Lemma terrain_III :
  ProjectingSignCalculator.TERRAIN_PARAMS !! "III"
  = Some (ProjectingSignCalculator.TerrainParams 0.3 5 0.22 "Suburban/industrial").
Proof. reflexivity. Qed.

Lemma ln_5_03 : 2.81341 <= ln (5 / 0.3) <= 2.81342.
Proof.
  replace (5 / 0.3) with (50 / 3) by lra.
  ln_enclose 50%Z 3%Z 281341%Z 281342%Z 100000%Z.
Qed.

Lemma returns_bind_ret {A B} (a : A) (g : A → M B) :
  returns (g a) → returns (bind (ret a) g).
Proof. intros Hg c. exact (Hg c). Qed.

Lemma returns_bind_lift {A B} (a : A) (g : A → M B) :
  returns (g a) → returns (bind (lift (Ok a)) g).
Proof. intros Hg c. exact (Hg c). Qed.

Lemma projecting_example_returns :
  returns (ProjectingSignCalculator.calculate_wind_loading projecting_example).
Proof.
  unfold ProjectingSignCalculator.calculate_wind_loading, projecting_example.
  cbn [ProjectingSignCalculator.in_sign_width ProjectingSignCalculator.in_sign_height
       ProjectingSignCalculator.in_projection ProjectingSignCalculator.in_mounting_height
       ProjectingSignCalculator.in_terrain_category ProjectingSignCalculator.in_v_b_0
       ProjectingSignCalculator.in_c_dir ProjectingSignCalculator.in_c_season
       ProjectingSignCalculator.in_sign_weight ProjectingSignCalculator.in_n_brackets
       ProjectingSignCalculator.in_bracket_spacing
       ProjectingSignCalculator.in_n_fixings_per_bracket
       ProjectingSignCalculator.in_fixing_pitch_vertical
       ProjectingSignCalculator.in_anchor_tension_capacity
       ProjectingSignCalculator.in_anchor_shear_capacity
       ProjectingSignCalculator.in_anchor_gamma_M
       ProjectingSignCalculator.in_bracket_width ProjectingSignCalculator.in_bracket_depth
       ProjectingSignCalculator.in_bracket_thickness
       ProjectingSignCalculator.in_bracket_steel_grade default from_option].
  unfold Datatypes.id. rewrite terrain_III. cbv beta zeta.
  apply returns_bind; [apply returns_new_warnings|]. intros _.
  apply returns_bind_ret.
  cbn [ProjectingSignCalculator.z_0 ProjectingSignCalculator.z_min
       ProjectingSignCalculator.k_r ProjectingSignCalculator.description].
  assert (Hz : Rmax 4.5 5 = 5).
  { unfold Rmax. destruct (Rle_dec 4.5 5); lra. }
  rewrite Hz. pose proof ln_5_03 as HL.
  unfold ProjectingSignCalculator.calculate_roughness_factor,
    ProjectingSignCalculator.calculate_turbulence_intensity.
  rewrite !py_div_Ok by lra. cbn [outcome_bind].
  rewrite py_div_Ok by lra.
  apply returns_bind_lift. apply returns_bind_lift.
  apply returns_bind.
  { unfold ProjectingSignCalculator.calculate_bracket_forces. cbv zeta.
    rewrite !py_div_Ok by lra.
    destruct (decide (2 <= 2)%Z) as [_|H]; [|exfalso; lia].
    repeat returns_step. }
  intros bf.
  destruct (calculate_anchor_utilization_returns
              (ProjectingSignCalculator.V_per_bracket bf)
              (ProjectingSignCalculator.M_per_bracket bf)
              (ProjectingSignCalculator.N_vertical bf) 4 0.15 12.0 8.0 1.5)
    as [a ->]; [lra|lra|lra|].
  apply returns_bind; [apply returns_lift|]. intros ac.
  destruct (calculate_bracket_stresses_returns
              (ProjectingSignCalculator.V_per_bracket bf) 0.6 80 60 5 275)
    as [b ->]; [lra|].
  apply returns_bind; [apply returns_lift|]. intros bc.
  match goal with
  | |- returns (bind (lift (ProjectingSignCalculator.calculate_deflection
                              ?F ?n ?L ?E ?I)) _) =>
      destruct (calculate_deflection_returns F n L E I) as [d ->]; [lra|]
  end.
  apply returns_bind; [apply returns_lift|]. intros dc.
  repeat returns_step.
Qed.

(** The entries of the projecting-sign example, as enclosures. *)
Lemma projecting_example_entries (r : ProjectingSignCalculator.results loc) :
  projecting_stages projecting_example r →
  0.422808 <= ProjectingSignCalculator.q_p r <= 0.422811 ∧
  2.53684 <= ProjectingSignCalculator.F_w_k r <= 2.53687 ∧
  3.80526 <= ProjectingSignCalculator.F_w_Ed r <= 3.80531 ∧
  0.56800 <= ProjectingSignCalculator.eta_combined
               (ProjectingSignCalculator.anchor_check_ r) <= 0.56802.
Proof.
  unfold projecting_stages, projecting_example.
  cbn [ProjectingSignCalculator.in_sign_width ProjectingSignCalculator.in_sign_height
       ProjectingSignCalculator.in_projection ProjectingSignCalculator.in_mounting_height
       ProjectingSignCalculator.in_terrain_category ProjectingSignCalculator.in_v_b_0
       ProjectingSignCalculator.in_c_dir ProjectingSignCalculator.in_c_season
       ProjectingSignCalculator.in_sign_weight ProjectingSignCalculator.in_n_brackets
       ProjectingSignCalculator.in_bracket_spacing
       ProjectingSignCalculator.in_n_fixings_per_bracket
       ProjectingSignCalculator.in_fixing_pitch_vertical
       ProjectingSignCalculator.in_anchor_tension_capacity
       ProjectingSignCalculator.in_anchor_shear_capacity
       ProjectingSignCalculator.in_anchor_gamma_M
       ProjectingSignCalculator.in_bracket_width ProjectingSignCalculator.in_bracket_depth
       ProjectingSignCalculator.in_bracket_thickness
       ProjectingSignCalculator.in_bracket_steel_grade default from_option].
  unfold Datatypes.id. cbv zeta.
  intros (tp & Htp & Hvb & Hz & Hcr & HIv & Hvm & Hqp & Hcf & HA & HFk & HG & HFEd
          & Hbf & Hac & _).
  rewrite terrain_III in Htp. injection Htp as <-.
  cbn [ProjectingSignCalculator.z_0 ProjectingSignCalculator.z_min
       ProjectingSignCalculator.k_r] in *.
  assert (Hz5 : Rmax 4.5 5 = 5).
  { unfold Rmax. destruct (Rle_dec 4.5 5); lra. }
  rewrite Hz5 in Hz. rewrite Hz in Hcr, HIv.
  pose proof ln_5_03 as HL.
  unfold ProjectingSignCalculator.calculate_roughness_factor in Hcr.
  unfold ProjectingSignCalculator.calculate_turbulence_intensity in HIv.
  rewrite py_div_Ok in Hcr, HIv by lra. cbn [outcome_bind] in Hcr, HIv.
  rewrite py_div_Ok in HIv by lra.
  injection Hcr as Hcr. injection HIv as HIv.
  unfold ProjectingSignCalculator.calculate_basic_wind_velocity in Hvb.
  unfold ProjectingSignCalculator.calculate_peak_pressure,
    ProjectingSignCalculator.AIR_DENSITY in Hqp. cbv zeta in Hqp.
  unfold ProjectingSignCalculator.GAMMA_Q in HFEd.
  unfold ProjectingSignCalculator.GAMMA_G_UNFAV in HG.
  set (L := ln (5 / 0.3)) in *.
  assert (HLL := mul_enclose 2.81341 2.81342 2.81341 2.81342 L L
                   ltac:(lra) ltac:(lra) HL HL).
  assert (Hq : ProjectingSignCalculator.q_p r = 15.3140625 * (L * L + 7 * L) / 1000).
  { rewrite Hqp, Hvm, Hvb, <- Hcr, <- HIv.
    assert (Hi : 1.0 / (1.0 * L) = / L) by (field; lra).
    rewrite Hi.
    assert (HLi : L * / L = 1) by (field; lra).
    set (i := / L) in *.
    replace (0.5 * 1.25 * (0.22 * L * (22.5 * 1.0 * 1.0)) ^ 2 * (1 + 7 * i) / 1000)
      with (15.3140625 * (L * L + 7 * L * (L * i)) / 1000) by (simpl; lra).
    rewrite HLi. lra. }
  assert (HQ : 0.422808 <= ProjectingSignCalculator.q_p r <= 0.422811) by lra.
  assert (HK : 2.53684 <= ProjectingSignCalculator.F_w_k r <= 2.53687).
  { rewrite HFk, Hcf, HA. lra. }
  assert (HE : 3.80526 <= ProjectingSignCalculator.F_w_Ed r <= 3.80531) by lra.
  split; [exact HQ|]. split; [exact HK|]. split; [exact HE|].
  specialize (Hbf init).
  rewrite calculate_bracket_forces_value in Hbf by (lia || lra).
  injection Hbf as Hbf. rewrite <- Hbf in Hac.
  cbn [ProjectingSignCalculator.V_per_bracket ProjectingSignCalculator.M_per_bracket
       ProjectingSignCalculator.N_vertical] in Hac.
  rewrite (calculate_anchor_utilization_value _ _ _ _ _ _ _ _ _ Hac) by lra.
  rewrite HG. set (F := ProjectingSignCalculator.F_w_Ed r) in *.
  replace ((F / 2 * 0.6 / (0.15 * (4 / 2)) + 1.35 * 0.15 / 2 / 4) / (12.0 / 1.5)
           + F / 2 / 4 / (8.0 / 1.5))
    with (0.1484375 * F + 0.0031640625) by lra.
  lra.
Qed.

(** C5 on the code, at the projecting-sign example.  The call returns.  The
    ['q_p'] entry is about 0.42281: the pressure in kN/m2, since
    [calculate_peak_pressure] divides by 1000.  Times 1000 it is the
    422.8 Pa of the claim; as returned it fails the check of
    [test_new_calculators.py], which asks for a value within 5% of 422.8.
    The forces and the anchor utilisation are as claimed: about 2.5368 kN,
    3.8053 kN and 0.5680. *)
Theorem projecting_golden (c : calculator) :
  ∃ r c',
    ProjectingSignCalculator.calculate_wind_loading projecting_example c = (Ok r, c') ∧
    0.422808 <= ProjectingSignCalculator.q_p r <= 0.422811 ∧
    Rabs (ProjectingSignCalculator.q_p r * 1000 - 422.8) < 0.02 ∧
    ¬ Rabs (ProjectingSignCalculator.q_p r - 422.8) / 422.8 < 0.05 ∧
    Rabs (ProjectingSignCalculator.F_w_k r - 2.537) < 0.001 ∧
    Rabs (ProjectingSignCalculator.F_w_Ed r - 3.806) < 0.001 ∧
    Rabs (ProjectingSignCalculator.eta_combined
            (ProjectingSignCalculator.anchor_check_ r) - 0.568) < 0.001.
Proof.
  destruct (projecting_example_returns c) as (r & c' & Hrun).
  exists r, c'. split; [exact Hrun|].
  destruct (projecting_example_entries r (projecting_run_stages _ _ _ _ Hrun))
    as (Hq & Hk & He & Ha).
  split; [exact Hq|].
  split; [apply Rabs_def1; lra|].
  split.
  { rewrite Rabs_left by lra. lra. }
  repeat split; apply Rabs_def1; lra.
Qed.

(** * One rebinding, then appends: the wall-mounted and the projecting calculator *)

Lemma Appends_ret {A} (a : A) : Appends (ret a).
Proof. exists (Ok a), []. apply runs_ret. Qed.

Lemma Appends_raise {A} (x : exn) : Appends (@raise A x).
Proof. exists (Raise x), []. apply runs_raise. Qed.

Lemma Appends_lift {A} (o : outcome A) : Appends (lift o).
Proof. exists o, []. apply runs_lift. Qed.

Lemma Appends_warn (w : message) : Appends (warn w).
Proof. exists (Ok tt), [w]. apply runs_warn. Qed.

Lemma Appends_bind {A B} (m : M A) (g : A → M B) :
  Appends m → (∀ x, Appends (g x)) → Appends (bind m g).
Proof.
  intros (a & ws1 & Hm) Hg. destruct a as [x|x].
  - destruct (Hg x) as (b & ws2 & Hgx). exists b, (ws1 ++ ws2).
    rewrite map_app. eapply runs_bind; [exact Hm|]. intros l; cbv beta. exact Hgx.
  - exists (Raise x), ws1. rewrite <- (app_nil_r (map Append ws1)).
    eapply runs_bind; [exact Hm|]. intros l; cbv beta. split; reflexivity.
Qed.

Lemma replay_appends (acc ws : list message) : replay acc (map Append ws) = acc ++ ws.
Proof.
  revert acc. induction ws as [|w ws IH]; intros acc.
  - simpl. rewrite app_nil_r. reflexivity.
  - change (replay acc (map Append (w :: ws)))
      with (replay (acc ++ [w]) (map Append ws)).
    rewrite IH, <- app_assoc. reflexivity.
Qed.

Section OneReset.
Context {T : Type → Type} `{Located T}.

Lemma OneReset_intro (m : M (T loc)) :
  (∃ (core : outcome (T unit)) (ws : list message), runs m (λ l, outcome_map (relocate (λ _, l)) core) (map Append ws)) →
  OneReset (bind new_warnings (λ _, m)).
Proof.
  intros (core & ws & Hm). exists core, ws.
  apply (runs_bind _ _ _ [Reset] _ _ runs_new_warnings). intros l; cbv beta. exact Hm.
Qed.

Lemma Appends_then_tail {A} (m : M A) (g : A → M (T loc)) :
  Appends m →
  (∀ x, ∃ (core : outcome (T unit)) (ws : list message), runs (g x) (λ l, outcome_map (relocate (λ _, l)) core)
                     (map Append ws)) →
  ∃ (core : outcome (T unit)) (ws : list message), runs (bind m g) (λ l, outcome_map (relocate (λ _, l)) core)
               (map Append ws).
Proof.
  intros (a & ws1 & Hm) Hg. destruct a as [x|x].
  - destruct (Hg x) as (core & ws2 & Hgx). exists core, (ws1 ++ ws2).
    rewrite map_app. eapply runs_bind; [exact Hm|]. intros l; cbv beta. exact Hgx.
  - exists (Raise x), ws1. rewrite <- (app_nil_r (map Append ws1)).
    eapply runs_bind; [exact Hm|]. intros l; cbv beta. split; reflexivity.
Qed.

Lemma tail_appends (F : loc → T loc) :
  (∀ l, F l = relocate (λ _, l) (relocate (λ _, tt) (F 1%positive))) →
  ∃ (core : outcome (T unit)) (ws : list message), runs (bind the_warnings (λ l, ret (F l)))
               (λ l, outcome_map (relocate (λ _, l)) core) (map Append ws).
Proof.
  intros HF. exists (Ok (relocate (λ _, tt) (F 1%positive))), [].
  intros c. unfold bind, the_warnings, ret. simpl. rewrite <- HF. reflexivity.
Qed.

(** With one rebinding at the start, the warnings read from the result are
    exactly the warnings appended during the call, in order. *)
Lemma OneReset_returns_all (m : M (T loc)) :
  (∀ (A B C : Type) (f : B → C) (g : A → B) (x : T A),
     relocate f (relocate g x) = relocate (λ a, f (g a)) x) →
  OneReset m →
  ∃ (core : outcome (T unit)) (ws : list message), ∀ c,
    (m c).2 = exec (Reset :: map Append ws) c ∧
    observe (m c).2 (m c).1 = outcome_map (relocate (λ _, ws)) core.
Proof.
  intros Hrel (core & ws & Hm). exists core, ws. intros c.
  rewrite (Hm c). cbn [fst snd]. split; [reflexivity|].
  rewrite (observe_DetReset Hrel core (map Append ws) c).
  - rewrite replay_appends. reflexivity.
  - rewrite deref_self, exec_reset_current. reflexivity.
Qed.

End OneReset.

Ltac appends_step :=
  lazymatch goal with
  | |- Appends (ret _) => apply Appends_ret
  | |- Appends (raise _) => apply Appends_raise
  | |- Appends (lift _) => apply Appends_lift
  | |- Appends (warn _) => apply Appends_warn
  | |- Appends (bind _ _) => apply Appends_bind; [|intros ?]
  | |- Appends (if ?b then _ else _) => destruct b
  | |- Appends (match ?x with _ => _ end) => destruct x
  | |- ∃ core ws, runs (bind the_warnings _) _ _ =>
      apply tail_appends; intros ?; reflexivity
  | |- ∃ core ws, runs (bind _ _) _ _ => apply Appends_then_tail; [|intros ?]
  | |- ∃ core ws, runs (if ?b then _ else _) _ _ => destruct b
  | |- ∃ core ws, runs (match ?x with _ => _ end) _ _ => destruct x
  end; cbv beta zeta.

Lemma wall_OneReset (i : WindLoadCalculator.inputs) :
  OneReset (WindLoadCalculator.calculate_wind_loading i).
Proof.
  unfold WindLoadCalculator.calculate_wind_loading.
  apply OneReset_intro. cbv beta zeta.
  unfold WindLoadCalculator.lookup_wind_speed,
    WindLoadCalculator.calculate_force_coefficient.
  repeat appends_step.
Qed.

Lemma projecting_OneReset (i : ProjectingSignCalculator.inputs) :
  OneReset (ProjectingSignCalculator.calculate_wind_loading i).
Proof.
  unfold ProjectingSignCalculator.calculate_wind_loading.
  apply OneReset_intro. cbv beta zeta.
  unfold ProjectingSignCalculator.calculate_bracket_forces.
  repeat appends_step.
Qed.

(** In the wall-mounted and in the projecting calculator the log is
    rebound once, at the start of the call, and every warning appended
    afterwards is in the list the caller reads. *)
Lemma wall_and_projecting_keep_warnings :
  (∀ i : WindLoadCalculator.inputs,
     ∃ (core : outcome (WindLoadCalculator.results unit)) ws, ∀ c,
       (WindLoadCalculator.calculate_wind_loading i c).2
       = exec (Reset :: map Append ws) c ∧
       observe (WindLoadCalculator.calculate_wind_loading i c).2
               (WindLoadCalculator.calculate_wind_loading i c).1
       = outcome_map (relocate (λ _, ws)) core) ∧
  (∀ i : ProjectingSignCalculator.inputs,
     ∃ (core : outcome (ProjectingSignCalculator.results unit)) ws, ∀ c,
       (ProjectingSignCalculator.calculate_wind_loading i c).2
       = exec (Reset :: map Append ws) c ∧
       observe (ProjectingSignCalculator.calculate_wind_loading i c).2
               (ProjectingSignCalculator.calculate_wind_loading i c).1
       = outcome_map (relocate (λ _, ws)) core).
Proof.
  split; intros i.
  - apply OneReset_returns_all; [reflexivity | apply wall_OneReset].
  - apply OneReset_returns_all; [reflexivity | apply projecting_OneReset].
Qed.

(** * The factors as functions of their arguments

    Ranges, monotonicity and the behaviour at the branch boundaries of the
    factor functions of [wind_calculator.py]. *)

Lemma div_le_1 (a b : R) : 0 < b → a <= b → a / b <= 1.
Proof.
  intros Hb Hab. apply Rmult_le_reg_r with b; [lra|].
  unfold Rdiv. rewrite Rmult_assoc, Rinv_l by lra. lra.
Qed.

Lemma div_nonneg (a b : R) : 0 <= a → 0 < b → 0 <= a / b.
Proof.
  intros Ha Hb. unfold Rdiv. apply Rmult_le_pos; [lra|].
  left. apply Rinv_0_lt_compat. lra.
Qed.

Lemma mul_nonpos (a b : R) : a <= 0 → 0 <= b → a * b <= 0.
Proof.
  intros Ha Hb. assert (0 <= (- a) * b) by (apply Rmult_le_pos; lra). lra.
Qed.

Lemma div_nonpos (a b : R) : a <= 0 → 0 < b → a / b <= 0.
Proof.
  intros Ha Hb. unfold Rdiv. apply mul_nonpos; [lra|].
  left. apply Rinv_0_lt_compat. lra.
Qed.

Lemma Rpower_le_1 (x a : R) : 0 < x <= 1 → 0 <= a → 0 < Rpower x a <= 1.
Proof.
  intros [Hx Hx1] Ha. unfold Rpower. split; [apply exp_pos|].
  rewrite <- exp_0. apply exp_mono.
  assert (ln x <= 0) by (rewrite <- ln_1; apply ln_mono; lra).
  nra.
Qed.

Lemma Rpower_mono_base (x y a : R) : 0 < x <= y → 0 <= a → Rpower x a <= Rpower y a.
Proof.
  intros [Hx Hxy] Ha. unfold Rpower. apply exp_mono.
  assert (ln x <= ln y) by (apply ln_mono; lra).
  nra.
Qed.

(** Case analysis on the first conditional of the goal. *)
Ltac case_if :=
  match goal with
  | |- context [if ?d then _ else _] => destruct d
  end.

(** X1.  The altitude factor [c_alt] is 1 at sea level; for a site at or
    above sea level it lies between 1 and [1 + 0.001 A] (the low-building
    value), it does not decrease when the altitude grows and it does not
    increase when the building gets taller. *)
Theorem altitude_factor_bounds (altitude altitude' height height' : R) :
  0 <= altitude → altitude <= altitude' → height <= height' →
  WindLoadCalculator.calculate_altitude_factor 0 height = 1 ∧
  1 <= WindLoadCalculator.calculate_altitude_factor altitude height
    <= 1 + 0.001 * altitude ∧
  WindLoadCalculator.calculate_altitude_factor altitude height
    <= WindLoadCalculator.calculate_altitude_factor altitude' height ∧
  WindLoadCalculator.calculate_altitude_factor altitude height'
    <= WindLoadCalculator.calculate_altitude_factor altitude height.
Proof.
  intros HA HA' Hh. unfold WindLoadCalculator.calculate_altitude_factor. cbv zeta.
  assert (Hp : ∀ h, 0.6 * h >= 10 → 0 < Rpower (10 / (0.6 * h)) 0.2 <= 1).
  { intros h Hz. apply Rpower_le_1; [|lra]. split.
    - apply Rdiv_lt_0_compat; lra.
    - apply div_le_1; lra. }
  repeat split.
  - destruct (decide _); lra.
  - destruct (decide _) as [Hz|Hz]; [|lra]. specialize (Hp _ Hz). nra.
  - destruct (decide _) as [Hz|Hz]; [|lra]. specialize (Hp _ Hz). nra.
  - destruct (decide _) as [Hz|Hz]; [|lra]. specialize (Hp _ Hz). nra.
  - destruct (decide (0.6 * height' >= 10)) as [Hz'|Hz'];
      destruct (decide (0.6 * height >= 10)) as [Hz|Hz]; try lra.
    + assert (Rpower (10 / (0.6 * height')) 0.2 <= Rpower (10 / (0.6 * height)) 0.2).
      { apply Rpower_mono_base; [|lra]. split.
        - apply Rdiv_lt_0_compat; lra.
        - unfold Rdiv. apply Rmult_le_compat_l; [lra|].
          apply Rinv_le_contravar; lra. }
      nra.
    + specialize (Hp _ Hz'). nra.
Qed.

Lemma altitude_factor_bounds_witness :
  WindLoadCalculator.calculate_altitude_factor 0 27 = 1 ∧
  1 <= WindLoadCalculator.calculate_altitude_factor 105 27 <= 1 + 0.001 * 105 ∧
  WindLoadCalculator.calculate_altitude_factor 105 27
    <= WindLoadCalculator.calculate_altitude_factor 200 27 ∧
  WindLoadCalculator.calculate_altitude_factor 105 40
    <= WindLoadCalculator.calculate_altitude_factor 105 27.
Proof. apply (altitude_factor_bounds 105 200 27 40); lra. Defined.

Lemma log_law_mono (a b z z' : R) :
  0 <= a → 0 < z → z <= z' →
  (if decide (z <= 10) then b else b + a * ln (z / 10))
  <= (if decide (z' <= 10) then b else b + a * ln (z' / 10)).
Proof.
  intros Ha Hz Hzz'.
  destruct (decide (z <= 10)) as [H|H]; destruct (decide (z' <= 10)) as [H'|H']; try lra.
  - assert (0 <= ln (z' / 10)) by (apply ln_nonneg; lra). nra.
  - assert (ln (z / 10) <= ln (z' / 10)) by (apply ln_mono; lra). nra.
Qed.

Lemma Rmax_2_pos (x : R) : 0 < Rmax x 2.0.
Proof. pose proof (Rmax_r x 2.0). lra. Qed.

Lemma Rmin_shore_factor (shore : R) : 0 <= shore → 0 <= Rmin (shore / 100) 1.0 <= 1.
Proof.
  intros H. split.
  - apply Rmin_glb; lra.
  - pose proof (Rmin_r (shore / 100) 1.0). lra.
Qed.

Lemma exposure_factor_flat_below_10 (h d h' d' shore : R) (terrain : string) :
  h - d <= 10 → h' - d' <= 10 →
  WindLoadCalculator.calculate_exposure_factor h d shore terrain
  = WindLoadCalculator.calculate_exposure_factor h' d' shore terrain ∧
  2.1 <= (WindLoadCalculator.calculate_exposure_factor h d shore terrain).1 <= 2.5.
Proof.
  intros H H'. unfold WindLoadCalculator.calculate_exposure_factor. cbv zeta.
  assert (Hz : Rmax (h - d) 2.0 <= 10) by (apply Rmax_lub; lra).
  assert (Hz' : Rmax (h' - d') 2.0 <= 10) by (apply Rmax_lub; lra).
  destruct (decide (Rmax (h - d) 2.0 <= 10)); [|lra].
  destruct (decide (Rmax (h' - d') 2.0 <= 10)); [|lra].
  split.
  - destruct (decide (terrain = "sea" ∨ shore <= 0.1)); [reflexivity|].
    destruct (decide (terrain = "town")); reflexivity.
  - destruct (decide (terrain = "sea" ∨ shore <= 0.1)) as [|Hs]; [simpl; lra|].
    destruct (decide (terrain = "town")); [simpl; lra|].
    destruct (decide (shore < 100)); simpl; [|lra].
    assert (0 <= Rmin (shore / 100) 1.0 <= 1).
    { apply Rmin_shore_factor.
      destruct (Rle_dec shore 0.1); [exfalso; apply Hs; right; lra | lra]. }
    nra.
Qed.

Lemma exposure_factor_mono (h h' d shore : R) (terrain : string) :
  h <= h' →
  (WindLoadCalculator.calculate_exposure_factor h d shore terrain).2
  = (WindLoadCalculator.calculate_exposure_factor h' d shore terrain).2 ∧
  (WindLoadCalculator.calculate_exposure_factor h d shore terrain).1
  <= (WindLoadCalculator.calculate_exposure_factor h' d shore terrain).1.
Proof.
  intros Hh. unfold WindLoadCalculator.calculate_exposure_factor. cbv zeta.
  split; [reflexivity|]. cbn [fst].
  pose proof (Rmax_2_pos (h - d)) as Hz.
  assert (Hzz : Rmax (h - d) 2.0 <= Rmax (h' - d) 2.0).
  { apply Rmax_lub; [|apply Rmax_r].
    apply Rle_trans with (h' - d); [lra | apply Rmax_l]. }
  set (z := Rmax (h - d) 2.0) in *. set (z' := Rmax (h' - d) 2.0) in *.
  pose proof (log_law_mono 0.20 2.5 z z' ltac:(lra) Hz Hzz) as HA.
  pose proof (log_law_mono 0.28 2.5 z z' ltac:(lra) Hz Hzz) as HC.
  pose proof (log_law_mono 0.22 2.1 z z' ltac:(lra) Hz Hzz) as HB.
  destruct (decide (terrain = "sea" ∨ shore <= 0.1)) as [|Hs]; [exact HA|].
  destruct (decide (terrain = "town")); [exact HC|].
  destruct (decide (shore < 100)); [|exact HB].
  assert (0 <= Rmin (shore / 100) 1.0 <= 1).
  { apply Rmin_shore_factor.
    destruct (Rle_dec shore 0.1); [exfalso; apply Hs; right; lra | lra]. }
  nra.
Qed.

(** X2.  The exposure factor does not decrease with the height, and the
    zone does not depend on the height at all.  Up to an effective height
    of 10 m (the floor of 2 m included) the factor does not depend on the
    height either, and lies between 2.1 and 2.5. *)
Theorem exposure_factor_monotone_in_height (h h' d shore : R) (terrain : string) :
  h <= h' →
  (WindLoadCalculator.calculate_exposure_factor h d shore terrain).2
  = (WindLoadCalculator.calculate_exposure_factor h' d shore terrain).2 ∧
  (WindLoadCalculator.calculate_exposure_factor h d shore terrain).1
  <= (WindLoadCalculator.calculate_exposure_factor h' d shore terrain).1 ∧
  (h' - d <= 10 →
   WindLoadCalculator.calculate_exposure_factor h d shore terrain
   = WindLoadCalculator.calculate_exposure_factor h' d shore terrain ∧
   2.1 <= (WindLoadCalculator.calculate_exposure_factor h d shore terrain).1 <= 2.5).
Proof.
  intros Hh. destruct (exposure_factor_mono h h' d shore terrain Hh) as [Hz Hc].
  split; [exact Hz|]. split; [exact Hc|].
  intros H10. apply exposure_factor_flat_below_10; lra.
Qed.

Lemma exposure_factor_monotone_in_height_witness :
  (WindLoadCalculator.calculate_exposure_factor 1 0 20 "country").2
  = (WindLoadCalculator.calculate_exposure_factor 8 0 20 "country").2 ∧
  (WindLoadCalculator.calculate_exposure_factor 1 0 20 "country").1
  <= (WindLoadCalculator.calculate_exposure_factor 8 0 20 "country").1 ∧
  (8 - 0 <= 10 →
   WindLoadCalculator.calculate_exposure_factor 1 0 20 "country"
   = WindLoadCalculator.calculate_exposure_factor 8 0 20 "country" ∧
   2.1 <= (WindLoadCalculator.calculate_exposure_factor 1 0 20 "country").1 <= 2.5).
Proof. apply (exposure_factor_monotone_in_height 1 8 0 20 "country"); lra. Defined.

Lemma ln_le_20 (z : R) :
  0 < z → z <= 200 → (if decide (z <= 10) then 0 else ln (z / 10)) <= 20.
Proof.
  intros Hz Hz'. destruct (decide _); [lra|].
  pose proof (ln_le_minus_1 (z / 10) ltac:(lra)). lra.
Qed.

(** X3.  Outside town terrain and up to an effective height of 200 m the
    exposure factor does not increase with the distance to the shore:
    the coastal value (Zone A) is the largest, the interpolation between
    the coast and 100 km falls towards the inland value (Zone B), and
    from 100 km on the factor is constant. *)
Theorem exposure_factor_decreases_inland (h d shore shore' : R) (terrain : string) :
  terrain ≠ "town" → h - d <= 200 → shore <= shore' →
  (WindLoadCalculator.calculate_exposure_factor h d shore' terrain).1
  <= (WindLoadCalculator.calculate_exposure_factor h d shore terrain).1.
Proof.
  intros Ht Hh Hs. unfold WindLoadCalculator.calculate_exposure_factor. cbv zeta.
  cbn [fst].
  pose proof (Rmax_2_pos (h - d)) as Hz.
  assert (Hz' : Rmax (h - d) 2.0 <= 200) by (apply Rmax_lub; lra).
  set (z := Rmax (h - d) 2.0) in *.
  pose proof (ln_le_20 z Hz Hz') as HL.
  assert (HBA : (if decide (z <= 10) then 2.1 else 2.1 + 0.22 * ln (z / 10))
                <= (if decide (z <= 10) then 2.5 else 2.5 + 0.20 * ln (z / 10))).
  { destruct (decide (z <= 10)); lra. }
  destruct (decide (terrain = "town")); [contradiction|].
  destruct (decide (terrain = "sea" ∨ shore' <= 0.1)) as [H'|H'];
    destruct (decide (terrain = "sea" ∨ shore <= 0.1)) as [H|H].
  - lra.
  - exfalso. apply H. destruct H' as [H'|H']; [left; exact H' | right; lra].
  - destruct (decide (shore' < 100)); [|exact HBA].
    assert (0 <= Rmin (shore' / 100) 1.0 <= 1).
    { apply Rmin_shore_factor.
      destruct (Rle_dec shore' 0.1); [exfalso; apply H'; right; lra | lra]. }
    nra.
  - assert (Hs0 : 0.1 < shore).
    { destruct (Rle_dec shore 0.1); [exfalso; apply H; right; lra | lra]. }
    pose proof (Rmin_shore_factor shore ltac:(lra)) as Hf.
    pose proof (Rmin_shore_factor shore' ltac:(lra)) as Hf'.
    assert (Hff : Rmin (shore / 100) 1.0 <= Rmin (shore' / 100) 1.0).
    { apply Rmin_glb; [|apply Rmin_r].
      apply Rle_trans with (shore / 100); [apply Rmin_l | lra]. }
    destruct (decide (shore' < 100)); destruct (decide (shore < 100)); try lra.
    + nra.
    + nra.
Qed.

Lemma exposure_factor_decreases_inland_witness :
  (WindLoadCalculator.calculate_exposure_factor 27 0 100 "country").1
  <= (WindLoadCalculator.calculate_exposure_factor 27 0 20 "country").1.
Proof.
  apply (exposure_factor_decreases_inland 27 0 20 100 "country");
    [discriminate | lra | lra].
Defined.

(** X4.  The town correction [c_e,T] lies between 1 and 1.08, is 1 at the
    edge of the town and before it, is 1.08 from 4 km on (where the two
    formulas meet), does not decrease with the distance into town and
    does not depend on the height. *)
Theorem town_correction_bounds (d d' height height' : R) :
  d <= d' →
  1 <= WindLoadCalculator.calculate_town_correction d height <= 1.08 ∧
  WindLoadCalculator.calculate_town_correction d height
  <= WindLoadCalculator.calculate_town_correction d' height' ∧
  (d <= 0 → WindLoadCalculator.calculate_town_correction d height = 1) ∧
  (4 <= d → WindLoadCalculator.calculate_town_correction d height = 1.08).
Proof.
  intros Hd. unfold WindLoadCalculator.calculate_town_correction.
  destruct (decide (d <= 0)); destruct (decide (d >= 4));
    destruct (decide (d' <= 0)); destruct (decide (d' >= 4));
    repeat split; intros; lra.
Qed.

Lemma town_correction_bounds_witness :
  1 <= WindLoadCalculator.calculate_town_correction 2 27 <= 1.08 ∧
  WindLoadCalculator.calculate_town_correction 2 27
  <= WindLoadCalculator.calculate_town_correction 3 10 ∧
  (2 <= 0 → WindLoadCalculator.calculate_town_correction 2 27 = 1) ∧
  (4 <= 2 → WindLoadCalculator.calculate_town_correction 2 27 = 1.08).
Proof. apply (town_correction_bounds 2 3 27 10); lra. Defined.

(** The table value of the size factor at [b + h = 300] for the zone. *)
Lemma size_factor_300_bounds (lo hi z_eff : R) :
  lo <= hi → z_eff <= 200 →
  lo <= (if decide (z_eff <= 6) then lo
         else lo + (hi - lo) * ln (z_eff / 6) / ln (200 / 6)) <= hi.
Proof.
  intros Hlh Hz. destruct (decide (z_eff <= 6)) as [H6|H6]; [lra|].
  pose proof ln_200_6_pos as Hp.
  assert (H0 : 0 <= ln (z_eff / 6)) by (apply ln_nonneg; lra).
  assert (H1 : ln (z_eff / 6) <= ln (200 / 6)) by (apply ln_mono; lra).
  assert (Hq : 0 <= ln (z_eff / 6) / ln (200 / 6) <= 1).
  { split; [apply div_nonneg; lra | apply div_le_1; lra]. }
  replace ((hi - lo) * ln (z_eff / 6) / ln (200 / 6))
    with ((hi - lo) * (ln (z_eff / 6) / ln (200 / 6))) by (unfold Rdiv; ring).
  nra.
Qed.

Lemma size_factor_weight (s : R) :
  5 < s → s < 300 → 0 <= ln (s / 5) / ln (300 / 5) <= 1.
Proof.
  intros H5 H300. pose proof ln_300_5_pos as Hp.
  assert (H0 : 0 <= ln (s / 5)) by (apply ln_nonneg; lra).
  assert (H1 : ln (s / 5) <= ln (300 / 5)) by (apply ln_mono; lra).
  split; [apply div_nonneg; lra | apply div_le_1; lra].
Qed.

Lemma size_factor_branch_bounds (lo hi s s' z_eff : R) :
  lo <= hi → hi <= 1 → z_eff <= 200 → s <= s' →
  lo <= WindLoadCalculator.size_factor_branch lo hi s z_eff <= 1 ∧
  WindLoadCalculator.size_factor_branch lo hi s' z_eff
  <= WindLoadCalculator.size_factor_branch lo hi s z_eff.
Proof.
  intros Hlh Hh1 Hz Hs.
  pose proof (size_factor_300_bounds lo hi z_eff Hlh Hz) as H300.
  unfold WindLoadCalculator.size_factor_branch. cbv zeta.
  set (c300 := if decide (z_eff <= 6) then lo
               else lo + (hi - lo) * ln (z_eff / 6) / ln (200 / 6)) in *.
  assert (Hcap : (if decide (z_eff <= 6) then lo
                  else if decide (z_eff >= 200) then hi
                  else lo + (hi - lo) * ln (z_eff / 6) / ln (200 / 6)) = c300).
  { unfold c300. destruct (decide (z_eff <= 6)); [reflexivity|].
    destruct (decide (z_eff >= 200)) as [H200|]; [|reflexivity].
    assert (z_eff = 200) as -> by lra.
    pose proof ln_200_6_pos. field. lra. }
  rewrite Hcap.
  assert (Hw : ∀ x, 5 < x → x < 300 →
               c300 <= 1.0 + (c300 - 1.0) * ln (x / 5) / ln (300 / 5) <= 1).
  { intros x H5 H3. pose proof (size_factor_weight x H5 H3) as Hq.
    replace ((c300 - 1.0) * ln (x / 5) / ln (300 / 5))
      with ((c300 - 1.0) * (ln (x / 5) / ln (300 / 5))) by (unfold Rdiv; ring).
    nra. }
  split.
  - destruct (decide (s <= 5)); [lra|].
    destruct (decide (s >= 300)); [lra|].
    specialize (Hw s ltac:(lra) ltac:(lra)). lra.
  - destruct (decide (s' <= 5)); destruct (decide (s <= 5)); try lra.
    + destruct (decide (s' >= 300)); [lra|].
      specialize (Hw s' ltac:(lra) ltac:(lra)). lra.
    + destruct (decide (s' >= 300)); destruct (decide (s >= 300)); try lra.
      * specialize (Hw s ltac:(lra) ltac:(lra)). lra.
      * pose proof ln_300_5_pos as Hp.
        assert (ln (s / 5) <= ln (s' / 5)) by (apply ln_mono; lra).
        assert (ln (s / 5) / ln (300 / 5) <= ln (s' / 5) / ln (300 / 5)).
        { unfold Rdiv. apply Rmult_le_compat_r; [|lra].
          left. apply Rinv_0_lt_compat. lra. }
        replace ((c300 - 1.0) * ln (s / 5) / ln (300 / 5))
          with ((c300 - 1.0) * (ln (s / 5) / ln (300 / 5))) by (unfold Rdiv; ring).
        replace ((c300 - 1.0) * ln (s' / 5) / ln (300 / 5))
          with ((c300 - 1.0) * (ln (s' / 5) / ln (300 / 5))) by (unfold Rdiv; ring).
        nra.
Qed.

(** X5.  Within the table's range of heights (up to 200 m) the size factor
    [c_s] lies between the zone's value for the largest sign at the lowest
    height and 1, it is 1 for signs with [b + h <= 5], and it does not
    increase when [b + h] grows. *)
Theorem size_factor_bounds (width height width' height' z_eff : R)
    (zone : WindLoadCalculator.zone) :
  z_eff <= 200 → width + height <= width' + height' →
  (match zone with
   | WindLoadCalculator.ZoneA => 0.81
   | WindLoadCalculator.ZoneB => 0.78
   | WindLoadCalculator.ZoneC => 0.75
   end) <= WindLoadCalculator.calculate_size_factor width height z_eff zone <= 1 ∧
  WindLoadCalculator.calculate_size_factor width' height' z_eff zone
  <= WindLoadCalculator.calculate_size_factor width height z_eff zone ∧
  (width + height <= 5 →
   WindLoadCalculator.calculate_size_factor width height z_eff zone = 1).
Proof.
  intros Hz Hs. unfold WindLoadCalculator.calculate_size_factor. cbv zeta.
  destruct zone.
  - destruct (size_factor_branch_bounds 0.81 0.88 _ _ z_eff
                ltac:(lra) ltac:(lra) Hz Hs) as [H1 H2].
    repeat split; try lra.
    intros H5. unfold WindLoadCalculator.size_factor_branch.
    destruct (decide _); lra.
  - destruct (size_factor_branch_bounds 0.78 0.87 _ _ z_eff
                ltac:(lra) ltac:(lra) Hz Hs) as [H1 H2].
    repeat split; try lra.
    intros H5. unfold WindLoadCalculator.size_factor_branch.
    destruct (decide _); lra.
  - destruct (size_factor_branch_bounds 0.75 0.85 _ _ z_eff
                ltac:(lra) ltac:(lra) Hz Hs) as [H1 H2].
    repeat split; try lra.
    intros H5. unfold WindLoadCalculator.size_factor_branch.
    destruct (decide _); lra.
Qed.

Lemma size_factor_bounds_witness :
  0.75 <= WindLoadCalculator.calculate_size_factor 20 27 27 WindLoadCalculator.ZoneC <= 1 ∧
  WindLoadCalculator.calculate_size_factor 30 27 27 WindLoadCalculator.ZoneC
  <= WindLoadCalculator.calculate_size_factor 20 27 27 WindLoadCalculator.ZoneC ∧
  (20 + 27 <= 5 →
   WindLoadCalculator.calculate_size_factor 20 27 27 WindLoadCalculator.ZoneC = 1).
Proof.
  apply (size_factor_bounds 20 27 30 27 27 WindLoadCalculator.ZoneC); lra.
Defined.

Lemma interpolate_table_range (x : R) :
  0.25 <= x <= 10 →
  ∃ y, WindLoadCalculator.interpolate WindLoadCalculator.table_0_08 x = Some y
       ∧ 1.02 <= y <= 1.24.
Proof.
  intros Hx. unfold WindLoadCalculator.table_0_08. cbn [WindLoadCalculator.interpolate].
  repeat (destruct (decide _) as [?H|?H]; [eexists; split; [reflexivity|lra]|]).
  lra.
Qed.

Lemma interpolate_table_mono (x x' y y' : R) :
  x <= x' →
  WindLoadCalculator.interpolate WindLoadCalculator.table_0_08 x = Some y →
  WindLoadCalculator.interpolate WindLoadCalculator.table_0_08 x' = Some y' →
  y <= y'.
Proof.
  intros Hx. unfold WindLoadCalculator.table_0_08. cbn [WindLoadCalculator.interpolate].
  repeat (destruct (decide (_ <= x <= _)) as [?H|?H]);
    intros Hy; try discriminate Hy; injection Hy as <-;
    repeat (destruct (decide (_ <= x' <= _)) as [?H|?H]);
    intros Hy'; try discriminate Hy'; injection Hy' as <-; lra.
Qed.

(** X6.  For a building above 15 m and a non-zero width the dynamic factor
    [c_d] is returned, lies between 1.02 and 1.24, does not decrease when
    [h/b] grows, and strictly between the ends of the table it is the
    value interpolated from the table: the fallback [1.1] after the loop
    is never used. *)
Theorem dynamic_factor_range_and_monotone (h w h' w' : R) :
  15 < h → 15 < h' → w ≠ 0 → w' ≠ 0 → h / w <= h' / w' →
  ∃ c_d c_d',
    WindLoadCalculator.calculate_dynamic_factor h w = Ok c_d ∧
    WindLoadCalculator.calculate_dynamic_factor h' w' = Ok c_d' ∧
    1.02 <= c_d ∧ c_d <= c_d' ∧ c_d' <= 1.24 ∧
    (0.25 < h / w < 10 →
     WindLoadCalculator.interpolate WindLoadCalculator.table_0_08 (h / w) = Some c_d).
Proof.
  intros Hh Hh' Hw Hw' Hq.
  unfold WindLoadCalculator.calculate_dynamic_factor.
  destruct (decide (h <= 15)); [lra|]. destruct (decide (h' <= 15)); [lra|].
  rewrite !py_div_Ok by assumption. cbn [outcome_bind].
  set (x := h / w) in *. set (x' := h' / w') in *.
  destruct (decide (x <= 0.25)) as [H1|H1].
  - destruct (decide (x' <= 0.25)) as [H1'|H1'];
      [|destruct (decide (x' >= 10.0)) as [H2'|H2']].
    + do 2 eexists. repeat split; try reflexivity; try lra.
    + do 2 eexists. repeat split; try reflexivity; try lra.
    + destruct (interpolate_table_range x' ltac:(lra)) as (y' & -> & Hy').
      do 2 eexists. repeat split; try reflexivity; cbn [default]; unfold Datatypes.id; lra.
  - destruct (decide (x >= 10.0)) as [H2|H2].
    + destruct (decide (x' <= 0.25)); [lra|].
      destruct (decide (x' >= 10.0)); [|lra].
      do 2 eexists. repeat split; try reflexivity; try lra.
    + destruct (interpolate_table_range x ltac:(lra)) as (y & Ey & Hy).
      destruct (decide (x' <= 0.25)); [lra|].
      destruct (decide (x' >= 10.0)) as [H2'|H2'].
      * rewrite Ey. do 2 eexists.
        repeat split; try reflexivity; cbn [default]; unfold Datatypes.id; lra.
      * destruct (interpolate_table_range x' ltac:(lra)) as (y' & Ey' & Hy').
        pose proof (interpolate_table_mono x x' y y' Hq Ey Ey').
        rewrite Ey, Ey'. do 2 eexists.
        repeat split; try reflexivity; cbn [default]; unfold Datatypes.id; lra.
Qed.

Lemma dynamic_factor_range_and_monotone_witness :
  ∃ c_d c_d',
    WindLoadCalculator.calculate_dynamic_factor 27 20 = Ok c_d ∧
    WindLoadCalculator.calculate_dynamic_factor 40 10 = Ok c_d' ∧
    1.02 <= c_d ∧ c_d <= c_d' ∧ c_d' <= 1.24 ∧
    (0.25 < 27 / 20 < 10 →
     WindLoadCalculator.interpolate WindLoadCalculator.table_0_08 (27 / 20) = Some c_d).
Proof. apply (dynamic_factor_range_and_monotone 27 20 40 10); lra. Defined.






(** * The postcode lookup *)

Lemma wind_speed_map_range (area : string) (v : R) :
  WindLoadCalculator.wind_speed_map !! area = Some v → 21.5 <= v <= 27.0.
Proof.
  unfold WindLoadCalculator.wind_speed_map. intros H.
  apply elem_of_list_to_map_2 in H.
  repeat (apply elem_of_cons in H as [H|H]; [injection H as _ ->; lra|]).
  apply elem_of_nil in H. contradiction.
Qed.

(** X8.  [lookup_wind_speed] never raises, and the speed it returns lies
    between 21.5 and 27.0 m/s.  For a postcode whose area (the letters
    among the first two characters of the upper-cased, stripped postcode)
    is in the table it returns the table's value and logs nothing; for an
    empty postcode or an unknown area it returns the default 22.0 and
    appends exactly one warning. *)
Theorem lookup_wind_speed_value (postcode : string) :
  let area := alpha_prefix2 (str_strip (str_upper postcode)) in
  ∃ v evs,
    runs (WindLoadCalculator.lookup_wind_speed postcode) (λ _, Ok v) evs ∧
    21.5 <= v <= 27.0 ∧
    ((postcode ≠ "" ∧ WindLoadCalculator.wind_speed_map !! area = Some v ∧ evs = [])
     ∨ (v = 22.0 ∧ (postcode = "" ∨ WindLoadCalculator.wind_speed_map !! area = None)
        ∧ ∃ w, evs = [Append w])).
Proof.
  intros area. unfold WindLoadCalculator.lookup_wind_speed. cbv zeta. fold area.
  destruct (decide (postcode = "")) as [E|E].
  - eexists 22.0, [Append _]. split; [intros c; reflexivity|].
    split; [lra|]. right. split; [reflexivity|]. split; [left; exact E|eauto].
  - destruct (WindLoadCalculator.wind_speed_map !! area) as [v|] eqn:Ev.
    + exists v, []. split; [intros c; reflexivity|].
      split; [exact (wind_speed_map_range area v Ev)|]. left. auto.
    + eexists 22.0, [Append _]. split; [intros c; reflexivity|].
      split; [lra|]. right. split; [reflexivity|]. split; [right; reflexivity|eauto].
Qed.

Lemma ascii_upper_idem (a : ascii) : ascii_upper (ascii_upper a) = ascii_upper a.
Proof. destruct a as [[] [] [] [] [] [] [] []]; vm_compute; reflexivity. Qed.

Lemma is_py_space_upper (a : ascii) : is_py_space (ascii_upper a) = is_py_space a.
Proof. destruct a as [[] [] [] [] [] [] [] []]; vm_compute; reflexivity. Qed.

Lemma str_upper_list (s : string) :
  list_ascii_of_string (str_upper s) = map ascii_upper (list_ascii_of_string s).
Proof. unfold str_upper. apply list_ascii_of_string_of_list_ascii. Qed.

Lemma str_upper_idem (s : string) : str_upper (str_upper s) = str_upper s.
Proof.
  unfold str_upper at 1. rewrite str_upper_list, map_map.
  unfold str_upper. f_equal. apply map_ext. intros a. apply ascii_upper_idem.
Qed.

Lemma str_upper_empty (s : string) : str_upper s = "" ↔ s = "".
Proof.
  split; [|intros ->; reflexivity].
  destruct s; [reflexivity|]. unfold str_upper. simpl. discriminate.
Qed.

Lemma lstrip_idem (l : list ascii) : lstrip (lstrip l) = lstrip l.
Proof.
  induction l as [|a l IH]; [reflexivity|]. simpl.
  destruct (is_py_space a) eqn:E; [exact IH|]. simpl. rewrite E. reflexivity.
Qed.

Lemma lstrip_upper (l : list ascii) :
  lstrip (map ascii_upper l) = map ascii_upper (lstrip l).
Proof.
  induction l as [|a l IH]; [reflexivity|]. simpl.
  rewrite is_py_space_upper. destruct (is_py_space a); [exact IH|reflexivity].
Qed.

(** [lstrip] removes a prefix of spaces, and what is left does not start
    with a space. *)
Lemma lstrip_split (l : list ascii) :
  ∃ pre, l = pre ++ lstrip l ∧ Forall (λ a, is_py_space a = true) pre.
Proof.
  induction l as [|a l (pre & E & Hpre)]; [exists []; split; [reflexivity|constructor]|].
  simpl. destruct (is_py_space a) eqn:Ea.
  - exists (a :: pre). split; [simpl; f_equal; exact E | constructor; assumption].
  - exists []. split; [reflexivity|constructor].
Qed.

Lemma lstrip_fixed (l : list ascii) :
  (∀ a, head l = Some a → is_py_space a = false) → lstrip l = l.
Proof.
  destruct l as [|a l]; [reflexivity|]. intros H. simpl.
  rewrite (H a eq_refl). reflexivity.
Qed.

Lemma lstrip_head (l : list ascii) (a : ascii) :
  head (lstrip l) = Some a → is_py_space a = false.
Proof.
  induction l as [|b l IH]; [discriminate|]. simpl.
  destruct (is_py_space b) eqn:Eb; [exact IH|].
  simpl. intros [= <-]. exact Eb.
Qed.

Lemma strip_list_idem (l : list ascii) : strip_list (strip_list l) = strip_list l.
Proof.
  unfold strip_list.
  set (m := lstrip l). set (n := lstrip (rev m)).
  assert (Hn : lstrip (rev n) = rev n).
  { apply lstrip_fixed. intros a Ha.
    destruct (lstrip_split (rev m)) as (pre & E & _). fold n in E.
    destruct (rev n) as [|b k] eqn:Ek; [discriminate|]. injection Ha as ->.
    assert (En : n = rev k ++ [a]).
    { rewrite <- (rev_involutive n), Ek. reflexivity. }
    assert (Em : m = a :: k ++ rev pre).
    { rewrite <- (rev_involutive m), E, En, !rev_app_distr, rev_involutive.
      reflexivity. }
    apply (lstrip_head l). fold m. rewrite Em. reflexivity. }
  rewrite Hn, rev_involutive. unfold n. rewrite lstrip_idem. reflexivity.
Qed.

Lemma strip_list_upper (l : list ascii) :
  strip_list (map ascii_upper l) = map ascii_upper (strip_list l).
Proof.
  unfold strip_list.
  rewrite lstrip_upper, <- map_rev, lstrip_upper, <- map_rev. reflexivity.
Qed.

Lemma str_strip_list (s : string) :
  list_ascii_of_string (str_strip s) = strip_list (list_ascii_of_string s).
Proof. unfold str_strip. apply list_ascii_of_string_of_list_ascii. Qed.

Lemma str_strip_upper (s : string) : str_strip (str_upper s) = str_upper (str_strip s).
Proof.
  unfold str_strip at 1. rewrite str_upper_list. fold (strip_list (map ascii_upper (list_ascii_of_string s))).
  rewrite strip_list_upper. unfold str_upper at 1. rewrite str_strip_list. reflexivity.
Qed.

Lemma str_strip_idem (s : string) : str_strip (str_strip s) = str_strip s.
Proof.
  unfold str_strip at 1. rewrite str_strip_list.
  fold (strip_list (strip_list (list_ascii_of_string s))).
  rewrite strip_list_idem. reflexivity.
Qed.

(** X9.  The postcode lookup does not depend on the case of the postcode:
    upper-casing it first changes neither the speed nor the warning.
    Stripping the surrounding whitespace first does not change the speed
    (for a postcode of spaces only it changes which warning is logged). *)
Theorem lookup_wind_speed_normalises (postcode : string) (c : calculator) :
  WindLoadCalculator.lookup_wind_speed (str_upper postcode) c
  = WindLoadCalculator.lookup_wind_speed postcode c ∧
  (WindLoadCalculator.lookup_wind_speed (str_strip postcode) c).1
  = (WindLoadCalculator.lookup_wind_speed postcode c).1.
Proof.
  unfold WindLoadCalculator.lookup_wind_speed. cbv zeta. split.
  - rewrite str_upper_idem.
    destruct (decide (str_upper postcode = "")) as [E|E];
      destruct (decide (postcode = "")) as [E'|E']; try reflexivity.
    + apply (proj1 (str_upper_empty _)) in E. contradiction.
    + exfalso. apply E. apply str_upper_empty. exact E'.
  - rewrite (str_strip_upper (str_strip postcode)), str_strip_idem,
      <- (str_strip_upper postcode).
    set (area := alpha_prefix2 (str_strip (str_upper postcode))).
    destruct (decide (str_strip postcode = "")) as [E|E];
      destruct (decide (postcode = "")) as [E'|E'].
    + reflexivity.
    + assert (Ea : area = "").
      { unfold area. rewrite str_strip_upper, E. reflexivity. }
      rewrite Ea. reflexivity.
    + subst postcode. exfalso. apply E. reflexivity.
    + destruct (WindLoadCalculator.wind_speed_map !! area); reflexivity.
Qed.

(** * The adequacy assessment *)

(** The next tuple the assessment builds, named. *)
Tactic Notation "name_triple" ident(c) ident(o) ident(r) ident(E) :=
  match goal with
  | |- context [match ?T with pair _ _ => _ end] =>
      destruct T as [[c o] r] eqn:E
  end; cbv beta iota.

Tactic Notation "name_quadruple" ident(a) ident(b) ident(o) ident(r) ident(E) :=
  match goal with
  | |- context [match ?T with pair _ _ => _ end] =>
      destruct T as [[[a b] o] r] eqn:E
  end; cbv beta iota.

Lemma assess_adequacy_shape {W} (r : WindLoadCalculator.results W)
    (i : WindLoadCalculator.inputs) :
  let area := WindLoadCalculator.in_sign_width i * WindLoadCalculator.in_sign_height i in
  let intensity :=
    if decide (area > 0) then WindLoadCalculator.force_kN r / area else 0 in
  let pressure := WindLoadCalculator.q_p r in
  let height := WindLoadCalculator.in_building_height i in
  ∃ c1 c2 c3 c4 recs summary,
    WindLoadCalculator.assess_adequacy r i
    = WindLoadCalculator.Assessment [c1; c2; c3; c4]
        (accumulated_status pressure intensity area height)
        (recs ++ ["This assessment is indicative only - professional structural verification required for installation"])
        summary ∧
    WindLoadCalculator.check_name c1 = "Peak Pressure" ∧
    WindLoadCalculator.check_status c1 = graded_status pressure 1200 1500 ∧
    WindLoadCalculator.check_name c2 = "Wind Force Intensity" ∧
    WindLoadCalculator.check_status c2 = graded_status intensity 1.5 2.0 ∧
    WindLoadCalculator.check_name c3 = "Sign Size Category" ∧
    WindLoadCalculator.check_status c3 = "INFO" ∧
    WindLoadCalculator.check_name c4 = "Installation Height" ∧
    WindLoadCalculator.check_status c4 = "INFO".
Proof.
  intros area intensity pressure height.
  unfold WindLoadCalculator.assess_adequacy, accumulated_status. cbv zeta.
  fold area. fold intensity. fold pressure. fold height.
  clearbody intensity. clearbody area pressure height.
  set (o1 := graded_status pressure 1200 1500).
  name_triple checks1 overall1 recs1 E1.
  assert (H1 : ∃ c1, checks1 = [c1] ∧ overall1 = o1 ∧
                     WindLoadCalculator.check_name c1 = "Peak Pressure" ∧
                     WindLoadCalculator.check_status c1 = o1).
  { subst o1. unfold graded_status.
    destruct (decide (pressure <= 1200)); [|destruct (decide (pressure <= 1500))];
      injection E1 as <- <- <-; eexists; repeat split. }
  clear E1. destruct H1 as (c1 & -> & -> & Hn1 & Hs1). clearbody o1.
  set (o2 := if decide (intensity <= 1.5) then o1 else _).
  name_triple checks2 overall2 recs2 E2.
  assert (H2 : ∃ c2, checks2 = [c1; c2] ∧ overall2 = o2 ∧
                     WindLoadCalculator.check_name c2 = "Wind Force Intensity" ∧
                     WindLoadCalculator.check_status c2 = graded_status intensity 1.5 2.0).
  { subst o2. unfold graded_status.
    destruct (decide (intensity <= 1.5)); [|destruct (decide (intensity <= 2.0))];
      injection E2 as <- <- <-; eexists; repeat split. }
  clear E2. destruct H2 as (c2 & -> & -> & Hn2 & Hs2). clearbody o2.
  set (o3 := if decide (area <= 30) then o2 else _).
  name_quadruple size_category size_message overall3 recs3 E3.
  assert (H3 : overall3 = o3).
  { subst o3. destruct (decide (area <= 6)); [|destruct (decide (area <= 15));
      [|destruct (decide (area <= 30))]]; injection E3 as <- <- <- <-;
      destruct (decide (area <= 30)); try reflexivity; lra. }
  clear E3. subst overall3. clearbody o3.
  set (o4 := if decide (height <= 20) then o3 else _).
  name_quadruple height_category height_message overall4 recs4 E4.
  assert (H4 : overall4 = o4).
  { subst o4. destruct (decide (height <= 5)); [|destruct (decide (height <= 10));
      [|destruct (decide (height <= 20))]]; injection E4 as <- <- <- <-;
      destruct (decide (height <= 20)); try reflexivity; lra. }
  clear E4. subst overall4.
  do 6 eexists. split; [reflexivity|]. cbn [app].
  repeat split; assumption || reflexivity.
Qed.

Ltac status_leaf :=
  repeat match goal with
    | |- _ ∧ _ => split
    | |- _ ↔ _ => split
    | |- _ → _ => intros ?
    | H : _ ∧ _ |- _ => destruct H
    | H : _ ∨ _ |- _ => destruct H
    end;
  first [ reflexivity | discriminate | lra | left; lra | right; lra
        | left; reflexivity | right; left; reflexivity | right; right; reflexivity ].

Lemma graded_status_cases (x pass caution : R) :
  pass <= caution →
  (graded_status x pass caution = "PASS" ∧ x <= pass)
  ∨ (graded_status x pass caution = "CAUTION" ∧ pass < x <= caution)
  ∨ (graded_status x pass caution = "FAIL" ∧ caution < x).
Proof.
  intros H. unfold graded_status.
  destruct (decide (x <= pass)); [left; split; [reflexivity|lra]|].
  destruct (decide (x <= caution)); [right; left|right; right];
    (split; [reflexivity|lra]).
Qed.

Lemma accumulated_status_cases (pressure intensity area height : R) :
  let o := accumulated_status pressure intensity area height in
  (o = "FAIL" ↔ pressure > 1500 ∨ intensity > 2.0) ∧
  (o = "PASS" ↔ pressure <= 1200 ∧ intensity <= 1.5 ∧ area <= 30 ∧ height <= 20) ∧
  (o = "PASS" ∨ o = "CAUTION" ∨ o = "FAIL").
Proof.
  intros o. subst o. unfold accumulated_status.
  generalize (graded_status_cases pressure 1200 1500 ltac:(lra)).
  generalize (graded_status pressure 1200 1500). intros o1 H1. cbv zeta.
  assert (H2 : ∃ o2, (if decide (intensity <= 1.5) then o1
                      else if decide (intensity <= 2.0) then
                        (if decide (o1 = "PASS") then "CAUTION" else o1)
                      else "FAIL") = o2 ∧
               ((o2 = "PASS" ∧ pressure <= 1200 ∧ intensity <= 1.5)
                ∨ (o2 = "CAUTION" ∧ pressure <= 1500 ∧ intensity <= 2.0
                   ∧ ¬ (pressure <= 1200 ∧ intensity <= 1.5))
                ∨ (o2 = "FAIL" ∧ (pressure > 1500 ∨ intensity > 2.0)))).
  { eexists. split; [reflexivity|].
    destruct (decide (intensity <= 1.5)); [|destruct (decide (intensity <= 2.0))];
      destruct H1 as [[-> ?]|[[-> ?]|[-> ?]]]; cbn;
      first [ left; split; [reflexivity|lra]
            | right; left; split; [reflexivity|lra]
            | right; right; split; [reflexivity|]; first [left; lra | right; lra] ]. }
  destruct H2 as (o2 & -> & H2). clear H1 o1.
  assert (H3 : ∃ o3, (if decide (area <= 30) then o2
                      else if decide (o2 ≠ "FAIL") then "CAUTION" else o2) = o3 ∧
               ((o3 = "PASS" ∧ pressure <= 1200 ∧ intensity <= 1.5 ∧ area <= 30)
                ∨ (o3 = "CAUTION" ∧ pressure <= 1500 ∧ intensity <= 2.0
                   ∧ ¬ (pressure <= 1200 ∧ intensity <= 1.5 ∧ area <= 30))
                ∨ (o3 = "FAIL" ∧ (pressure > 1500 ∨ intensity > 2.0)))).
  { eexists. split; [reflexivity|].
    destruct (decide (area <= 30));
      destruct H2 as [(-> & ?)|[(-> & ? & ? & ?)|[-> ?]]]; cbn;
      first [ left; split; [reflexivity|lra]
            | right; left; split; [reflexivity|lra]
            | right; right; split; [reflexivity|assumption] ]. }
  destruct H3 as (o3 & -> & H3). clear H2 o2.
  destruct (decide (height <= 20));
    destruct H3 as [(-> & ?)|[(-> & ? & ? & ?)|[-> ?]]]; cbn; status_leaf.
Qed.

(** X10.  [assess_adequacy] always produces the four checks "Peak
    Pressure", "Wind Force Intensity", "Sign Size Category" and
    "Installation Height", in this order, the last two with status
    "INFO"; its recommendations always end with the disclaimer.  The
    overall status is one of "PASS", "CAUTION" and "FAIL": it is "FAIL"
    exactly when the pressure exceeds 1500 Pa or the force per square
    metre exceeds 2.0 kN/m², and "PASS" exactly when the pressure is at
    most 1200 Pa, the intensity at most 1.5 kN/m², the area at most
    30 m² and the height at most 20 m. *)
Theorem assessment_overall_status {W} (r : WindLoadCalculator.results W)
    (i : WindLoadCalculator.inputs) :
  let a := WindLoadCalculator.assess_adequacy r i in
  let area := WindLoadCalculator.in_sign_width i * WindLoadCalculator.in_sign_height i in
  let intensity :=
    if decide (area > 0) then WindLoadCalculator.force_kN r / area else 0 in
  let pressure := WindLoadCalculator.q_p r in
  let height := WindLoadCalculator.in_building_height i in
  (WindLoadCalculator.overall_status a = "FAIL" ↔ pressure > 1500 ∨ intensity > 2.0) ∧
  (WindLoadCalculator.overall_status a = "PASS" ↔
     pressure <= 1200 ∧ intensity <= 1.5 ∧ area <= 30 ∧ height <= 20) ∧
  (WindLoadCalculator.overall_status a = "PASS"
   ∨ WindLoadCalculator.overall_status a = "CAUTION"
   ∨ WindLoadCalculator.overall_status a = "FAIL") ∧
  map WindLoadCalculator.check_name (WindLoadCalculator.checks a)
  = ["Peak Pressure"; "Wind Force Intensity"; "Sign Size Category";
     "Installation Height"] ∧
  map WindLoadCalculator.check_status (WindLoadCalculator.checks a)
  = [graded_status pressure 1200 1500; graded_status intensity 1.5 2.0;
     "INFO"; "INFO"] ∧
  last (WindLoadCalculator.recommendations a)
  = Some "This assessment is indicative only - professional structural verification required for installation".
Proof.
  intros a area intensity pressure height. subst a.
  destruct (assess_adequacy_shape r i)
    as (c1 & c2 & c3 & c4 & recs & summary & Ea & Hn1 & Hs1 & Hn2 & Hs2 & Hn3 & Hs3 & Hn4 & Hs4).
  rewrite Ea. clear Ea.
  fold area in Hs2. fold intensity in Hs2. fold pressure in Hs1.
  fold area. fold intensity. fold pressure. fold height.
  cbn [WindLoadCalculator.overall_status WindLoadCalculator.checks
       WindLoadCalculator.recommendations map].
  rewrite Hn1, Hn2, Hn3, Hn4, Hs1, Hs2, Hs3, Hs4, last_snoc.
  destruct (accumulated_status_cases pressure intensity area height) as (HF & HP & Hall).
  split; [exact HF|]. split; [exact HP|]. split; [exact Hall|].
  repeat split; reflexivity.
Qed.

(** * When the wall-mounted calculator fails, and what it logs *)



Lemma lookup_wind_speed_normal (postcode : string) :
  normal (WindLoadCalculator.lookup_wind_speed postcode)
         (map Append (lookup_warnings postcode)).
Proof.
  intros c. unfold WindLoadCalculator.lookup_wind_speed, lookup_warnings. cbv zeta.
  destruct (decide (postcode = "")); [eexists; reflexivity|].
  destruct (WindLoadCalculator.wind_speed_map !! _); eexists; reflexivity.
Qed.

Lemma wall_normal_warnings (i : WindLoadCalculator.inputs) :
  WindLoadCalculator.in_sign_depth i ≠ 0 →
  (WindLoadCalculator.in_building_height i <= 15
   ∨ WindLoadCalculator.in_sign_width i ≠ 0) →
  normal (WindLoadCalculator.calculate_wind_loading i)
         (Reset :: map Append (wall_warnings i)).
Proof.
  intros Hd Hw. unfold WindLoadCalculator.calculate_wind_loading.
  destruct (calculate_dynamic_factor_Ok _ _ Hw) as (c_d & ->).
  cbv beta zeta.
  eapply normal_eq.
  - eapply normal_bind; [apply normal_new_warnings|]. intros _.
    eapply (normal_bind _ _
              (map Append
                 (match WindLoadCalculator.in_v_map i with
                  | Some v => if decide (v = 0)
                              then lookup_warnings (default "" (WindLoadCalculator.in_postcode i))
                              else []
                  | None => lookup_warnings (default "" (WindLoadCalculator.in_postcode i))
                  end))).
    { destruct (WindLoadCalculator.in_v_map i) as [v|];
        [destruct (decide (v = 0))|];
        first [apply lookup_wind_speed_normal | apply normal_ret]. }
    intros v_map.
    eapply normal_bind; [apply normal_warn|]. intros _.
    destruct (WindLoadCalculator.calculate_exposure_factor _ _ _ _) as [c_e zone].
    eapply normal_bind; [apply normal_warn|]. intros _.
    eapply normal_bind; [apply normal_lift|]. intros c_d'.
    eapply normal_bind; [apply calculate_force_coefficient_normal, Hd|]. intros c_f.
    eapply normal_bind; [apply normal_the_warnings|]. intros ws.
    apply normal_ret.
  - unfold wall_warnings. cbv zeta. rewrite !map_app.
    destruct (decide (_ > 5)); simpl; rewrite ?app_nil_r; reflexivity.
Qed.

(** X12.  When the wall-mounted calculation returns, the list under
    ['warnings'] is, in order: the lookup's warning if the wind speed was
    looked up and not found, the two standing warnings (non-directional
    approach, orography not considered), and the clamping warning if
    [h/d > 5]; it has between two and four entries. *)
Theorem wall_warnings_returned (i : WindLoadCalculator.inputs) (c : calculator) :
  WindLoadCalculator.in_sign_depth i ≠ 0 →
  (WindLoadCalculator.in_building_height i <= 15
   ∨ WindLoadCalculator.in_sign_width i ≠ 0) →
  ∃ r c',
    WindLoadCalculator.calculate_wind_loading i c = (Ok r, c') ∧
    deref c' (WindLoadCalculator.warnings r) = wall_warnings i ∧
    In nondirectional_warning (wall_warnings i) ∧
    In orography_warning (wall_warnings i) ∧
    (2 <= length (wall_warnings i) <= 4)%nat.
Proof.
  intros Hd Hw. destruct (wall_normal_warnings i Hd Hw c) as [r Hr].
  exists r, (exec (Reset :: map Append (wall_warnings i)) c).
  split; [exact Hr|]. split.
  - rewrite (wall_run_warnings _ _ _ _ Hr), deref_self, exec_reset_current.
    apply replay_appends.
  - unfold wall_warnings, lookup_warnings. cbv zeta.
    repeat split.
    + apply in_or_app. right. left. reflexivity.
    + apply in_or_app. right. right. left. reflexivity.
    + rewrite !length_app. cbn [length]. lia.
    + rewrite !length_app.
      destruct (WindLoadCalculator.in_v_map i) as [v|];
        [destruct (decide (v = 0))|];
        try destruct (decide (default "" (WindLoadCalculator.in_postcode i) = ""));
        try destruct (WindLoadCalculator.wind_speed_map !! _);
        destruct (decide (_ > 5)); cbn [length]; lia.
Qed.

Lemma wall_warnings_returned_witness :
  ∃ r c',
    WindLoadCalculator.calculate_wind_loading sheffield init = (Ok r, c') ∧
    deref c' (WindLoadCalculator.warnings r) = wall_warnings sheffield ∧
    In nondirectional_warning (wall_warnings sheffield) ∧
    In orography_warning (wall_warnings sheffield) ∧
    (2 <= length (wall_warnings sheffield) <= 4)%nat.
Proof.
  apply (wall_warnings_returned sheffield init); cbn; [lra | right; lra].
Defined.

(** X13.  Outside town terrain, and in town terrain at a distance of zero
    or less, ['distance_into_town'] has no effect on the wall-mounted
    calculation: two inputs that differ in that entry only give the same
    outcome and the same log. *)
Theorem wall_ignores_distance_into_town
    (width height depth building_height altitude : R) (v_map : option R)
    (postcode : option string) (shore : option WindLoadCalculator.dist_value)
    (terrain : option string) (x x' : option R) (c : calculator) :
  default "country" terrain ≠ "town" ∨ (default 0 x <= 0 ∧ default 0 x' <= 0) →
  WindLoadCalculator.calculate_wind_loading
    (WindLoadCalculator.Inputs width height depth building_height altitude v_map
       postcode shore terrain x) c
  = WindLoadCalculator.calculate_wind_loading
      (WindLoadCalculator.Inputs width height depth building_height altitude v_map
         postcode shore terrain x') c.
Proof.
  intros H. unfold WindLoadCalculator.calculate_wind_loading.
  cbn [WindLoadCalculator.in_sign_width WindLoadCalculator.in_sign_height
       WindLoadCalculator.in_sign_depth WindLoadCalculator.in_building_height
       WindLoadCalculator.in_site_altitude WindLoadCalculator.in_v_map
       WindLoadCalculator.in_postcode WindLoadCalculator.in_distance_to_shore
       WindLoadCalculator.in_terrain_type WindLoadCalculator.in_distance_into_town].
  cbv zeta.
  destruct (decide (default "country" terrain = "town" ∧ default 0 x > 0)) as [[? ?]|_];
    [destruct H as [H|[H _]]; [contradiction|lra]|].
  destruct (decide (default "country" terrain = "town" ∧ default 0 x' > 0)) as [[? ?]|_];
    [destruct H as [H|[_ H]]; [contradiction|lra]|].
  unfold WindLoadCalculator.assess_adequacy.
  cbn [WindLoadCalculator.in_sign_width WindLoadCalculator.in_sign_height
       WindLoadCalculator.in_building_height].
  reflexivity.
Qed.

Lemma wall_ignores_distance_into_town_witness :
  WindLoadCalculator.calculate_wind_loading
    (WindLoadCalculator.Inputs 20 27 29 27 105 (Some 22.1) None
       (Some (WindLoadCalculator.DNum 100)) (Some "country") (Some 2)) init
  = WindLoadCalculator.calculate_wind_loading
      (WindLoadCalculator.Inputs 20 27 29 27 105 (Some 22.1) None
         (Some (WindLoadCalculator.DNum 100)) (Some "country") None) init.
Proof.
  apply (wall_ignores_distance_into_town 20 27 29 27 105 (Some 22.1) None
           (Some (WindLoadCalculator.DNum 100)) (Some "country") (Some 2) None init).
  left. discriminate.
Defined.

(** * The post and its foundation *)

(** X14.  The foundation status depends on the foundation type and the
    embedment depth only, not on the loads.  For a concrete foundation it
    is "INADEQUATE" below 1.0 m, "MARGINAL" from 1.0 m to below 1.5 m and
    "ADEQUATE" from 1.5 m on; for every other foundation type it is
    "REQUIRES DESIGN", with a required width of 0. *)
Theorem foundation_status_cases (M F M' F' embedment : R) (foundation_type : string) :
  let fc := PostMountedCalculator.calculate_foundation_requirements
              M F embedment foundation_type in
  PostMountedCalculator.status fc
  = PostMountedCalculator.status
      (PostMountedCalculator.calculate_foundation_requirements
         M' F' embedment foundation_type) ∧
  (PostMountedCalculator.status fc = "ADEQUATE"
   ↔ foundation_type = "concrete" ∧ 1.5 <= embedment) ∧
  (PostMountedCalculator.status fc = "MARGINAL"
   ↔ foundation_type = "concrete" ∧ 1.0 <= embedment < 1.5) ∧
  (PostMountedCalculator.status fc = "INADEQUATE"
   ↔ foundation_type = "concrete" ∧ embedment < 1.0) ∧
  (PostMountedCalculator.status fc = "REQUIRES DESIGN"
   ↔ foundation_type ≠ "concrete") ∧
  PostMountedCalculator.embedment fc = embedment ∧
  PostMountedCalculator.required_width fc
  = (if decide (foundation_type = "concrete") then sqrt (M / 50) else 0).
Proof.
  unfold PostMountedCalculator.calculate_foundation_requirements. cbv zeta.
  destruct (decide (foundation_type = "concrete")) as [E|E];
    [destruct (decide (embedment < 1.0)); [|destruct (decide (embedment < 1.5))]|];
    cbn [PostMountedCalculator.status PostMountedCalculator.embedment
         PostMountedCalculator.required_width];
    repeat split; intros;
    repeat match goal with H : _ ∧ _ |- _ => destruct H end;
    first [ reflexivity | assumption | discriminate | contradiction | lra
          | split; first [assumption | lra] ].
Qed.

Lemma post_stresses_resistance (M F size t f_y : R) (section_type material : string) p :
  PostMountedCalculator.calculate_post_stresses M F size t f_y section_type material
  = Ok p →
  PostMountedCalculator.sigma_Rd p
  = (if decide (material = "steel") then f_y / 1.0
     else if decide (material = "aluminium") then f_y / 1.1
     else f_y * 0.9 / 1.3) ∧
  PostMountedCalculator.tau_Rd p
  = (if decide (material = "steel") then f_y / sqrt 3 / 1.0
     else if decide (material = "aluminium") then f_y / sqrt 3 / 1.1
     else 4.0 * 0.9 / 1.3) ∧
  PostMountedCalculator.sigma_Ed p
  = (if decide (PostMountedCalculator.W_el p > 0)
     then M * 1000000 / PostMountedCalculator.W_el p else 999999) ∧
  PostMountedCalculator.eta_bending p
  = (if decide (PostMountedCalculator.sigma_Rd p > 0)
     then PostMountedCalculator.sigma_Ed p / PostMountedCalculator.sigma_Rd p
     else 999) ∧
  PostMountedCalculator.eta_shear p
  = (if decide (PostMountedCalculator.tau_Rd p > 0)
     then PostMountedCalculator.tau_Ed p / PostMountedCalculator.tau_Rd p
     else 999) ∧
  PostMountedCalculator.bending_status p
  = (if decide (PostMountedCalculator.eta_bending p <= 1.0) then "PASS" else "FAIL") ∧
  PostMountedCalculator.shear_status p
  = (if decide (PostMountedCalculator.eta_shear p <= 1.0) then "PASS" else "FAIL").
Proof.
  unfold PostMountedCalculator.calculate_post_stresses. cbv zeta.
  match goal with
  | |- outcome_bind ?g _ = _ → _ => destruct g as [[[I W] A]|x]
  end; cbn [outcome_bind]; [|discriminate].
  destruct (decide (material = "steel")); [|destruct (decide (material = "aluminium"))];
    intros [= <-]; cbn; repeat split; reflexivity.
Qed.

(** X15.  For the same post and a positive strength [f_y], the design
    bending resistance is [f_y] for steel, [f_y / 1.1] for aluminium and
    [0.9 f_y / 1.3] for every other material string (timber factors, with
    a shear resistance of [4.0 * 0.9 / 1.3] that does not depend on
    [f_y]): steel has the largest resistance, then aluminium, then the
    rest.  An unknown material raises no error. *)
Theorem post_resistance_by_material
    (M F size t f_y : R) (section_type material : string) :
  size ≠ 0 → 0 < f_y → material ≠ "steel" → material ≠ "aluminium" →
  ∃ st al ot,
    PostMountedCalculator.calculate_post_stresses
      M F size t f_y section_type "steel" = Ok st ∧
    PostMountedCalculator.calculate_post_stresses
      M F size t f_y section_type "aluminium" = Ok al ∧
    PostMountedCalculator.calculate_post_stresses
      M F size t f_y section_type material = Ok ot ∧
    PostMountedCalculator.sigma_Rd st = f_y ∧
    PostMountedCalculator.sigma_Rd al = f_y / 1.1 ∧
    PostMountedCalculator.sigma_Rd ot = f_y * 0.9 / 1.3 ∧
    PostMountedCalculator.tau_Rd ot = 4.0 * 0.9 / 1.3 ∧
    PostMountedCalculator.sigma_Rd ot < PostMountedCalculator.sigma_Rd al
      < PostMountedCalculator.sigma_Rd st.
Proof.
  intros Hs Hf Hm1 Hm2.
  destruct (calculate_post_stresses_returns M F size t f_y section_type "steel" Hs)
    as [st Est].
  destruct (calculate_post_stresses_returns M F size t f_y section_type "aluminium" Hs)
    as [al Eal].
  destruct (calculate_post_stresses_returns M F size t f_y section_type material Hs)
    as [ot Eot].
  destruct (post_stresses_resistance _ _ _ _ _ _ _ _ Est) as (Hst & _).
  destruct (post_stresses_resistance _ _ _ _ _ _ _ _ Eal) as (Hal & _).
  destruct (post_stresses_resistance _ _ _ _ _ _ _ _ Eot) as (Hot & Htau & _).
  revert Hst Hal Hot Htau.
  destruct (decide ("steel" = "steel")) as [_|N]; [|contradiction N; reflexivity].
  destruct (decide ("aluminium" = "steel")) as [N|_]; [discriminate N|].
  destruct (decide ("aluminium" = "aluminium")) as [_|N]; [|contradiction N; reflexivity].
  destruct (decide (material = "steel")); [contradiction|].
  destruct (decide (material = "aluminium")); [contradiction|].
  intros Hst Hal Hot Htau.
  exists st, al, ot. rewrite Hst, Hal, Hot, Htau.
  repeat split; try assumption; try reflexivity; lra.
Qed.

Lemma post_resistance_by_material_witness :
  ∃ st al ot,
    PostMountedCalculator.calculate_post_stresses
      20 5.85 150 8 275 "circular" "steel" = Ok st ∧
    PostMountedCalculator.calculate_post_stresses
      20 5.85 150 8 275 "circular" "aluminium" = Ok al ∧
    PostMountedCalculator.calculate_post_stresses
      20 5.85 150 8 275 "circular" "timber" = Ok ot ∧
    PostMountedCalculator.sigma_Rd st = 275 ∧
    PostMountedCalculator.sigma_Rd al = 275 / 1.1 ∧
    PostMountedCalculator.sigma_Rd ot = 275 * 0.9 / 1.3 ∧
    PostMountedCalculator.tau_Rd ot = 4.0 * 0.9 / 1.3 ∧
    PostMountedCalculator.sigma_Rd ot < PostMountedCalculator.sigma_Rd al
      < PostMountedCalculator.sigma_Rd st.
Proof.
  apply (post_resistance_by_material 20 5.85 150 8 275 "circular" "timber");
    [lra | lra | discriminate | discriminate].
Defined.

(** The section properties [calculate_post_stresses] computes: second
    moment of area, elastic modulus and area. *)
Lemma post_stresses_section (M F size t f_y : R) (section_type material : string) p :
  size ≠ 0 →
  PostMountedCalculator.calculate_post_stresses M F size t f_y section_type material
  = Ok p →
  let inner := if decide (material = "timber") then 0 else size - 2 * t in
  let shape := if decide (section_type = "square") then 1 / 12 else PI / 64 in
  let area := if decide (section_type = "square") then size ^ 2 - inner ^ 2
              else PI * (size ^ 2 - inner ^ 2) / 4 in
  PostMountedCalculator.I p = shape * (size ^ 4 - inner ^ 4) ∧
  PostMountedCalculator.W_el p = shape * (size ^ 4 - inner ^ 4) / (size / 2) ∧
  PostMountedCalculator.tau_Ed p
  = (if decide (area > 0) then F * 1000 / area else 999999).
Proof.
  intros Hs. unfold PostMountedCalculator.calculate_post_stresses. cbv zeta.
  assert (Hs2 : size / 2 ≠ 0) by lra.
  rewrite !py_div_Ok by exact Hs2.
  destruct (decide (material = "timber")) as [Et|Et].
  - rewrite bool_decide_eq_true_2 by exact Et.
    destruct (decide (section_type = "square")); cbn [outcome_bind];
      destruct (decide (material = "steel")); try (subst; discriminate);
      destruct (decide (material = "aluminium")); try (subst; discriminate);
      intros [= <-];
      cbn [PostMountedCalculator.I PostMountedCalculator.W_el
           PostMountedCalculator.tau_Ed];
      (split; [field|split; [field; lra|]]).
    + replace (size ^ 2 - 0 ^ 2) with (size ^ 2) by ring. reflexivity.
    + replace (PI * (size ^ 2 - 0 ^ 2) / 4) with (PI * size ^ 2 / 4) by field.
      reflexivity.
  - rewrite bool_decide_eq_false_2 by exact Et.
    destruct (decide (section_type = "square")); cbn [outcome_bind];
      (destruct (decide (material = "steel"));
       [|destruct (decide (material = "aluminium"))]);
      intros [= <-];
      cbn [PostMountedCalculator.I PostMountedCalculator.W_el
           PostMountedCalculator.tau_Ed];
      (split; [field|split; [field; lra|reflexivity]]).
Qed.



Lemma sqrt_3_gt_1 : 1 < sqrt 3.
Proof.
  rewrite <- sqrt_1 at 1. apply sqrt_lt_1_alt. lra.
Qed.

(** X17.  A hollow post with a positive size and a wall thickness of zero
    or less has a non-positive elastic modulus and area: the stresses
    take the sentinel 999999 and, for every strength below 999999 (zero
    and negative strengths included), both the bending and the shear
    status are "FAIL"; nothing is raised. *)
Theorem post_without_wall_thickness_fails
    (M F size t f_y : R) (section_type material : string) :
  0 < size → t <= 0 → material ≠ "timber" → f_y < 999999 →
  ∃ p,
    PostMountedCalculator.calculate_post_stresses
      M F size t f_y section_type material = Ok p ∧
    PostMountedCalculator.W_el p <= 0 ∧
    PostMountedCalculator.sigma_Ed p = 999999 ∧
    PostMountedCalculator.tau_Ed p = 999999 ∧
    PostMountedCalculator.bending_status p = "FAIL" ∧
    PostMountedCalculator.shear_status p = "FAIL".
Proof.
  intros Hs Ht Hm Hf.
  assert (Hs0 : size ≠ 0) by lra.
  destruct (calculate_post_stresses_returns M F size t f_y section_type material Hs0)
    as [p Ep].
  exists p. split; [exact Ep|].
  destruct (post_stresses_section _ _ _ _ _ _ _ _ Hs0 Ep) as (_ & HW & Htau).
  destruct (post_stresses_resistance _ _ _ _ _ _ _ _ Ep)
    as (HsR & HtR & HsE & Heb & Hes & Hbs & Hss).
  revert HW Htau. destruct (decide (material = "timber")); [contradiction|].
  intros HW Htau.
  assert (H2 : size ^ 2 <= (size - 2 * t) ^ 2) by nra.
  assert (H4 : size ^ 4 <= (size - 2 * t) ^ 4).
  { replace (size ^ 4) with ((size ^ 2) ^ 2) by ring.
    replace ((size - 2 * t) ^ 4) with (((size - 2 * t) ^ 2) ^ 2) by ring.
    assert (0 <= size ^ 2) by nra. nra. }
  pose proof PI_RGT_0 as Hpi.
  assert (HWle : PostMountedCalculator.W_el p <= 0).
  { rewrite HW.
    assert (HD : size ^ 4 - (size - 2 * t) ^ 4 <= 0) by lra.
    assert (Hshape : ∀ a : R, 0 < a →
              a * (size ^ 4 - (size - 2 * t) ^ 4) / (size / 2) <= 0).
    { intros a Ha. apply div_nonpos; [|lra].
      rewrite Rmult_comm. apply mul_nonpos; lra. }
    destruct (decide (section_type = "square")); apply Hshape; lra. }
  assert (HsE' : PostMountedCalculator.sigma_Ed p = 999999).
  { rewrite HsE.
    destruct (decide (PostMountedCalculator.W_el p > 0)); [lra|reflexivity]. }
  assert (Htau' : PostMountedCalculator.tau_Ed p = 999999).
  { rewrite Htau. destruct (decide (section_type = "square")); cbv iota;
      match goal with
      | |- context [decide (?x > 0)] => destruct (decide (x > 0)); [nra|reflexivity]
      end. }
  assert (HsRlt : PostMountedCalculator.sigma_Rd p < 999999).
  { rewrite HsR.
    destruct (decide (material = "steel")); [lra|].
    destruct (decide (material = "aluminium")); [|lra].
    destruct (Rle_dec f_y 0); [|lra].
    apply Rle_lt_trans with 0; [|lra].
    apply div_nonpos; lra. }
  assert (HtRlt : PostMountedCalculator.tau_Rd p < 999999).
  { rewrite HtR. pose proof sqrt_3_gt_1 as H3.
    assert (Hq : f_y / sqrt 3 < 999999).
    { destruct (Rle_dec f_y 0) as [Hn|Hp].
      - apply Rle_lt_trans with 0; [|lra].
        apply div_nonpos; lra.
      - apply Rlt_trans with f_y; [|lra].
        apply Rmult_lt_reg_r with (sqrt 3); [lra|].
        unfold Rdiv. rewrite Rmult_assoc, Rinv_l by lra. nra. }
    destruct (decide (material = "steel")); [lra|].
    destruct (decide (material = "aluminium")); [|lra].
    destruct (Rle_dec (f_y / sqrt 3) 0); [|lra].
    apply Rle_lt_trans with 0; [|lra].
    apply div_nonpos; lra. }
  assert (Hfail : ∀ Ed Rd : R, Ed = 999999 → Rd < 999999 →
            ¬ (if decide (Rd > 0) then Ed / Rd else 999) <= 1.0).
  { intros Ed Rd -> HRd. destruct (decide (Rd > 0)) as [Hp|Hn]; [|lra].
    intros Hle. apply (Rmult_le_compat_r Rd) in Hle; [|lra].
    unfold Rdiv in Hle. rewrite Rmult_assoc, Rinv_l in Hle by lra. lra. }
  repeat split; try assumption.
  - rewrite Hbs, Heb.
    match goal with
    | |- (if ?d then _ else _) = _ => destruct d as [Hle|]; [|reflexivity]
    end.
    exfalso. exact (Hfail _ _ HsE' HsRlt Hle).
  - rewrite Hss, Hes.
    match goal with
    | |- (if ?d then _ else _) = _ => destruct d as [Hle|]; [|reflexivity]
    end.
    exfalso. exact (Hfail _ _ Htau' HtRlt Hle).
Qed.

Lemma post_without_wall_thickness_fails_witness :
  ∃ p,
    PostMountedCalculator.calculate_post_stresses
      20 5.85 150 0 275 "circular" "steel" = Ok p ∧
    PostMountedCalculator.W_el p <= 0 ∧
    PostMountedCalculator.sigma_Ed p = 999999 ∧
    PostMountedCalculator.tau_Ed p = 999999 ∧
    PostMountedCalculator.bending_status p = "FAIL" ∧
    PostMountedCalculator.shear_status p = "FAIL".
Proof.
  apply (post_without_wall_thickness_fails 20 5.85 150 0 275 "circular" "steel");
    [lra | lra | discriminate | lra].
Defined.

(** * The post-mounted calculator: totals, verdict and inherited entries *)

Lemma lift_Ok_state {A} (o : outcome A) c a c' : lift o c = (Ok a, c') → o = Ok a ∧ c = c'.
Proof. unfold lift. intros [= -> ->]. split; reflexivity. Qed.

(** A run of the post-mounted [calculate_wind_loading] that returns, split
    at its calls: the parent's method, the free-standing coefficient, the
    post branch and the stress check. *)
Ltac open_post_run Hrun :=
  unfold PostMountedCalculator.calculate_wind_loading in Hrun;
  apply bind_Ok in Hrun as (u & c0 & Hnew & Hrun); cbv beta zeta in Hrun;
  unfold new_warnings in Hnew; injection Hnew as _ <-;
  apply bind_Ok in Hrun as (base & c1 & Hbase & Hrun); cbv beta zeta in Hrun;
  apply bind_Ok in Hrun as (c_f & c2 & Hcf & Hrun); cbv beta zeta in Hrun;
  apply bind_Ok in Hrun as (Fp & c3 & HFp & Hrun); cbv beta zeta in Hrun;
  apply bind_Ok in Hrun as (pc & c4 & Hpc & Hrun); cbv beta zeta in Hrun;
  apply bind_Ok in Hrun as (ws & c5 & Hws & Hrun);
  unfold ret in Hrun; unfold the_warnings in Hws;
  injection Hrun as <- <-; injection Hws as <- <-;
  apply lift_Ok_state in Hpc; destruct Hpc as [Hpc <-].

Lemma calculate_post_stresses_returns_timber
    (M F size_out t f_y : R) (section_type : string) :
  ∃ p, PostMountedCalculator.calculate_post_stresses
         M F size_out t f_y section_type "timber" = Ok p.
Proof.
  unfold PostMountedCalculator.calculate_post_stresses.
  destruct (decide (section_type = "square")); cbn; eauto.
Qed.

Lemma freestanding_returns (height depth width : R) :
  returns (PostMountedCalculator.calculate_force_coefficient_freestanding
             height depth width).
Proof.
  unfold PostMountedCalculator.calculate_force_coefficient_freestanding.
  cbv zeta. repeat returns_step.
Qed.

Lemma post_returns_when (i : PostMountedCalculator.inputs) :
  let b := PostMountedCalculator.in_sign_width i in
  let h := PostMountedCalculator.in_sign_height i in
  let z_base := PostMountedCalculator.in_sign_base_height i in
  let post_height := default (z_base + h) (PostMountedCalculator.in_post_height i) in
  PostMountedCalculator.in_sign_depth i ≠ 0 →
  (b ≠ 0 ∨ (z_base + h / 2 <= 15 ∧ post_height / 2 <= 15)) →
  (∀ D, PostMountedCalculator.in_post_diameter i = Some D →
        D ≠ 0 ∨ PostMountedCalculator.in_post_material i = Some "timber"
        ∨ PostMountedCalculator.in_post_thickness i = None) →
  returns (PostMountedCalculator.calculate_wind_loading i).
Proof.
  intros b h z_base post_height Hd Hb HD.
  unfold PostMountedCalculator.calculate_wind_loading. cbv beta zeta.
  apply returns_bind; [apply returns_new_warnings|]. intros _.
  apply returns_bind.
  { apply wall_returns; cbn; [exact Hd|].
    destruct Hb as [Hb|[Hb _]]; [right; exact Hb|left; exact Hb]. }
  intros base. apply returns_bind; [apply freestanding_returns|]. intros c_f.
  apply returns_bind.
  { destruct (decide (_ > 0)).
    - apply returns_bind; [|intros ?; apply returns_ret].
      apply wall_returns; cbn; [exact Hd|].
      destruct Hb as [Hb|[_ Hb]]; [right; exact Hb|left; exact Hb].
    - repeat returns_step. }
  intros F_w_post. apply returns_bind.
  { destruct (PostMountedCalculator.in_post_diameter i) as [D|] eqn:ED;
      [|apply returns_lift].
    destruct (PostMountedCalculator.in_post_thickness i) as [t|] eqn:Et;
      [|apply returns_lift].
    destruct (HD D eq_refl) as [HD0|[Hm|Hm]]; [| |discriminate Hm].
    - match goal with
      | |- returns (lift (outcome_map Some
             (PostMountedCalculator.calculate_post_stresses ?M ?F ?s ?t ?f ?st ?m))) =>
          destruct (calculate_post_stresses_returns M F s t f st m HD0) as [p ->]
      end.
      apply returns_lift.
    - rewrite Hm. change (default "steel" (Some "timber")) with "timber".
      match goal with
      | |- returns (lift (outcome_map Some
             (PostMountedCalculator.calculate_post_stresses ?M ?F ?s ?t ?f ?st _))) =>
          destruct (calculate_post_stresses_returns_timber M F s t f st) as [p ->]
      end.
      apply returns_lift. }
  intros post_check. repeat returns_step.
Qed.

Lemma sign_only_example_returns :
  returns (PostMountedCalculator.calculate_wind_loading sign_only_example).
Proof.
  apply post_returns_when; cbn.
  - lra.
  - left. lra.
  - intros D [=].
Qed.



Lemma wall_run_bound (i : WindLoadCalculator.inputs) c o c' :
  WindLoadCalculator.calculate_wind_loading i c = (o, c') → bound c'.
Proof.
  destruct (wall_OneReset i) as (core & ws & Hruns). rewrite (Hruns c).
  intros [= _ <-]. apply exec_reset_bound.
Qed.

Lemma freestanding_run_bound (height depth width : R) c o c' :
  PostMountedCalculator.calculate_force_coefficient_freestanding height depth width c
  = (o, c') →
  bound c → bound c'.
Proof.
  destruct (calculate_force_coefficient_freestanding_Pure height depth width)
    as (a & evs & Hruns).
  rewrite (Hruns c). intros [= _ <-]. apply exec_bound.
Qed.

(** X19.  Without a positive post diameter (the entry is missing, zero or
    negative) a post-mounted calculation that returns neglects the post:
    the force and the moment of the post are 0, the totals are those of
    the sign, and the last warning of the returned list says that the
    post wind force was neglected. *)
Theorem post_without_diameter (i : PostMountedCalculator.inputs) (c c' : calculator)
    (r : PostMountedCalculator.results loc) :
  PostMountedCalculator.calculate_wind_loading i c = (Ok r, c') →
  default 0 (PostMountedCalculator.in_post_diameter i) <= 0 →
  let base := PostMountedCalculator.base_keys r in
  PostMountedCalculator.F_w_post r = 0 ∧
  PostMountedCalculator.M_post r = 0 ∧
  PostMountedCalculator.M_total r = PostMountedCalculator.M_sign r ∧
  WindLoadCalculator.force_kN base = PostMountedCalculator.F_w_sign r ∧
  last (deref c' (WindLoadCalculator.warnings base)) = Some post_not_specified_warning.
Proof.
  intros Hrun HD. open_post_run Hrun.
  destruct (decide (_ > 0)) as [Hpos|_] in HFp; [exfalso; lra|].
  apply bind_Ok in HFp as (u' & c3' & Hwarn & HFp).
  unfold ret in HFp. injection HFp as <- <-.
  assert (Hc3 : c3' = step (Append post_not_specified_warning) c2)
    by (unfold warn in Hwarn; injection Hwarn as _ <-; reflexivity).
  clear Hwarn. subst c3'.
  cbn [PostMountedCalculator.base_keys PostMountedCalculator.F_w_post
       PostMountedCalculator.M_post PostMountedCalculator.M_total
       PostMountedCalculator.M_sign PostMountedCalculator.F_w_sign
       WindLoadCalculator.force_kN WindLoadCalculator.warnings].
  destruct (decide (0 > 0)) as [H0|_]; [exfalso; lra|].
  repeat split; try ring.
  rewrite deref_self, step_current.
  - simpl. apply last_snoc.
  - right. eapply freestanding_run_bound; [exact Hcf|].
    eapply wall_run_bound, Hbase.
Qed.

Lemma post_without_diameter_witness :
  ∃ r c',
    PostMountedCalculator.calculate_wind_loading sign_only_example init = (Ok r, c') ∧
    let base := PostMountedCalculator.base_keys r in
    PostMountedCalculator.F_w_post r = 0 ∧
    PostMountedCalculator.M_post r = 0 ∧
    PostMountedCalculator.M_total r = PostMountedCalculator.M_sign r ∧
    WindLoadCalculator.force_kN base = PostMountedCalculator.F_w_sign r ∧
    last (deref c' (WindLoadCalculator.warnings base)) = Some post_not_specified_warning.
Proof.
  destruct (sign_only_example_returns init) as (r & c' & Hr).
  exists r, c'. split; [exact Hr|].
  apply (post_without_diameter sign_only_example init c' r Hr). cbn. lra.
Defined.

(** X20.  The verdict of the post-mounted calculation looks at the bending
    check of the post and at the foundation only: ['overall_pass'] holds
    exactly when the post check, if there is one, has bending status
    "PASS" and the foundation check, if there is one, has status
    "ADEQUATE" (the shear status of the post does not enter);
    ['overall_status'] is "ADEQUATE" then and "REQUIRES REVIEW"
    otherwise.  There is a post check exactly when both the diameter and
    the thickness are given, and a foundation check exactly when the
    embedment depth is given. *)
Theorem post_overall_status (i : PostMountedCalculator.inputs) (c c' : calculator)
    (r : PostMountedCalculator.results loc) :
  PostMountedCalculator.calculate_wind_loading i c = (Ok r, c') →
  (PostMountedCalculator.overall_pass r = true
   ↔ (∀ pc, PostMountedCalculator.post_check_ r = Some pc →
             PostMountedCalculator.bending_status pc = "PASS") ∧
     (∀ fc, PostMountedCalculator.foundation_check_ r = Some fc →
             PostMountedCalculator.status fc = "ADEQUATE")) ∧
  PostMountedCalculator.overall_status r
  = (if PostMountedCalculator.overall_pass r then "ADEQUATE" else "REQUIRES REVIEW") ∧
  (PostMountedCalculator.post_check_ r = None
   ↔ PostMountedCalculator.in_post_diameter i = None
     ∨ PostMountedCalculator.in_post_thickness i = None) ∧
  (PostMountedCalculator.foundation_check_ r = None
   ↔ PostMountedCalculator.in_embedment_depth i = None).
Proof.
  intros Hrun. open_post_run Hrun.
  cbn [PostMountedCalculator.overall_pass PostMountedCalculator.overall_status
       PostMountedCalculator.post_check_ PostMountedCalculator.foundation_check_].
  split; [|split; [reflexivity|split]].
  - destruct pc as [p|];
      destruct (PostMountedCalculator.in_embedment_depth i) as [e|];
      cbn [andb]; rewrite ?andb_true_iff, ?bool_decide_eq_true; split.
    + intros [Hb Hf]. split; [intros ? [= <-]; exact Hb | intros ? [= <-]; exact Hf].
    + intros [Hb Hf]. split; [apply Hb; reflexivity | apply Hf; reflexivity].
    + intros Hb. split; [intros ? [= <-]; exact Hb | intros ? [=]].
    + intros [Hb _]. apply Hb. reflexivity.
    + intros Hf. split; [intros ? [=] | intros ? [= <-]; exact Hf].
    + intros [_ Hf]. apply Hf. reflexivity.
    + intros _. split; intros ? [=].
    + intros _. reflexivity.
  - destruct (PostMountedCalculator.in_post_diameter i) as [D|];
      [destruct (PostMountedCalculator.in_post_thickness i) as [t|]|].
    + destruct (PostMountedCalculator.calculate_post_stresses _ _ _ _ _ _ _);
        [|discriminate]. injection Hpc as <-.
      split; [discriminate | intros [H|H]; discriminate].
    + injection Hpc as <-. split; [right|]; reflexivity.
    + injection Hpc as <-. split; [left|]; reflexivity.
  - destruct (PostMountedCalculator.in_embedment_depth i);
      split; try discriminate; reflexivity.
Qed.

Lemma post_overall_status_witness :
  ∃ r c',
    PostMountedCalculator.calculate_wind_loading post_example init = (Ok r, c') ∧
    (PostMountedCalculator.overall_pass r = true
     ↔ (∀ pc, PostMountedCalculator.post_check_ r = Some pc →
               PostMountedCalculator.bending_status pc = "PASS") ∧
       (∀ fc, PostMountedCalculator.foundation_check_ r = Some fc →
               PostMountedCalculator.status fc = "ADEQUATE")) ∧
    PostMountedCalculator.overall_status r
    = (if PostMountedCalculator.overall_pass r then "ADEQUATE" else "REQUIRES REVIEW") ∧
    (PostMountedCalculator.post_check_ r = None
     ↔ PostMountedCalculator.in_post_diameter post_example = None
       ∨ PostMountedCalculator.in_post_thickness post_example = None) ∧
    (PostMountedCalculator.foundation_check_ r = None
     ↔ PostMountedCalculator.in_embedment_depth post_example = None).
Proof.
  destruct (post_example_normal init) as [r Hr].
  exists r, (exec post_example_events init). split; [exact Hr|].
  exact (post_overall_status post_example init _ r Hr).
Defined.



(** * The checks of the projecting-sign calculator *)



Lemma anchor_check_ratios
    (V_b M_b N_v : R) (n_fix : Z) (p_v N_Rk V_Rk gamma_M : R) a :
  ProjectingSignCalculator.calculate_anchor_utilization
    V_b M_b N_v n_fix p_v N_Rk V_Rk gamma_M = Ok a →
  IZR n_fix ≠ 0 ∧ p_v * (IZR n_fix / 2) ≠ 0 ∧ gamma_M ≠ 0 ∧
  ProjectingSignCalculator.N_Ed a
  = M_b / (p_v * (IZR n_fix / 2)) + N_v / IZR n_fix ∧
  ProjectingSignCalculator.V_Ed a = V_b / IZR n_fix ∧
  ProjectingSignCalculator.N_Rd a = N_Rk / gamma_M ∧
  ProjectingSignCalculator.V_Rd a = V_Rk / gamma_M ∧
  ProjectingSignCalculator.eta_tension a
  = (if decide (ProjectingSignCalculator.N_Rd a > 0)
     then ProjectingSignCalculator.N_Ed a / ProjectingSignCalculator.N_Rd a else 999) ∧
  ProjectingSignCalculator.eta_shear a
  = (if decide (ProjectingSignCalculator.V_Rd a > 0)
     then ProjectingSignCalculator.V_Ed a / ProjectingSignCalculator.V_Rd a else 999) ∧
  ProjectingSignCalculator.eta_combined a
  = ProjectingSignCalculator.eta_tension a + ProjectingSignCalculator.eta_shear a ∧
  ProjectingSignCalculator.tension_status a
  = (if decide (ProjectingSignCalculator.eta_tension a <= 1.0) then "PASS" else "FAIL") ∧
  ProjectingSignCalculator.shear_status a
  = (if decide (ProjectingSignCalculator.eta_shear a <= 1.0) then "PASS" else "FAIL") ∧
  ProjectingSignCalculator.combined_status a
  = (if decide (ProjectingSignCalculator.eta_combined a <= 1.0) then "PASS" else "FAIL").
Proof.
  unfold ProjectingSignCalculator.calculate_anchor_utilization, py_div. intros Ha.
  destruct (decide (IZR n_fix = 0)); [discriminate|]. cbn [outcome_bind] in Ha.
  destruct (decide (p_v * (IZR n_fix / 2) = 0)); [discriminate|].
  cbn [outcome_bind] in Ha.
  destruct (decide (gamma_M = 0)); [discriminate|]. cbn [outcome_bind] in Ha.
  injection Ha as <-. cbn. repeat split; assumption || reflexivity.
Qed.

(** X23.  For non-negative loads on a bracket with a positive number of
    fixings and a positive pitch, the tension and shear utilisations of
    the anchors are non-negative and each is at most the combined
    utilisation (their sum): when the combined check passes, the tension
    check and the shear check pass as well. *)
Theorem anchor_combined_governs
    (V_b M_b N_v : R) (n_fix : Z) (p_v N_Rk V_Rk gamma_M : R)
    (a : ProjectingSignCalculator.anchor_check) :
  ProjectingSignCalculator.calculate_anchor_utilization
    V_b M_b N_v n_fix p_v N_Rk V_Rk gamma_M = Ok a →
  0 <= V_b → 0 <= M_b → 0 <= N_v → (0 < n_fix)%Z → 0 < p_v →
  0 <= ProjectingSignCalculator.eta_tension a ∧
  0 <= ProjectingSignCalculator.eta_shear a ∧
  ProjectingSignCalculator.eta_tension a <= ProjectingSignCalculator.eta_combined a ∧
  ProjectingSignCalculator.eta_shear a <= ProjectingSignCalculator.eta_combined a ∧
  (ProjectingSignCalculator.combined_status a = "PASS" →
   ProjectingSignCalculator.tension_status a = "PASS" ∧
   ProjectingSignCalculator.shear_status a = "PASS").
Proof.
  intros Ha HV HM HN Hn Hp.
  destruct (anchor_check_ratios _ _ _ _ _ _ _ _ _ Ha)
    as (_ & _ & _ & HNEd & HVEd & _ & _ & Het & Hes & Hec & Hts & Hss & Hcs).
  assert (Hn' : 0 < IZR n_fix) by (apply IZR_lt; exact Hn).
  assert (H0 : 0 <= ProjectingSignCalculator.N_Ed a).
  { rewrite HNEd.
    assert (0 <= M_b / (p_v * (IZR n_fix / 2))) by (apply div_nonneg; nra).
    assert (0 <= N_v / IZR n_fix) by (apply div_nonneg; lra).
    lra. }
  assert (H1 : 0 <= ProjectingSignCalculator.V_Ed a).
  { rewrite HVEd. apply div_nonneg; lra. }
  assert (Ht : 0 <= ProjectingSignCalculator.eta_tension a).
  { rewrite Het. case_if; [apply div_nonneg; lra|lra]. }
  assert (Hs : 0 <= ProjectingSignCalculator.eta_shear a).
  { rewrite Hes. case_if; [apply div_nonneg; lra|lra]. }
  repeat split; try lra.
  - rewrite Hts. rewrite Hcs in H.
    destruct (decide (ProjectingSignCalculator.eta_combined a <= 1.0));
      [|discriminate].
    destruct (decide (ProjectingSignCalculator.eta_tension a <= 1.0));
      [reflexivity|lra].
  - rewrite Hss. rewrite Hcs in H.
    destruct (decide (ProjectingSignCalculator.eta_combined a <= 1.0));
      [|discriminate].
    destruct (decide (ProjectingSignCalculator.eta_shear a <= 1.0));
      [reflexivity|lra].
Qed.

Lemma anchor_combined_governs_witness :
  ∃ a,
    ProjectingSignCalculator.calculate_anchor_utilization
      1.9 1.14 0.1 4 0.15 12 8 1.5 = Ok a ∧
    0 <= ProjectingSignCalculator.eta_tension a ∧
    0 <= ProjectingSignCalculator.eta_shear a ∧
    ProjectingSignCalculator.eta_tension a <= ProjectingSignCalculator.eta_combined a ∧
    ProjectingSignCalculator.eta_shear a <= ProjectingSignCalculator.eta_combined a ∧
    (ProjectingSignCalculator.combined_status a = "PASS" →
     ProjectingSignCalculator.tension_status a = "PASS" ∧
     ProjectingSignCalculator.shear_status a = "PASS").
Proof.
  destruct (calculate_anchor_utilization_returns 1.9 1.14 0.1 4 0.15 12 8 1.5)
    as [a Ha]; [lra|lra|lra|].
  exists a. split; [exact Ha|].
  apply (anchor_combined_governs 1.9 1.14 0.1 4 0.15 12 8 1.5 a Ha); lra || lia.
Defined.

Lemma deflection_check_ratios (F_w_k : R) (n : Z) (L E I : R) d :
  ProjectingSignCalculator.calculate_deflection F_w_k n L E I = Ok d →
  IZR n ≠ 0 ∧
  ProjectingSignCalculator.delta d
  = (if decide (I > 0) then (F_w_k / IZR n * 1000 * (L * 1000) ^ 3) / (3 * E * I)
     else 999999) ∧
  ProjectingSignCalculator.delta_limit d = Rmin (L * 1000 / 150) 20 ∧
  ProjectingSignCalculator.eta_deflection d
  = (if decide (ProjectingSignCalculator.delta_limit d > 0)
     then ProjectingSignCalculator.delta d / ProjectingSignCalculator.delta_limit d
     else 999) ∧
  ProjectingSignCalculator.deflection_status d
  = (if decide (ProjectingSignCalculator.eta_deflection d <= 1.0)
     then "PASS" else "FAIL").
Proof.
  unfold ProjectingSignCalculator.calculate_deflection, py_div. intros Hd.
  destruct (decide (IZR n = 0)); [discriminate|]. cbn [outcome_bind] in Hd.
  injection Hd as <-. cbn. repeat split; assumption || reflexivity.
Qed.



Lemma bracket_check_ratios (V L b_out h_out t f_y : R) bc :
  ProjectingSignCalculator.calculate_bracket_stresses V L (b_out, h_out, t) f_y = Ok bc →
  h_out ≠ 0 ∧
  ProjectingSignCalculator.I bc
  = (b_out * h_out ^ 3 - (b_out - 2 * t) * (h_out - 2 * t) ^ 3) / 12 ∧
  ProjectingSignCalculator.W_el bc = 2 * ProjectingSignCalculator.I bc / h_out ∧
  ProjectingSignCalculator.sigma_Ed bc
  = (if decide (ProjectingSignCalculator.W_el bc > 0)
     then V * L * 1000000 / ProjectingSignCalculator.W_el bc else 999999) ∧
  ProjectingSignCalculator.sigma_Rd bc = f_y / 1.0 ∧
  ProjectingSignCalculator.eta_bending bc
  = (if decide (ProjectingSignCalculator.sigma_Rd bc > 0)
     then ProjectingSignCalculator.sigma_Ed bc / ProjectingSignCalculator.sigma_Rd bc
     else 999) ∧
  ProjectingSignCalculator.tau_Ed bc
  = (if decide (2 * h_out * t > 0) then V * 1000 / (2 * h_out * t) else 999999) ∧
  ProjectingSignCalculator.tau_Rd bc = f_y / sqrt 3 / 1.0 ∧
  ProjectingSignCalculator.bc_eta_shear bc
  = (if decide (ProjectingSignCalculator.tau_Rd bc > 0)
     then ProjectingSignCalculator.tau_Ed bc / ProjectingSignCalculator.tau_Rd bc
     else 999) ∧
  ProjectingSignCalculator.bending_status bc
  = (if decide (ProjectingSignCalculator.eta_bending bc <= 1.0) then "PASS" else "FAIL") ∧
  ProjectingSignCalculator.bc_shear_status bc
  = (if decide (ProjectingSignCalculator.bc_eta_shear bc <= 1.0) then "PASS" else "FAIL").
Proof.
  unfold ProjectingSignCalculator.calculate_bracket_stresses, py_div. intros Hb.
  destruct (decide (h_out = 0)); [discriminate|]. cbn [outcome_bind] in Hb.
  injection Hb as <-. cbn. repeat split; assumption || reflexivity.
Qed.

Lemma cube_lt (x y : R) : 0 < x → x < y → x ^ 3 < y ^ 3.
Proof.
  intros Hx Hxy.
  assert (x ^ 2 < y ^ 2) by nra.
  replace (x ^ 3) with (x * x ^ 2) by ring.
  replace (y ^ 3) with (y * y ^ 2) by ring.
  assert (0 < x ^ 2) by nra. nra.
Qed.

(** X25.  For a proper hollow bracket section ([0 < t], [2 t < b_out],
    [2 t < h_out]) and a positive yield strength no sentinel is used: the
    second moment of area is positive and below that of the solid
    rectangle, the elastic modulus is positive, and the utilisations are
    the ratios of stress to resistance. *)
Theorem bracket_hollow_section_needs_no_sentinel (V L b_out h_out t f_y : R) :
  0 < t → 2 * t < b_out → 2 * t < h_out → 0 < f_y →
  ∃ bc,
    ProjectingSignCalculator.calculate_bracket_stresses V L (b_out, h_out, t) f_y
    = Ok bc ∧
    0 < ProjectingSignCalculator.I bc < b_out * h_out ^ 3 / 12 ∧
    0 < ProjectingSignCalculator.W_el bc ∧
    ProjectingSignCalculator.sigma_Ed bc
    = V * L * 1000000 / ProjectingSignCalculator.W_el bc ∧
    ProjectingSignCalculator.eta_bending bc
    = ProjectingSignCalculator.sigma_Ed bc / f_y ∧
    ProjectingSignCalculator.tau_Ed bc = V * 1000 / (2 * h_out * t) ∧
    ProjectingSignCalculator.bc_eta_shear bc
    = ProjectingSignCalculator.tau_Ed bc / (f_y / sqrt 3).
Proof.
  intros Ht Hb Hh Hf.
  destruct (calculate_bracket_stresses_returns V L b_out h_out t f_y) as [bc Hbc];
    [lra|].
  exists bc. split; [exact Hbc|].
  destruct (bracket_check_ratios _ _ _ _ _ _ _ Hbc)
    as (_ & HI & HW & HsE & HsR & Heb & HtE & HtR & Hes & _).
  assert (Hcube : (h_out - 2 * t) ^ 3 < h_out ^ 3) by (apply cube_lt; lra).
  assert (Hcube0 : 0 < (h_out - 2 * t) ^ 3).
  { replace ((h_out - 2 * t) ^ 3)
      with ((h_out - 2 * t) * (h_out - 2 * t) ^ 2) by ring.
    assert (0 < (h_out - 2 * t) ^ 2) by nra. nra. }
  assert (HIpos : 0 < ProjectingSignCalculator.I bc < b_out * h_out ^ 3 / 12).
  { rewrite HI. split; nra. }
  assert (HWpos : 0 < ProjectingSignCalculator.W_el bc).
  { rewrite HW. apply Rdiv_lt_0_compat; lra. }
  assert (Hsqrt : 0 < sqrt 3) by (apply sqrt_lt_R0; lra).
  assert (HtRpos : 0 < f_y / sqrt 3) by (apply Rdiv_lt_0_compat; lra).
  split; [exact HIpos|]. split; [exact HWpos|].
  split; [rewrite HsE; case_if; [reflexivity|lra]|].
  split.
  { rewrite Heb, HsR. case_if; [|lra]. f_equal. lra. }
  split.
  { rewrite HtE. case_if; [reflexivity|nra]. }
  rewrite Hes, HtR. case_if; [|lra]. f_equal. lra.
Qed.

Lemma bracket_hollow_section_needs_no_sentinel_witness :
  ∃ bc,
    ProjectingSignCalculator.calculate_bracket_stresses 1.9 0.6 (80, 60, 5) 275
    = Ok bc ∧
    0 < ProjectingSignCalculator.I bc < 80 * 60 ^ 3 / 12 ∧
    0 < ProjectingSignCalculator.W_el bc ∧
    ProjectingSignCalculator.sigma_Ed bc
    = 1.9 * 0.6 * 1000000 / ProjectingSignCalculator.W_el bc ∧
    ProjectingSignCalculator.eta_bending bc
    = ProjectingSignCalculator.sigma_Ed bc / 275 ∧
    ProjectingSignCalculator.tau_Ed bc = 1.9 * 1000 / (2 * 60 * 5) ∧
    ProjectingSignCalculator.bc_eta_shear bc
    = ProjectingSignCalculator.tau_Ed bc / (275 / sqrt 3).
Proof.
  apply (bracket_hollow_section_needs_no_sentinel 1.9 0.6 80 60 5 275); lra.
Defined.

(** * The projecting-sign calculator: terrain, exceptions and the verdict *)

Lemma terrain_known (terrain : string) :
  (∃ tp, ProjectingSignCalculator.TERRAIN_PARAMS !! terrain = Some tp)
  ↔ terrain ∈ ["0"; "II"; "III"; "IV"].
Proof.
  unfold ProjectingSignCalculator.TERRAIN_PARAMS. split.
  - intros [tp H]. apply elem_of_list_to_map_2 in H.
    repeat (apply elem_of_cons in H as [H|H];
            [injection H as -> _; set_solver|]).
    apply elem_of_nil in H. contradiction.
  - intros H.
    repeat (apply elem_of_cons in H as [->|H]; [eexists; reflexivity|]).
    apply elem_of_nil in H. contradiction.
Qed.

Lemma terrain_table_facts (terrain : string) tp :
  ProjectingSignCalculator.TERRAIN_PARAMS !! terrain = Some tp →
  0 < ProjectingSignCalculator.z_0 tp < ProjectingSignCalculator.z_min tp ∧
  0 < ProjectingSignCalculator.k_r tp.
Proof.
  unfold ProjectingSignCalculator.TERRAIN_PARAMS. intros H.
  apply elem_of_list_to_map_2 in H.
  repeat (apply elem_of_cons in H as [H|H]; [injection H as _ ->; cbn; lra|]).
  apply elem_of_nil in H. contradiction.
Qed.

Lemma terrain_log_pos (terrain : string) tp (z : R) :
  ProjectingSignCalculator.TERRAIN_PARAMS !! terrain = Some tp →
  0 < ln (Rmax z (ProjectingSignCalculator.z_min tp) / ProjectingSignCalculator.z_0 tp).
Proof.
  intros H. destruct (terrain_table_facts _ _ H) as [[H0 Hmin] _].
  apply ln_pos. pose proof (Rmax_r z (ProjectingSignCalculator.z_min tp)).
  apply Rmult_lt_reg_r with (ProjectingSignCalculator.z_0 tp); [lra|].
  unfold Rdiv. rewrite Rmult_assoc, Rinv_l by lra. lra.
Qed.



Lemma IZR_neq_0 (n : Z) : IZR n ≠ 0 ↔ n ≠ 0%Z.
Proof.
  split.
  - intros H ->. apply H. reflexivity.
  - apply not_0_IZR.
Qed.

Lemma projecting_returns_when (i : ProjectingSignCalculator.inputs) :
  ProjectingSignCalculator.in_terrain_category i ∈ ["0"; "II"; "III"; "IV"] →
  ProjectingSignCalculator.in_n_brackets i ≠ 0%Z →
  ((2 <= ProjectingSignCalculator.in_n_brackets i)%Z →
   ProjectingSignCalculator.in_bracket_spacing i ≠ 0) →
  ProjectingSignCalculator.in_n_fixings_per_bracket i ≠ 0%Z →
  ProjectingSignCalculator.in_fixing_pitch_vertical i ≠ 0 →
  ProjectingSignCalculator.in_anchor_gamma_M i ≠ 0 →
  ProjectingSignCalculator.in_bracket_depth i ≠ 0 →
  returns (ProjectingSignCalculator.calculate_wind_loading i).
Proof.
  intros Ht Hn Hs Hf Hp Hg Hh.
  apply terrain_known in Ht as [tp Htp].
  unfold ProjectingSignCalculator.calculate_wind_loading. rewrite Htp. cbv beta zeta.
  destruct (terrain_table_facts _ _ Htp) as [[H0 Hmin] Hk].
  pose proof (terrain_log_pos _ tp (ProjectingSignCalculator.in_mounting_height i) Htp)
    as HL.
  apply returns_bind; [apply returns_new_warnings|]. intros _.
  apply returns_bind_ret.
  unfold ProjectingSignCalculator.calculate_roughness_factor,
    ProjectingSignCalculator.calculate_turbulence_intensity.
  rewrite !py_div_Ok by lra. cbn [outcome_bind].
  rewrite py_div_Ok by lra.
  apply returns_bind_lift. apply returns_bind_lift.
  apply returns_bind.
  { unfold ProjectingSignCalculator.calculate_bracket_forces. cbv zeta.
    rewrite !py_div_Ok by (apply IZR_neq_0; exact Hn).
    destruct (decide (2 <= _)%Z) as [H2|H2];
      [rewrite py_div_Ok by (apply Hs; exact H2)|]; repeat returns_step. }
  intros bf.
  match goal with
  | |- returns (bind (lift (ProjectingSignCalculator.calculate_anchor_utilization
                              ?V ?M ?N ?n ?p ?NR ?VR ?g)) _) =>
      destruct (calculate_anchor_utilization_returns V M N n p NR VR g) as [a ->];
        [apply IZR_neq_0; exact Hf | exact Hp | exact Hg |]
  end.
  apply returns_bind; [apply returns_lift|]. intros ac.
  match goal with
  | |- returns (bind (lift (ProjectingSignCalculator.calculate_bracket_stresses
                              ?V ?L (?b, ?h, ?t) ?f)) _) =>
      destruct (calculate_bracket_stresses_returns V L b h t f) as [b' ->];
        [exact Hh|]
  end.
  apply returns_bind; [apply returns_lift|]. intros bc.
  match goal with
  | |- returns (bind (lift (ProjectingSignCalculator.calculate_deflection
                              ?F ?n ?L ?E ?I)) _) =>
      destruct (calculate_deflection_returns F n L E I) as [d ->];
        [apply IZR_neq_0; exact Hn|]
  end.
  apply returns_bind; [apply returns_lift|]. intros dc.
  repeat returns_step.
Qed.

(** The wind stage of a run that returns, in closed form: with
    [L = ln (max z z_min / z_0)], [c_r = k_r L], [I_v = 1 / L] and
    [q_p = 0.5 rho (k_r v_b)^2 (L^2 + 7 L) / 1000]. *)
Lemma projecting_wind_stage (i : ProjectingSignCalculator.inputs) c r c' :
  ProjectingSignCalculator.calculate_wind_loading i c = (Ok r, c') →
  ∃ tp,
    ProjectingSignCalculator.TERRAIN_PARAMS
      !! ProjectingSignCalculator.in_terrain_category i = Some tp ∧
    let L := ln (Rmax (ProjectingSignCalculator.in_mounting_height i)
                      (ProjectingSignCalculator.z_min tp)
                 / ProjectingSignCalculator.z_0 tp) in
    let v_b := ProjectingSignCalculator.in_v_b_0 i
               * default 1.0 (ProjectingSignCalculator.in_c_dir i)
               * default 1.0 (ProjectingSignCalculator.in_c_season i) in
    ProjectingSignCalculator.c_r r = ProjectingSignCalculator.k_r tp * L ∧
    ProjectingSignCalculator.I_v r = / L ∧
    ProjectingSignCalculator.q_p r
    = 0.5 * ProjectingSignCalculator.AIR_DENSITY
      * (ProjectingSignCalculator.k_r tp * v_b) ^ 2 * (L ^ 2 + 7 * L) / 1000.
Proof.
  intros Hrun.
  destruct (projecting_run_stages _ _ _ _ Hrun)
    as (tp & Htp & Hvb & Hz & Hcr & HIv & Hvm & Hqp & _).
  exists tp. split; [exact Htp|]. cbv zeta.
  pose proof (terrain_log_pos _ tp (ProjectingSignCalculator.in_mounting_height i) Htp)
    as HL.
  destruct (terrain_table_facts _ _ Htp) as [[H0 Hmin] Hk].
  rewrite Hz in Hcr, HIv.
  unfold ProjectingSignCalculator.calculate_roughness_factor in Hcr.
  unfold ProjectingSignCalculator.calculate_turbulence_intensity in HIv.
  rewrite py_div_Ok in Hcr, HIv by lra. cbn [outcome_bind] in Hcr, HIv.
  rewrite py_div_Ok in HIv by lra.
  injection Hcr as Hcr. injection HIv as HIv.
  set (L := ln _) in *.
  assert (HIv' : ProjectingSignCalculator.I_v r = / L).
  { rewrite <- HIv. field. lra. }
  split; [symmetry; exact Hcr|]. split; [exact HIv'|].
  rewrite Hqp, Hvm, Hvb, HIv', <- Hcr.
  unfold ProjectingSignCalculator.calculate_peak_pressure,
    ProjectingSignCalculator.calculate_basic_wind_velocity. cbv zeta.
  field. lra.
Qed.

(** X27.  For a known terrain category, at least one bracket (with a
    non-zero spacing when there are two or more), a non-zero number of
    fixings, pitch, partial factor and bracket depth, the projecting-sign
    calculation returns a dictionary.  In it the force coefficient is 2.0,
    the characteristic wind force is [c_f q_p A], the design loads are
    the characteristic loads times 1.5 (wind) and 1.35 (self-weight), the
    effective height is at least the terrain's [z_min], and the pressure
    is not negative. *)
Theorem projecting_returns (i : ProjectingSignCalculator.inputs) (c : calculator) :
  ProjectingSignCalculator.in_terrain_category i ∈ ["0"; "II"; "III"; "IV"] →
  ProjectingSignCalculator.in_n_brackets i ≠ 0%Z →
  ((2 <= ProjectingSignCalculator.in_n_brackets i)%Z →
   ProjectingSignCalculator.in_bracket_spacing i ≠ 0) →
  ProjectingSignCalculator.in_n_fixings_per_bracket i ≠ 0%Z →
  ProjectingSignCalculator.in_fixing_pitch_vertical i ≠ 0 →
  ProjectingSignCalculator.in_anchor_gamma_M i ≠ 0 →
  ProjectingSignCalculator.in_bracket_depth i ≠ 0 →
  ∃ r c' tp,
    ProjectingSignCalculator.calculate_wind_loading i c = (Ok r, c') ∧
    ProjectingSignCalculator.TERRAIN_PARAMS
      !! ProjectingSignCalculator.in_terrain_category i = Some tp ∧
    ProjectingSignCalculator.z_eff r
    = Rmax (ProjectingSignCalculator.in_mounting_height i)
           (ProjectingSignCalculator.z_min tp) ∧
    ProjectingSignCalculator.z_min tp <= ProjectingSignCalculator.z_eff r ∧
    0 <= ProjectingSignCalculator.q_p r ∧
    ProjectingSignCalculator.c_f r = 2.0 ∧
    ProjectingSignCalculator.F_w_k r
    = 2.0 * ProjectingSignCalculator.q_p r
      * (ProjectingSignCalculator.in_sign_width i
         * ProjectingSignCalculator.in_sign_height i) ∧
    ProjectingSignCalculator.F_w_Ed r = 1.5 * ProjectingSignCalculator.F_w_k r ∧
    ProjectingSignCalculator.G_Ed r
    = 1.35 * ProjectingSignCalculator.in_sign_weight i.
Proof.
  intros Ht Hn Hs Hf Hp Hg Hh.
  destruct (projecting_returns_when i Ht Hn Hs Hf Hp Hg Hh c) as (r & c' & Hrun).
  destruct (projecting_run_stages _ _ _ _ Hrun)
    as (tp & Htp & _ & Hz & _ & _ & _ & _ & Hcf & HA & HFk & HG & HFEd & _).
  destruct (projecting_wind_stage _ _ _ _ Hrun) as (tp' & Htp' & _ & _ & Hqp).
  assert (tp' = tp) as -> by congruence.
  pose proof (terrain_log_pos _ tp (ProjectingSignCalculator.in_mounting_height i) Htp)
    as HL.
  exists r, c', tp. split; [exact Hrun|]. split; [exact Htp|].
  split; [exact Hz|]. split; [rewrite Hz; apply Rmax_r|].
  split.
  { rewrite Hqp. cbv zeta. unfold ProjectingSignCalculator.AIR_DENSITY.
    set (L := ln _) in *.
    match goal with
    | |- 0 <= 0.5 * 1.25 * ?kv ^ 2 * _ / 1000 =>
        assert (0 <= kv ^ 2) by apply pow2_ge_0
    end.
    assert (0 <= L ^ 2 + 7 * L) by nra.
    apply div_nonneg; [|lra]. apply Rmult_le_pos; [|assumption]. nra. }
  split; [exact Hcf|].
  split; [rewrite HFk, Hcf, HA; reflexivity|].
  split; [rewrite HFEd; unfold ProjectingSignCalculator.GAMMA_Q; reflexivity|].
  rewrite HG. unfold ProjectingSignCalculator.GAMMA_G_UNFAV. reflexivity.
Qed.

Lemma projecting_returns_witness :
  ∃ r c' tp,
    ProjectingSignCalculator.calculate_wind_loading projecting_example init = (Ok r, c') ∧
    ProjectingSignCalculator.TERRAIN_PARAMS !! "III" = Some tp ∧
    ProjectingSignCalculator.z_eff r = Rmax 4.5 (ProjectingSignCalculator.z_min tp) ∧
    ProjectingSignCalculator.z_min tp <= ProjectingSignCalculator.z_eff r ∧
    0 <= ProjectingSignCalculator.q_p r ∧
    ProjectingSignCalculator.c_f r = 2.0 ∧
    ProjectingSignCalculator.F_w_k r
    = 2.0 * ProjectingSignCalculator.q_p r * (2.0 * 1.5) ∧
    ProjectingSignCalculator.F_w_Ed r = 1.5 * ProjectingSignCalculator.F_w_k r ∧
    ProjectingSignCalculator.G_Ed r = 1.35 * 0.15.
Proof.
  apply (projecting_returns projecting_example init); cbn;
    first [ set_solver | lia | lra | intros _; lra ].
Defined.

(** A run of the projecting-sign [calculate_wind_loading] that returns,
    split at its stages. *)
Ltac open_projecting_run Hrun :=
  unfold ProjectingSignCalculator.calculate_wind_loading in Hrun;
  apply bind_Ok in Hrun as (u & c0 & _ & Hrun); cbv beta zeta in Hrun;
  apply bind_Ok in Hrun as (tp & c1 & Htp & Hrun); cbv beta zeta in Hrun;
  apply bind_Ok in Hrun as (c_r & c2 & Hcr & Hrun); cbv beta zeta in Hrun;
  apply bind_Ok in Hrun as (I_v & c3 & HIv & Hrun); cbv beta zeta in Hrun;
  apply bind_Ok in Hrun as (bf & c4 & Hbf & Hrun); cbv beta zeta in Hrun;
  apply bind_Ok in Hrun as (ac & c5 & Hac & Hrun); cbv beta zeta in Hrun;
  apply bind_Ok in Hrun as (bc & c6 & Hbc & Hrun); cbv beta zeta in Hrun;
  apply bind_Ok in Hrun as (dc & c7 & Hdc & Hrun); cbv beta zeta in Hrun;
  apply bind_Ok in Hrun as (ws & c8 & _ & Hrun);
  unfold ret in Hrun; injection Hrun as <- _;
  apply lift_Ok in Hcr, HIv, Hac, Hbc, Hdc.

(** X28.  The verdict of the projecting-sign calculation is "ADEQUATE" or
    "INADEQUATE", and it is "ADEQUATE" exactly when the combined anchor
    utilisation, the bending and the shear utilisation of the bracket and
    the deflection ratio are all at most 1, that is, when the four
    statuses are "PASS". *)
Theorem projecting_overall_status (i : ProjectingSignCalculator.inputs)
    (c c' : calculator) (r : ProjectingSignCalculator.results loc) :
  ProjectingSignCalculator.calculate_wind_loading i c = (Ok r, c') →
  let a := ProjectingSignCalculator.anchor_check_ r in
  let b := ProjectingSignCalculator.bracket_check_ r in
  let d := ProjectingSignCalculator.deflection_check_ r in
  (ProjectingSignCalculator.overall_status r = "ADEQUATE"
   ∨ ProjectingSignCalculator.overall_status r = "INADEQUATE") ∧
  (ProjectingSignCalculator.overall_status r = "ADEQUATE"
   ↔ ProjectingSignCalculator.overall_pass r = true) ∧
  (ProjectingSignCalculator.overall_pass r = true
   ↔ ProjectingSignCalculator.eta_combined a <= 1.0
     ∧ ProjectingSignCalculator.eta_bending b <= 1.0
     ∧ ProjectingSignCalculator.bc_eta_shear b <= 1.0
     ∧ ProjectingSignCalculator.eta_deflection d <= 1.0) ∧
  (ProjectingSignCalculator.overall_pass r = true
   ↔ ProjectingSignCalculator.combined_status a = "PASS"
     ∧ ProjectingSignCalculator.bending_status b = "PASS"
     ∧ ProjectingSignCalculator.bc_shear_status b = "PASS"
     ∧ ProjectingSignCalculator.deflection_status d = "PASS").
Proof.
  intros Hrun a b d.
  destruct (projecting_run_stages _ _ _ _ Hrun)
    as (tp & _ & _ & _ & _ & _ & _ & _ & _ & _ & _ & _ & _ & _ & Hac' & Hbc' & Hdc').
  destruct (anchor_check_ratios _ _ _ _ _ _ _ _ _ Hac')
    as (_ & _ & _ & _ & _ & _ & _ & _ & _ & _ & _ & _ & Hcs).
  destruct (bracket_check_ratios _ _ _ _ _ _ _ Hbc')
    as (_ & _ & _ & _ & _ & _ & _ & _ & _ & Hbs & Hss).
  destruct (deflection_check_ratios _ _ _ _ _ _ Hdc') as (_ & _ & _ & _ & Hds).
  fold a in Hcs. fold b in Hbs, Hss. fold d in Hds.
  assert (Hpass : ProjectingSignCalculator.overall_pass r
                  = bool_decide (ProjectingSignCalculator.eta_combined a <= 1.0)
                    && bool_decide (ProjectingSignCalculator.eta_bending b <= 1.0)
                    && bool_decide (ProjectingSignCalculator.bc_eta_shear b <= 1.0)
                    && bool_decide (ProjectingSignCalculator.eta_deflection d <= 1.0)
                  ∧ ProjectingSignCalculator.overall_status r
                    = if ProjectingSignCalculator.overall_pass r
                      then "ADEQUATE" else "INADEQUATE").
  { subst a b d. clear -Hrun. open_projecting_run Hrun. split; reflexivity. }
  destruct Hpass as [Hpass Hstatus].
  assert (Hiff : ProjectingSignCalculator.overall_pass r = true
                 ↔ ProjectingSignCalculator.eta_combined a <= 1.0
                   ∧ ProjectingSignCalculator.eta_bending b <= 1.0
                   ∧ ProjectingSignCalculator.bc_eta_shear b <= 1.0
                   ∧ ProjectingSignCalculator.eta_deflection d <= 1.0).
  { rewrite Hpass, !andb_true_iff, !bool_decide_eq_true. tauto. }
  split; [|split; [|split]].
  - rewrite Hstatus. destruct (ProjectingSignCalculator.overall_pass r); auto.
  - rewrite Hstatus. destruct (ProjectingSignCalculator.overall_pass r);
      split; congruence.
  - exact Hiff.
  - rewrite Hiff, Hcs, Hbs, Hss, Hds.
    repeat case_if; split; intros (? & ? & ? & ?);
      repeat split; try reflexivity; try assumption; try contradiction;
      try congruence.
Qed.

Lemma projecting_overall_status_witness :
  ∃ r c',
    ProjectingSignCalculator.calculate_wind_loading projecting_example init = (Ok r, c') ∧
    let a := ProjectingSignCalculator.anchor_check_ r in
    let b := ProjectingSignCalculator.bracket_check_ r in
    let d := ProjectingSignCalculator.deflection_check_ r in
    (ProjectingSignCalculator.overall_status r = "ADEQUATE"
     ∨ ProjectingSignCalculator.overall_status r = "INADEQUATE") ∧
    (ProjectingSignCalculator.overall_status r = "ADEQUATE"
     ↔ ProjectingSignCalculator.overall_pass r = true) ∧
    (ProjectingSignCalculator.overall_pass r = true
     ↔ ProjectingSignCalculator.eta_combined a <= 1.0
       ∧ ProjectingSignCalculator.eta_bending b <= 1.0
       ∧ ProjectingSignCalculator.bc_eta_shear b <= 1.0
       ∧ ProjectingSignCalculator.eta_deflection d <= 1.0) ∧
    (ProjectingSignCalculator.overall_pass r = true
     ↔ ProjectingSignCalculator.combined_status a = "PASS"
       ∧ ProjectingSignCalculator.bending_status b = "PASS"
       ∧ ProjectingSignCalculator.bc_shear_status b = "PASS"
       ∧ ProjectingSignCalculator.deflection_status d = "PASS").
Proof.
  destruct (projecting_example_returns init) as (r & c' & Hr).
  exists r, c'. split; [exact Hr|].
  exact (projecting_overall_status projecting_example init c' r Hr).
Defined.

(** X29.  For a fixed terrain and basic wind velocity, a higher mounting
    height gives a roughness factor and a peak pressure that are not
    smaller and a turbulence intensity that is not larger; the pressure
    is never negative.  At and below the terrain's minimum height
    [z_min] the three do not depend on the mounting height. *)
Theorem projecting_pressure_monotone_in_height
    (i i' : ProjectingSignCalculator.inputs) (c c' c1 c1' : calculator)
    (r r' : ProjectingSignCalculator.results loc) (tp : ProjectingSignCalculator.terrain_params) :
  ProjectingSignCalculator.calculate_wind_loading i c = (Ok r, c1) →
  ProjectingSignCalculator.calculate_wind_loading i' c' = (Ok r', c1') →
  ProjectingSignCalculator.in_terrain_category i'
  = ProjectingSignCalculator.in_terrain_category i →
  ProjectingSignCalculator.in_v_b_0 i' = ProjectingSignCalculator.in_v_b_0 i →
  ProjectingSignCalculator.in_c_dir i' = ProjectingSignCalculator.in_c_dir i →
  ProjectingSignCalculator.in_c_season i' = ProjectingSignCalculator.in_c_season i →
  ProjectingSignCalculator.in_mounting_height i
  <= ProjectingSignCalculator.in_mounting_height i' →
  ProjectingSignCalculator.TERRAIN_PARAMS
    !! ProjectingSignCalculator.in_terrain_category i = Some tp →
  0 < ProjectingSignCalculator.c_r r <= ProjectingSignCalculator.c_r r' ∧
  0 < ProjectingSignCalculator.I_v r' <= ProjectingSignCalculator.I_v r ∧
  0 <= ProjectingSignCalculator.q_p r <= ProjectingSignCalculator.q_p r' ∧
  (ProjectingSignCalculator.in_mounting_height i' <= ProjectingSignCalculator.z_min tp →
   ProjectingSignCalculator.c_r r = ProjectingSignCalculator.c_r r' ∧
   ProjectingSignCalculator.I_v r = ProjectingSignCalculator.I_v r' ∧
   ProjectingSignCalculator.q_p r = ProjectingSignCalculator.q_p r').
Proof.
  intros Hrun Hrun' Et Ev Ed Es Hz Htp.
  destruct (projecting_wind_stage _ _ _ _ Hrun) as (tp0 & Htp0 & Hcr & HIv & Hqp).
  destruct (projecting_wind_stage _ _ _ _ Hrun') as (tp1 & Htp1 & Hcr' & HIv' & Hqp').
  rewrite Et, Ev, Ed, Es in *.
  assert (tp0 = tp) as -> by congruence. assert (tp1 = tp) as -> by congruence.
  clear Htp0 Htp1.
  pose proof (terrain_log_pos _ tp (ProjectingSignCalculator.in_mounting_height i) Htp)
    as HL.
  pose proof (terrain_log_pos _ tp (ProjectingSignCalculator.in_mounting_height i') Htp)
    as HL'.
  destruct (terrain_table_facts _ _ Htp) as [[H0 Hmin] Hk].
  set (zm := ProjectingSignCalculator.z_min tp) in *.
  set (z0 := ProjectingSignCalculator.z_0 tp) in *.
  set (k := ProjectingSignCalculator.k_r tp) in *.
  assert (Hmax : Rmax (ProjectingSignCalculator.in_mounting_height i) zm
                 <= Rmax (ProjectingSignCalculator.in_mounting_height i') zm).
  { apply Rmax_lub; [|apply Rmax_r].
    apply Rle_trans with (ProjectingSignCalculator.in_mounting_height i');
      [exact Hz | apply Rmax_l]. }
  assert (Hpos : 0 < Rmax (ProjectingSignCalculator.in_mounting_height i) zm).
  { pose proof (Rmax_r (ProjectingSignCalculator.in_mounting_height i) zm). lra. }
  assert (HLL : ln (Rmax (ProjectingSignCalculator.in_mounting_height i) zm / z0)
                <= ln (Rmax (ProjectingSignCalculator.in_mounting_height i') zm / z0)).
  { apply ln_mono.
    - apply Rdiv_lt_0_compat; lra.
    - unfold Rdiv. apply Rmult_le_compat_r; [|exact Hmax].
      left. apply Rinv_0_lt_compat. lra. }
  cbv zeta in Hcr, HIv, Hqp, Hcr', HIv', Hqp'.
  set (L := ln (Rmax (ProjectingSignCalculator.in_mounting_height i) zm / z0)) in *.
  set (L' := ln (Rmax (ProjectingSignCalculator.in_mounting_height i') zm / z0)) in *.
  set (v := ProjectingSignCalculator.in_v_b_0 i
            * default 1.0 (ProjectingSignCalculator.in_c_dir i)
            * default 1.0 (ProjectingSignCalculator.in_c_season i)) in *.
  assert (Hkv : 0 <= (k * v) ^ 2) by (apply pow2_ge_0).
  assert (Hinv : 0 < / L') by (apply Rinv_0_lt_compat; exact HL').
  assert (Hinv' : / L' <= / L) by (apply Rinv_le_contravar; lra).
  assert (Hpoly : 0 <= L ^ 2 + 7 * L <= L' ^ 2 + 7 * L') by nra.
  unfold ProjectingSignCalculator.AIR_DENSITY in *.
  assert (Hlow : ProjectingSignCalculator.in_mounting_height i' <= zm → L = L').
  { intros Hlow. subst L L'. rewrite !Rmax_right by lra. reflexivity. }
  rewrite Hcr, Hcr', HIv, HIv', Hqp, Hqp'.
  split; [nra|]. split; [lra|]. split; [nra|].
  intros Hle. rewrite (Hlow Hle). repeat split; reflexivity.
Qed.

Lemma projecting_example_at_8_returns :
  returns (ProjectingSignCalculator.calculate_wind_loading projecting_example_at_8).
Proof.
  apply projecting_returns_when; cbn;
    first [ set_solver | lia | lra | intros _; lra ].
Qed.

Lemma projecting_pressure_monotone_in_height_witness :
  ∃ r r' c1 c1',
    ProjectingSignCalculator.calculate_wind_loading projecting_example init
    = (Ok r, c1) ∧
    ProjectingSignCalculator.calculate_wind_loading projecting_example_at_8 init
    = (Ok r', c1') ∧
    0 < ProjectingSignCalculator.c_r r <= ProjectingSignCalculator.c_r r' ∧
    0 < ProjectingSignCalculator.I_v r' <= ProjectingSignCalculator.I_v r ∧
    0 <= ProjectingSignCalculator.q_p r <= ProjectingSignCalculator.q_p r' ∧
    (8 <= 5 →
     ProjectingSignCalculator.c_r r = ProjectingSignCalculator.c_r r' ∧
     ProjectingSignCalculator.I_v r = ProjectingSignCalculator.I_v r' ∧
     ProjectingSignCalculator.q_p r = ProjectingSignCalculator.q_p r').
Proof.
  destruct (projecting_example_returns init) as (r & c1 & Hr).
  destruct (projecting_example_at_8_returns init) as (r' & c1' & Hr').
  exists r, r', c1, c1'. split; [exact Hr|]. split; [exact Hr'|].
  apply (projecting_pressure_monotone_in_height
           projecting_example projecting_example_at_8 init init c1 c1' r r'
           (ProjectingSignCalculator.TerrainParams 0.3 5 0.22 "Suburban/industrial")
           Hr Hr');
    try reflexivity.
  cbn. lra.
Defined.

(** * Requests the handler accepts *)







